(** * finalscrap: crawler and component analyzer, verified against its specification

    A shallow embedding of the URL classifier, the page-identifier function,
    the dynamic-discovery handlers, the crawl loop, the component extractors
    and the per-URL extraction pipelines of the repository, with the
    properties its specification states about them.

    Conventions.
    - A Python [str] is a [string]; characters are [ascii] code points, and
      [str.lower] and the regular-expression class [\w] are modelled on the
      ASCII range (code points above 127 are left unchanged by [lower] and
      are not word characters).
    - A Python [set] of URLs is a [gset string]; a [dict] is an association
      list in insertion order, a directory tree a [gmap] keyed by path.
    - A [try]/[except] is an [option], or a computation in the monad [Sys.M]
      of the state of files and requests with exceptions.
    - What the repository calls but does not define (the URL parser, the
      HTTP session, the HTML parser, the rendered browser session) is a
      [Variable] of the section that embeds the caller.
    - The first part holds the embedding, the second part the properties. *)

From Stdlib Require Import Ascii String List Arith Bool Lia.
From Stdlib Require Import Sorted.
From stdpp Require Import base option list gmap strings.

Set Warnings "-clear-no-such-hyp".

(** ** Python string operations *)

Module PyStr.

Definition is_upper (c : ascii) : bool :=
  (65 <=? nat_of_ascii c) && (nat_of_ascii c <=? 90).

Definition is_lower (c : ascii) : bool :=
  (97 <=? nat_of_ascii c) && (nat_of_ascii c <=? 122).

Definition is_digit (c : ascii) : bool :=
  (48 <=? nat_of_ascii c) && (nat_of_ascii c <=? 57).

Definition is_alpha (c : ascii) : bool := is_upper c || is_lower c.

(** [\w]: letters, digits and the underscore. *)
Definition is_word (c : ascii) : bool :=
  is_alpha c || is_digit c || Ascii.eqb c "_".

Definition lower_char (c : ascii) : ascii :=
  if is_upper c then ascii_of_nat (nat_of_ascii c + 32) else c.

(** [s.lower()] *)
Fixpoint lower (s : string) : string :=
  match s with
  | EmptyString => EmptyString
  | String c s' => String (lower_char c) (lower s')
  end.

(** [s.startswith(p)] *)
Fixpoint startswith (s p : string) : bool :=
  match p, s with
  | EmptyString, _ => true
  | String a p', String b s' => Ascii.eqb a b && startswith s' p'
  | String _ _, EmptyString => false
  end.

(** [s.endswith(e)] *)
Fixpoint endswith (s e : string) : bool :=
  String.eqb s e ||
  match s with
  | EmptyString => false
  | String _ s' => endswith s' e
  end.

(** [sub in s] *)
Fixpoint contains (sub s : string) : bool :=
  startswith s sub ||
  match s with
  | EmptyString => false
  | String _ s' => contains sub s'
  end.

(** [c in s] for a single character *)
Fixpoint has_char (c : ascii) (s : string) : bool :=
  match s with
  | EmptyString => false
  | String b s' => Ascii.eqb b c || has_char c s'
  end.

(** [s.lstrip(chars)] with the character set given as a predicate *)
Fixpoint lstrip (P : ascii -> bool) (s : string) : string :=
  match s with
  | EmptyString => EmptyString
  | String c s' => if P c then lstrip P s' else s
  end.

(** [s.rstrip(chars)] *)
Fixpoint rstrip (P : ascii -> bool) (s : string) : string :=
  match s with
  | EmptyString => EmptyString
  | String c s' =>
      match rstrip P s' with
      | EmptyString => if P c then EmptyString else String c EmptyString
      | r => String c r
      end
  end.

(** [s.strip(chars)] *)
Definition strip (P : ascii -> bool) (s : string) : string :=
  rstrip P (lstrip P s).

(** Deleting every character of a class: [s.replace(c, "")] for each [c]. *)
Fixpoint remove_chars (P : ascii -> bool) (s : string) : string :=
  match s with
  | EmptyString => EmptyString
  | String c s' => if P c then remove_chars P s' else String c (remove_chars P s')
  end.

(** [re.sub(r'[^...]', '_', s)]: every character outside the class [keep]
    is replaced by an underscore. *)
Fixpoint sub_outside (keep : ascii -> bool) (s : string) : string :=
  match s with
  | EmptyString => EmptyString
  | String c s' => String (if keep c then c else "_"%char) (sub_outside keep s')
  end.

(** [re.sub(r'_+', '_', s)]: every maximal run of underscores becomes one. *)
Fixpoint collapse_underscores (s : string) : string :=
  match s with
  | EmptyString => EmptyString
  | String c s' =>
      if Ascii.eqb c "_" then
        match s' with
        | String d _ =>
            if Ascii.eqb d "_" then collapse_underscores s'
            else String c (collapse_underscores s')
        | EmptyString => String c EmptyString
        end
      else String c (collapse_underscores s')
  end.

(** [s[:n]] *)
Fixpoint take (n : nat) (s : string) : string :=
  match n, s with
  | S n', String c s' => String c (take n' s')
  | _, _ => EmptyString
  end.

(** [s[n:]] *)
Fixpoint drop (n : nat) (s : string) : string :=
  match n, s with
  | S n', String _ s' => drop n' s'
  | _, _ => s
  end.

(** [s[:-k]] for [0 < k] *)
Definition drop_last (k : nat) (s : string) : string :=
  take (String.length s - k) s.

(** The part of [s] before the first character satisfying [P], and the rest
    starting at that character ([s.find] followed by two slices). *)
Fixpoint break_at (P : ascii -> bool) (s : string) : string * string :=
  match s with
  | EmptyString => (EmptyString, EmptyString)
  | String c s' =>
      if P c then (EmptyString, s)
      else let '(a, b) := break_at P s' in (String c a, b)
  end.

(** Every character of [s] satisfies [P]. *)
Fixpoint all_chars (P : ascii -> bool) (s : string) : bool :=
  match s with
  | EmptyString => true
  | String c s' => P c && all_chars P s'
  end.

(** [str(n)] for a natural number *)
Definition digit_char (d : nat) : ascii := ascii_of_nat (48 + d).

Fixpoint str_of_nat_aux (fuel n : nat) (acc : string) : string :=
  match fuel with
  | 0 => acc
  | S fuel' =>
      let acc' := String (digit_char (n mod 10)) acc in
      if n <? 10 then acc' else str_of_nat_aux fuel' (n / 10) acc'
  end.

Definition str_of_nat (n : nat) : string := str_of_nat_aux (S n) n EmptyString.

End PyStr.

(** ** [urllib.parse]

    The crawlers and the extractors call the standard library's [urlparse]
    and read [netloc], [path] and [query] from its result; a [ValueError]
    raised by the parser is [None].  The repository's functions are
    parametrised by the parser ([Variable urlparse]); [urlparse_ref] is a
    reference parser following CPython's [urlsplit]/[urlparse] (leading
    control characters stripped, tab and newline characters removed, scheme,
    [//netloc], fragment, query, parameters of the last path segment, and
    the unbalanced-bracket check), against which concrete URLs are
    evaluated. *)

Module UrlParse.

Record ParseResult := mkParseResult {
  scheme : string;
  netloc : string;
  path : string;
  params : string;
  query : string;
  fragment : string
}.

Definition is_c0_or_space (c : ascii) : bool := nat_of_ascii c <=? 32.

Definition is_unsafe_byte (c : ascii) : bool :=
  Ascii.eqb c "009" || Ascii.eqb c "013" || Ascii.eqb c "010".

Definition is_scheme_char (c : ascii) : bool :=
  PyStr.is_alpha c || PyStr.is_digit c ||
  Ascii.eqb c "+" || Ascii.eqb c "-" || Ascii.eqb c ".".

Definition uses_params : list string :=
  [""; "ftp"; "hdl"; "prospero"; "http"; "imap"; "https"; "shttp"; "rtsp";
   "rtspu"; "sip"; "sips"; "mms"; "sftp"; "tel"].

Definition is_netloc_delim (c : ascii) : bool :=
  Ascii.eqb c "/" || Ascii.eqb c "?" || Ascii.eqb c "#".

(** [scheme, url = url[:i].lower(), url[i+1:]] when [url[:i]] is a scheme. *)
Definition split_scheme (url : string) : string * string :=
  let '(before, rest) := PyStr.break_at (fun c => Ascii.eqb c ":") url in
  match before, rest with
  | String c0 _, String _ after =>
      if PyStr.is_alpha c0 && PyStr.all_chars is_scheme_char before
      then (PyStr.lower before, after)
      else (EmptyString, url)
  | _, _ => (EmptyString, url)
  end.

(** [url.split(c, 1)] when [c in url], [(url, "")] otherwise. *)
Definition split_once (c : ascii) (url : string) : string * string :=
  let '(before, rest) := PyStr.break_at (fun d => Ascii.eqb d c) url in
  match rest with
  | String _ after => (before, after)
  | EmptyString => (url, EmptyString)
  end.

(** The last position of ["/"] in [url], if any ([url.rfind('/')]). *)
Fixpoint rfind_slash (url : string) : option nat :=
  match url with
  | EmptyString => None
  | String c s' =>
      match rfind_slash s' with
      | Some i => Some (S i)
      | None => if Ascii.eqb c "/" then Some 0 else None
      end
  end.

Definition _splitparams (url : string) : string * string :=
  match rfind_slash url with
  | Some j =>
      let '(seg, rest) :=
        PyStr.break_at (fun d => Ascii.eqb d ";") (PyStr.drop j url) in
      match rest with
      | String _ after => (PyStr.take j url +:+ seg, after)
      | EmptyString => (url, EmptyString)
      end
  | None => split_once ";" url
  end.

Definition urlsplit_ref (url0 : string)
  : option (string * string * string * string * string) :=
  let url := PyStr.remove_chars is_unsafe_byte (PyStr.lstrip is_c0_or_space url0) in
  let '(scheme, url) := split_scheme url in
  let after_netloc :=
    if PyStr.startswith url "//" then
      let '(nl, rest) := PyStr.break_at is_netloc_delim (PyStr.drop 2 url) in
      if xorb (PyStr.has_char "[" nl) (PyStr.has_char "]" nl)
      then None (* ValueError("Invalid IPv6 URL") *)
      else Some (nl, rest)
    else Some (EmptyString, url) in
  match after_netloc with
  | None => None
  | Some (nl, url) =>
      let '(url, frag) := split_once "#" url in
      let '(url, qry) := split_once "?" url in
      Some (scheme, nl, url, qry, frag)
  end.

Definition urlparse_ref (url0 : string) : option ParseResult :=
  match urlsplit_ref url0 with
  | None => None
  | Some (sch, nl, url, qry, frag) =>
      let '(url, prm) :=
        if bool_decide (sch ∈ uses_params) && PyStr.has_char ";" url
        then _splitparams url else (url, EmptyString) in
      Some (mkParseResult sch nl url prm qry frag)
  end.

End UrlParse.

(** ** The URL classifier *)

(** [is_valid_url] of the crawlers.  The three rules are the same in
    [DynamicWebCrawler], [EnhancedWebCrawler] and [UltraFastCrawler]; only
    the list [skip_extensions] differs. *)

Module Classifier.

Definition skip_paths : list string :=
  ["/admin"; "/login"; "/logout"; "/api/"; "/download"].

Section WithParser.
Variable urlparse : string -> option UrlParse.ParseResult.

Definition is_valid_url_with (skip_extensions : list string)
    (domain url : string) : bool :=
  match urlparse url with
  | None => false
  | Some parsed =>
      if negb (String.eqb (UrlParse.netloc parsed) "")
         && negb (String.eqb (UrlParse.netloc parsed) domain)
      then false
      else if existsb (fun ext => PyStr.endswith (PyStr.lower url) ext) skip_extensions
      then false
      else if existsb (fun p => PyStr.contains p (PyStr.lower url)) skip_paths
      then false
      else true
  end.

End WithParser.

End Classifier.

Module DynamicWebCrawler.

Definition skip_extensions : list string :=
  [".pdf"; ".jpg"; ".jpeg"; ".png"; ".gif"; ".zip"; ".doc"; ".docx"].

Definition is_valid_url (urlparse : string -> option UrlParse.ParseResult) :=
  Classifier.is_valid_url_with urlparse skip_extensions.

End DynamicWebCrawler.

Module EnhancedWebCrawler.

Definition skip_extensions : list string :=
  [".pdf"; ".jpg"; ".jpeg"; ".png"; ".gif"; ".zip"; ".doc"; ".docx"].

Definition is_valid_url (urlparse : string -> option UrlParse.ParseResult) :=
  Classifier.is_valid_url_with urlparse skip_extensions.

End EnhancedWebCrawler.

Module UltraFastCrawler.

Definition skip_extensions : list string :=
  [".pdf"; ".jpg"; ".jpeg"; ".png"; ".gif"; ".zip"; ".doc"; ".docx";
   ".xls"; ".xlsx"].

Definition is_valid_url (urlparse : string -> option UrlParse.ParseResult) :=
  Classifier.is_valid_url_with urlparse skip_extensions.

End UltraFastCrawler.

(** ** The page identifier *)

(** [create_page_identifier], identical in [HTMLExtractor] and
    [AdvancedComponentAnalyzer].  The function does not catch the parser's
    exception: it propagates to the caller's [try]. *)

Module PageId.

Definition is_slash (c : ascii) : bool := Ascii.eqb c "/".
Definition is_underscore (c : ascii) : bool := Ascii.eqb c "_".

(** The class kept by [[^\w\-_.]] *)
Definition path_char (c : ascii) : bool :=
  PyStr.is_word c || Ascii.eqb c "-" || Ascii.eqb c "_" || Ascii.eqb c ".".

(** The class kept by [[^\w\-_=&]] *)
Definition query_char (c : ascii) : bool :=
  PyStr.is_word c || Ascii.eqb c "-" || Ascii.eqb c "_" ||
  Ascii.eqb c "=" || Ascii.eqb c "&".

(** The identifier derived from the path alone, before the query is added. *)
Definition clean_path (path : string) : string :=
  let identifier := PyStr.sub_outside path_char path in
  let identifier := PyStr.collapse_underscores identifier in
  PyStr.strip is_underscore identifier.

Definition path_identifier (stripped_path : string) : string :=
  if String.eqb stripped_path "" then "homepage"
  else
    let identifier := clean_path stripped_path in
    if PyStr.endswith identifier ".html" then PyStr.drop_last 5 identifier
    else identifier.

Definition identifier_of (parsed : UrlParse.ParseResult) : string :=
  let path := PyStr.strip is_slash (UrlParse.path parsed) in
  let identifier := path_identifier path in
  let identifier :=
    if negb (String.eqb (UrlParse.query parsed) "")
    then identifier +:+ "_query_" +:+ PyStr.sub_outside query_char (UrlParse.query parsed)
    else identifier in
  if 100 <? String.length identifier then PyStr.take 100 identifier
  else identifier.

Section WithParser.
Variable urlparse : string -> option UrlParse.ParseResult.

Definition create_page_identifier (url : string) : option string :=
  match urlparse url with
  | None => None
  | Some parsed => Some (identifier_of parsed)
  end.

End WithParser.

End PageId.

(** ** The parsed page *)

(** The tree BeautifulSoup builds: elements with a tag name, the tokens of
    the multi-valued [class] attribute ([None] when the attribute is
    absent), the other attributes, and children; and text nodes. *)

Module Soup.

#[warnings="-register-all"] Inductive node :=
| Element (name : string) (classes : option (list string))
    (attrs : list (string * string)) (children : list node)
| Text (s : string).

(** [tag.name] *)
Definition name (n : node) : string :=
  match n with Element nm _ _ _ => nm | Text _ => EmptyString end.

(** [tag.get('class', [])] *)
Definition get_classes (n : node) : list string :=
  match n with Element _ (Some cs) _ _ => cs | _ => [] end.

(** [tag.get(key, default)] for a single-valued attribute *)
Fixpoint assoc (key : string) (l : list (string * string)) : option string :=
  match l with
  | [] => None
  | (k, v) :: l' => if String.eqb k key then Some v else assoc key l'
  end.

Definition get (n : node) (key default : string) : string :=
  match n with
  | Element _ _ attrs _ =>
      match assoc key attrs with Some v => v | None => default end
  | Text _ => default
  end.

(** [tag.descendants]: every node below [n], in document order. *)
Fixpoint descendants (n : node) : list node :=
  match n with
  | Element _ _ _ children => flat_map (fun c => c :: descendants c) children
  | Text _ => []
  end.

(** [tag.get_text()]: the text nodes below [n], concatenated. *)
Fixpoint get_text (n : node) : string :=
  match n with
  | Element _ _ _ children =>
      fold_right (fun c acc => get_text c +:+ acc) EmptyString children
  | Text s => s
  end.

(** [re.compile('k1|k2|...', re.I).search(s)] for literal lowercase
    alternatives. *)
Definition search_any (keywords : list string) (s : string) : bool :=
  existsb (fun kw => PyStr.contains kw (PyStr.lower s)) keywords.

(** [' '.join(tokens)] *)
Fixpoint join_space (tokens : list string) : string :=
  match tokens with
  | [] => EmptyString
  | [t] => t
  | t :: rest => t +:+ " " +:+ join_space rest
  end.

(** The [class_=regex] filter of [find_all]: some class token matches, or
    the whole attribute value does; an element without [class] never
    matches. *)
Definition class_matches (keywords : list string) (n : node) : bool :=
  match n with
  | Element _ (Some tokens) _ _ =>
      existsb (search_any keywords) tokens
      || search_any keywords (join_space tokens)
  | _ => false
  end.

Definition is_tag (names : list string) (n : node) : bool :=
  match n with
  | Element nm _ _ _ => existsb (String.eqb nm) names
  | Text _ => false
  end.

(** [tag.find_all(names)] *)
Definition find_all (names : list string) (n : node) : list node :=
  List.filter (is_tag names) (descendants n).

(** [tag.string]: the text of a tag whose only content is one string. *)
Fixpoint string_of (n : node) : option string :=
  match n with
  | Text s => Some s
  | Element _ _ _ [c] => string_of c
  | Element _ _ _ _ => None
  end.

(** [soup.find(tag_name, attrs={key: v})]: the first such element. *)
Definition find_attr (tag_name key v : string) (n : node) : option node :=
  head (List.filter
          (fun d => is_tag [tag_name] d &&
                    match d with
                    | Element _ _ attrs _ =>
                        match assoc key attrs with
                        | Some v' => String.eqb v' v
                        | None => false
                        end
                    | Text _ => false
                    end)
          (descendants n)).

(** [tag.find_all(names, class_=re.compile(pattern, re.I))] *)
Definition find_all_class (names keywords : list string) (n : node) : list node :=
  List.filter (fun d => is_tag names d && class_matches keywords d) (descendants n).

End Soup.

(** ** The component extractors *)

(** The fourteen [extract_*_components] methods of
    [AdvancedComponentAnalyzer].  A component is the Python [dict] the
    method builds, as an association list in insertion order; the markup
    [str(tag)] is kept as the matched subtree.  The methods' second
    parameter [url] is not used by any of them and is left out. *)

Module Components.

Inductive value :=
| VStr (s : string)
| VNum (n : nat)
| VList (l : list string)
| VMarkup (n : Soup.node).

Definition component := list (string * value).

(** [component[key]] *)
Fixpoint field (key : string) (c : component) : option value :=
  match c with
  | [] => None
  | (k, v) :: c' => if String.eqb k key then Some v else field key c'
  end.

(** [f'{prefix}_{i+1}'] *)
Definition seq_id (prefix : string) (i : nat) : string :=
  prefix +:+ "_" +:+ PyStr.str_of_nat (i + 1).

Definition headings : list string := ["h1"; "h2"; "h3"; "h4"; "h5"; "h6"].

Definition extract_header_components (soup : Soup.node) : list component :=
  let headers :=
    Soup.find_all_class ["header"; "div"] ["header"; "top-bar"; "navbar"] soup in
  imap (fun i header =>
    [("id", VStr (seq_id "header" i));
     ("html", VMarkup header);
     ("classes", VList (Soup.get_classes header));
     ("tag", VStr (Soup.name header));
     ("text_content", VStr (PyStr.take 200 (Soup.get_text header)))])
    (take 5 headers).

Definition extract_navigation_components (soup : Soup.node) : list component :=
  let navs :=
    Soup.find_all_class ["nav"; "ul"; "ol"] ["nav"; "menu"; "navigation"] soup in
  imap (fun i nav =>
    [("id", VStr (seq_id "navigation" i));
     ("html", VMarkup nav);
     ("classes", VList (Soup.get_classes nav));
     ("tag", VStr (Soup.name nav));
     ("links_count", VNum (length (Soup.find_all ["a"] nav)));
     ("text_content", VStr (PyStr.take 200 (Soup.get_text nav)))])
    (take 10 navs).

Definition extract_main_content_components (soup : Soup.node) : list component :=
  let main_elements :=
    Soup.find_all_class ["main"; "div"] ["main"; "content"; "body"] soup in
  imap (fun i main =>
    [("id", VStr (seq_id "main_content" i));
     ("html", VMarkup main);
     ("classes", VList (Soup.get_classes main));
     ("tag", VStr (Soup.name main));
     ("text_length", VNum (String.length (Soup.get_text main)));
     ("text_content", VStr (PyStr.take 500 (Soup.get_text main)))])
    (take 3 main_elements).

Definition extract_article_components (soup : Soup.node) : list component :=
  let articles :=
    Soup.find_all_class ["article"; "div"]
      ["article"; "post"; "blog"; "story"; "news"] soup in
  imap (fun i article =>
    [("id", VStr (seq_id "article" i));
     ("html", VMarkup article);
     ("classes", VList (Soup.get_classes article));
     ("tag", VStr (Soup.name article));
     ("headings", VNum (length (Soup.find_all headings article)));
     ("images", VNum (length (Soup.find_all ["img"] article)));
     ("text_content", VStr (PyStr.take 300 (Soup.get_text article)))])
    (take 10 articles).

Definition extract_card_components (soup : Soup.node) : list component :=
  let cards :=
    Soup.find_all_class ["div"; "section"]
      ["card"; "tile"; "item"; "box"; "panel"] soup in
  imap (fun i card =>
    [("id", VStr (seq_id "card" i));
     ("html", VMarkup card);
     ("classes", VList (Soup.get_classes card));
     ("tag", VStr (Soup.name card));
     ("links", VNum (length (Soup.find_all ["a"] card)));
     ("images", VNum (length (Soup.find_all ["img"] card)));
     ("text_content", VStr (PyStr.take 200 (Soup.get_text card)))])
    (take 15 cards).

Definition extract_form_components (soup : Soup.node) : list component :=
  let forms := Soup.find_all ["form"] soup in
  imap (fun i form =>
    [("id", VStr (seq_id "form" i));
     ("html", VMarkup form);
     ("classes", VList (Soup.get_classes form));
     ("action", VStr (Soup.get form "action" ""));
     ("method", VStr (Soup.get form "method" "get"));
     ("inputs", VNum (length (Soup.find_all ["input"; "textarea"; "select"] form)));
     ("text_content", VStr (PyStr.take 200 (Soup.get_text form)))])
    forms.

Definition extract_table_components (soup : Soup.node) : list component :=
  let tables := Soup.find_all ["table"] soup in
  imap (fun i table =>
    [("id", VStr (seq_id "table" i));
     ("html", VMarkup table);
     ("classes", VList (Soup.get_classes table));
     ("rows", VNum (length (Soup.find_all ["tr"] table)));
     ("headers", VNum (length (Soup.find_all ["th"] table)));
     ("cells", VNum (length (Soup.find_all ["td"; "th"] table)));
     ("text_content", VStr (PyStr.take 300 (Soup.get_text table)))])
    tables.

Definition extract_list_components (soup : Soup.node) : list component :=
  let lists := Soup.find_all ["ul"; "ol"; "dl"] soup in
  imap (fun i lst =>
    [("id", VStr (seq_id "list" i));
     ("html", VMarkup lst);
     ("classes", VList (Soup.get_classes lst));
     ("tag", VStr (Soup.name lst));
     ("items", VNum (if existsb (String.eqb (Soup.name lst)) ["ul"; "ol"]
                     then length (Soup.find_all ["li"] lst)
                     else length (Soup.find_all ["dt"] lst)));
     ("text_content", VStr (PyStr.take 200 (Soup.get_text lst)))])
    (take 10 lists).

Definition extract_media_components (soup : Soup.node) : list component :=
  let media_elements :=
    Soup.find_all ["img"; "video"; "audio"; "iframe"; "figure"] soup in
  imap (fun i media =>
    [("id", VStr (seq_id "media" i));
     ("html", VMarkup media);
     ("classes", VList (Soup.get_classes media));
     ("tag", VStr (Soup.name media));
     ("src", VStr (Soup.get media "src" ""));
     ("alt", VStr (Soup.get media "alt" ""));
     ("text_content", VStr (PyStr.take 100 (Soup.get_text media)))])
    (take 10 media_elements).

Definition extract_footer_components (soup : Soup.node) : list component :=
  let footers :=
    Soup.find_all_class ["footer"; "div"] ["footer"; "bottom"] soup in
  imap (fun i footer =>
    [("id", VStr (seq_id "footer" i));
     ("html", VMarkup footer);
     ("classes", VList (Soup.get_classes footer));
     ("tag", VStr (Soup.name footer));
     ("links", VNum (length (Soup.find_all ["a"] footer)));
     ("text_content", VStr (PyStr.take 300 (Soup.get_text footer)))])
    (take 3 footers).

Definition extract_sidebar_components (soup : Soup.node) : list component :=
  let sidebars :=
    Soup.find_all_class ["aside"; "div"] ["sidebar"; "aside"; "secondary"] soup in
  imap (fun i sidebar =>
    [("id", VStr (seq_id "sidebar" i));
     ("html", VMarkup sidebar);
     ("classes", VList (Soup.get_classes sidebar));
     ("tag", VStr (Soup.name sidebar));
     ("widgets", VNum (length (Soup.find_all_class ["div"; "section"]
                                 ["widget"; "module"] sidebar)));
     ("text_content", VStr (PyStr.take 200 (Soup.get_text sidebar)))])
    (take 5 sidebars).

Definition extract_modal_components (soup : Soup.node) : list component :=
  let modals :=
    Soup.find_all_class ["div"; "dialog"]
      ["modal"; "dialog"; "popup"; "overlay"] soup in
  imap (fun i modal =>
    [("id", VStr (seq_id "modal" i));
     ("html", VMarkup modal);
     ("classes", VList (Soup.get_classes modal));
     ("tag", VStr (Soup.name modal));
     ("buttons", VNum (length (Soup.find_all ["button"; "input"] modal)));
     ("text_content", VStr (PyStr.take 200 (Soup.get_text modal)))])
    (take 5 modals).

(** The whitespace [str.strip()] removes. *)
Definition is_space (c : ascii) : bool :=
  let n := nat_of_ascii c in
  ((9 <=? n) && (n <=? 13)) || ((28 <=? n) && (n <=? 32))
  || (n =? 133) || (n =? 160).

Definition extract_button_components (soup : Soup.node) : list component :=
  let buttons :=
    Soup.find_all_class ["button"; "input"; "a"] ["btn"; "button"] soup in
  imap (fun i button =>
    [("id", VStr (seq_id "button" i));
     ("html", VMarkup button);
     ("classes", VList (Soup.get_classes button));
     ("tag", VStr (Soup.name button));
     ("type", VStr (Soup.get button "type" ""));
     ("href", VStr (Soup.get button "href" ""));
     ("text_content",
        VStr (PyStr.take 50 (PyStr.strip is_space (Soup.get_text button))))])
    (take 20 buttons).

Definition extract_breadcrumb_components (soup : Soup.node) : list component :=
  let breadcrumbs :=
    Soup.find_all_class ["nav"; "ol"; "ul"; "div"] ["breadcrumb"; "crumb"] soup in
  imap (fun i breadcrumb =>
    [("id", VStr (seq_id "breadcrumb" i));
     ("html", VMarkup breadcrumb);
     ("classes", VList (Soup.get_classes breadcrumb));
     ("tag", VStr (Soup.name breadcrumb));
     ("items", VNum (length (Soup.find_all ["li"; "a"] breadcrumb)));
     ("text_content", VStr (PyStr.take 100 (Soup.get_text breadcrumb)))])
    (take 3 breadcrumbs).

(** [component_extractions]: the table of
    [extract_and_save_html_components], in its order. *)
Definition component_extractions : list (string * (Soup.node -> list component)) :=
  [("headers", extract_header_components);
   ("navigation", extract_navigation_components);
   ("main_content", extract_main_content_components);
   ("articles", extract_article_components);
   ("cards", extract_card_components);
   ("forms", extract_form_components);
   ("tables", extract_table_components);
   ("lists", extract_list_components);
   ("media", extract_media_components);
   ("footers", extract_footer_components);
   ("sidebars", extract_sidebar_components);
   ("modals", extract_modal_components);
   ("buttons", extract_button_components);
   ("breadcrumbs", extract_breadcrumb_components)].

End Components.

(** ** Files, HTTP and exceptions *)

(** The pipeline's effects: a directory tree keyed by path, the log of the
    HTTP requests made, and Python exceptions.  A file holds the value that
    was written to it: text, the value passed to [json.dump], or an HTML
    template with the data it was filled with. *)

Module Sys.

#[warnings="-register-all"] Inductive json :=
| JNull
| JBool (b : bool)
| JNum (n : nat)
| JStr (s : string)
| JList (l : list json)
| JDict (l : list (string * json)).

Definition path := list string.

(** [dir / name] of [pathlib] *)
Definition join (dir : path) (name : string) : path :=
  if String.eqb name "" || String.eqb name "." then dir else dir ++ [name].

Inductive content :=
| Text (s : string)
| Json (j : json)
| Rendered (template : string) (data : json).

Inductive entry := Dir | File (c : content).

Record response := mkResponse {
  status_code : nat;
  content_type : string;
  body : string
}.

Record world := mkWorld {
  files : gmap path entry;
  fetch_log : list string
}.

Inductive result (X : Type) :=
| Ok (x : X)
| Exn (msg : string).
Arguments Ok {X} x.
Arguments Exn {X} msg.

(** A computation that reads and changes the world and may raise. *)
Definition M (X : Type) : Type := world -> result X * world.

#[global] Instance M_ret : MRet M := fun X x w => (Ok x, w).

#[global] Instance M_bind : MBind M := fun X Y f m w =>
  match m w with
  | (Ok x, w') => f x w'
  | (Exn e, w') => (Exn e, w')
  end.

Definition raise {X : Type} (msg : string) : M X := fun w => (Exn msg, w).

(** [try: body except Exception as e: handler(e)] *)
Definition try_except {X : Type} (body : M X) (handler : string -> M X) : M X :=
  fun w =>
    match body w with
    | (Ok x, w') => (Ok x, w')
    | (Exn e, w') => handler e w'
    end.

(** [for x in l: body(x)] *)
Fixpoint for_each {A : Type} (l : list A) (body : A -> M unit) : M unit :=
  match l with
  | [] => mret tt
  | x :: l' => body x ;; for_each l' body
  end.

(** The working directory [[]] always exists. *)
Definition is_dir (fs : gmap path entry) (p : path) : bool :=
  match p with
  | [] => true
  | _ => match fs !! p with Some Dir => true | _ => false end
  end.

Definition parent (p : path) : path := removelast p.

(** [p.exists()] *)
Definition path_exists (p : path) : M bool := fun w =>
  (Ok (match p with
       | [] => true
       | _ => match files w !! p with Some _ => true | None => false end
       end), w).

(** [p.mkdir(exist_ok=True)] *)
Definition mkdir_exist_ok (p : path) : M unit := fun w =>
  if is_dir (files w) p then (Ok tt, w)
  else match files w !! p with
       | Some _ => (Exn "FileExistsError", w)
       | None =>
           if is_dir (files w) (parent p)
           then (Ok tt, mkWorld (<[p := Dir]> (files w)) (fetch_log w))
           else (Exn "FileNotFoundError", w)
       end.

(** [with open(p, 'w') as f: f.write(c)] *)
Definition write_file (p : path) (c : content) : M unit := fun w =>
  if is_dir (files w) p then (Exn "IsADirectoryError", w)
  else if is_dir (files w) (parent p)
  then (Ok tt, mkWorld (<[p := File c]> (files w)) (fetch_log w))
  else (Exn "FileNotFoundError", w).

(** The entries directly below [dir]: [dir.iterdir()]. *)
Fixpoint child_name (dir p : path) : option string :=
  match dir, p with
  | [], [name] => Some name
  | d :: dir', c :: p' => if String.eqb d c then child_name dir' p' else None
  | _, _ => None
  end.

Definition iterdir (dir : path) : M (list (string * entry)) := fun w =>
  if is_dir (files w) dir
  then (Ok (omap (fun '(p, e) => (fun name => (name, e)) <$> child_name dir p)
              (map_to_list (files w))), w)
  else (Exn "NotADirectoryError", w).

(** A tree in which every entry lies in a directory. *)
Definition well_formed (fs : gmap path entry) : Prop :=
  forall (p : path) (name : string) (e : entry),
    fs !! (p ++ [name]) = Some e -> is_dir fs p = true.

End Sys.

(** ** [HTMLExtractor]: the per-URL extraction *)

(** The network, the HTML parser and serialiser and the clock are the
    section's variables: [http_get] is [session.get] followed by
    [raise_for_status] ([None] when either raises), [parse_html] is
    [BeautifulSoup(content, 'html.parser')], [to_markup] is [str(tag)],
    [prettify] is [soup.prettify()], [now] is the formatted time. *)

Module HTMLExtractor.
Import Sys.

Section Extractor.
Variable urlparse : string -> option UrlParse.ParseResult.
Variable http_get : string -> option response.
Variable parse_html : string -> Soup.node.
Variable to_markup : Soup.node -> string.
Variable prettify : Soup.node -> string.
Variable now : string.
Variable output_dir : path.

(** [self.session.get(url, timeout=15)] and [response.raise_for_status()] *)
Definition session_get (url : string) : M response := fun w =>
  let w' := mkWorld (files w) (fetch_log w ++ [url]) in
  match http_get url with
  | Some r => (Ok r, w')
  | None => (Exn "RequestException", w')
  end.

Definition create_page_identifier (url : string) : M string :=
  match PageId.create_page_identifier urlparse url with
  | Some identifier => mret identifier
  | None => raise "ValueError"
  end.

(** The values of the [components] dictionary. *)
Inductive component_value :=
| CList (l : list string)
| CStr (s : string)
| CMeta (j : json).

Definition metadata (soup : Soup.node) : json :=
  let meta_content (key : string) :=
    match Soup.find_attr "meta" "name" key soup with
    | Some m => Soup.get m "content" ""
    | None => EmptyString
    end in
  JDict
    [("title",
        match head (Soup.find_all ["title"] soup) with
        | Some t =>
            match Soup.string_of t with Some s => JStr s | None => JNull end
        | None => JStr ""
        end);
     ("meta_description", JStr (meta_content "description"));
     ("meta_keywords", JStr (meta_content "keywords"));
     ("h1_tags",
        JList ((fun h => JStr (PyStr.strip Components.is_space (Soup.get_text h)))
                 <$> Soup.find_all ["h1"] soup));
     ("h2_tags",
        JList ((fun h => JStr (PyStr.strip Components.is_space (Soup.get_text h)))
                 <$> take 5 (Soup.find_all ["h2"] soup)));
     ("images",
        JList ((fun img => JStr (Soup.get img "src" ""))
                 <$> take 10 (Soup.find_all ["img"] soup)));
     ("links_count", JNum (length (Soup.find_all ["a"] soup)))].

(** The groups [extract_components] collects, in the order it adds them. *)
Definition collect_components (soup : Soup.node)
  : list (string * component_value) :=
  let group (key : string) (elements : list Soup.node) :=
    match elements with
    | [] => []
    | _ => [(key, CList (to_markup <$> elements))]
    end in
  let single (key : string) (element : option Soup.node) :=
    match element with
    | Some e => [(key, CStr (to_markup e))]
    | None => []
    end in
  let nav_elements :=
    Soup.find_all_class ["nav"; "div"] ["nav"; "menu"; "header"] soup in
  let main_content :=
    head (Soup.find_all_class ["main"; "div"] ["main"; "content"; "body"] soup) in
  let articles :=
    Soup.find_all_class ["article"; "div"]
      ["article"; "post"; "blog"; "story"] soup in
  let cards :=
    Soup.find_all_class ["div"; "section"] ["card"; "tile"; "item"; "box"] soup in
  let forms := Soup.find_all ["form"] soup in
  let tables := Soup.find_all ["table"] soup in
  let lists := Soup.find_all_class ["ul"; "ol"] ["list"; "menu"] soup in
  let footer := head (Soup.find_all_class ["footer"; "div"] ["footer"] soup) in
  match nav_elements with
  | [] => []
  | _ => [("navigation", CList (to_markup <$> take 3 nav_elements))]
  end
  ++ single "main_content" main_content
  ++ match articles with
     | [] => []
     | _ => [("articles", CList (to_markup <$> take 5 articles))]
     end
  ++ match cards with
     | [] => []
     | _ => [("cards", CList (to_markup <$> take 10 cards))]
     end
  ++ group "forms" forms
  ++ group "tables" tables
  ++ match lists with
     | [] => []
     | _ => [("lists", CList (to_markup <$> take 5 lists))]
     end
  ++ single "footer" footer
  ++ [("metadata", CMeta (metadata soup))].

(** [not content] *)
Definition is_falsy (v : component_value) : bool :=
  match v with
  | CList [] => true
  | CStr EmptyString => true
  | CMeta (JDict []) => true
  | _ => false
  end.

Definition save_components (components : list (string * component_value))
    (page_dir : path) : M unit :=
  try_except
    (for_each components (fun '(component_type, value) =>
       if is_falsy value then mret tt
       else
         let component_file := join page_dir (component_type +:+ ".json") in
         match value with
         | CMeta j => write_file component_file (Json j)
         | CList l =>
             write_file component_file
               (Json (JDict [("type", JStr component_type);
                             ("count", JNum (length l));
                             ("content", JList (JStr <$> l))]))
         | CStr s =>
             write_file component_file
               (Json (JDict [("type", JStr component_type);
                             ("count", JNum 1);
                             ("content", JStr s)]))
         end))
    (fun _ => mret tt).

Definition extract_components (soup : Soup.node) (page_dir : path) : M unit :=
  try_except
    (save_components (collect_components soup) page_dir)
    (fun _ => mret tt).

Definition extract_single_url (url : string) : M bool :=
  try_except
    (page_id ← create_page_identifier url;
     let page_dir := join output_dir page_id in
     mkdir_exist_ok page_dir ;;
     let html_file := join page_dir "page.html" in
     already ← path_exists html_file;
     if already : bool then mret true
     else
       response ← session_get url;
       let soup := parse_html (body response) in
       write_file html_file (Text (prettify soup)) ;;
       write_file (join page_dir "url_info.json")
         (Json (JDict [("original_url", JStr url);
                       ("page_identifier", JStr page_id);
                       ("status_code", JNum (status_code response));
                       ("content_type", JStr (content_type response));
                       ("content_length", JNum (String.length (body response)));
                       ("extraction_timestamp", JStr now)])) ;;
       extract_components soup page_dir ;;
       mret true)
    (fun _ => mret false).

(** [url.startswith(('http://', 'https://'))] *)
Definition is_http (url : string) : bool :=
  PyStr.startswith url "http://" || PyStr.startswith url "https://".

(** The URLs of the list, one call each, in list order; the counts of
    successes and failures. *)
Fixpoint extract_urls (urls : list string) (success failed : nat)
  : M (nat * nat) :=
  match urls with
  | [] => mret (success, failed)
  | url :: urls' =>
      ok ← extract_single_url url;
      if ok : bool then extract_urls urls' (S success) failed
      else extract_urls urls' success (S failed)
  end.

(** [extract_all] on the [unique_urls] of the input file. *)
Definition extract_all (unique_urls : list string) : M unit :=
  let urls := List.filter is_http unique_urls in
  match urls with
  | [] => mret tt
  | _ =>
      '(success_count, failed_count) ← extract_urls urls 0 0;
      write_file (join output_dir "extraction_summary.json")
        (Json (JDict [("total_urls", JNum (length urls));
                      ("successful_extractions", JNum success_count);
                      ("failed_extractions", JNum failed_count);
                      ("output_directory", JList (JStr <$> output_dir));
                      ("extraction_timestamp", JStr now)]))
  end.

End Extractor.

End HTMLExtractor.

(** ** [AdvancedComponentAnalyzer]: extraction and analysis of one URL *)

(** Besides the variables of [HTMLExtractor], the eight analysis strategies:
    each is a function of the parsed page and the URL that returns a
    dictionary or raises.  The call site is the same for every strategy, so
    the strategies are the section's variables. *)

Module AdvancedComponentAnalyzer.
Import Sys.

Inductive outcome :=
| Returned (analysis : json)
| Raised (msg : string).

Definition strategy := Soup.node -> string -> outcome.

Record strategies := mkStrategies {
  semantic_analysis : strategy;
  structural_analysis : strategy;
  content_type_analysis : strategy;
  interactive_elements_analysis : strategy;
  layout_analysis : strategy;
  seo_analysis : strategy;
  accessibility_analysis : strategy;
  performance_analysis : strategy
}.

(** [self.analysis_strategies] *)
Definition analysis_strategies (s : strategies) : list (string * strategy) :=
  [("semantic", semantic_analysis s);
   ("structural", structural_analysis s);
   ("content_type", content_type_analysis s);
   ("interactive", interactive_elements_analysis s);
   ("layout", layout_analysis s);
   ("seo", seo_analysis s);
   ("accessibility", accessibility_analysis s);
   ("performance", performance_analysis s)].

(** [{'error': str(e)}] *)
Definition error_marker (msg : string) : json := JDict [("error", JStr msg)].

Section Analyzer.
Variable urlparse : string -> option UrlParse.ParseResult.
Variable http_get : string -> option response.
Variable parse_html : string -> Soup.node.
Variable to_markup : Soup.node -> string.
Variable prettify : Soup.node -> string.
Variable now : string.
Variable output_dir : path.
Variable the_strategies : strategies.

Definition session_get (url : string) : M response := fun w =>
  let w' := mkWorld (files w) (fetch_log w ++ [url]) in
  match http_get url with
  | Some r => (Ok r, w')
  | None => (Exn "RequestException", w')
  end.

Definition create_page_identifier (url : string) : M string :=
  match PageId.create_page_identifier urlparse url with
  | Some identifier => mret identifier
  | None => raise "ValueError"
  end.

Definition json_of_value (v : Components.value) : json :=
  match v with
  | Components.VStr s => JStr s
  | Components.VNum n => JNum n
  | Components.VList l => JList (JStr <$> l)
  | Components.VMarkup n => JStr (to_markup n)
  end.

Definition json_of_component (c : Components.component) : json :=
  JDict ((fun '(k, v) => (k, json_of_value v)) <$> c).

(** [component['id']] *)
Definition component_id (c : Components.component) : string :=
  match Components.field "id" c with
  | Some (Components.VStr s) => s
  | _ => EmptyString
  end.

(** [component.get(key, default)] as JSON *)
Definition component_get (c : Components.component) (key : string)
    (default : json) : json :=
  match Components.field key c with
  | Some v => json_of_value v
  | None => default
  end.

Definition save_component_html (components : list Components.component)
    (component_type : string) (components_dir : path) : M unit :=
  match components with
  | [] => mret tt
  | _ =>
      let type_dir := join components_dir component_type in
      mkdir_exist_ok type_dir ;;
      for_each components (fun component =>
        write_file (join type_dir (component_id component +:+ ".html"))
          (Rendered "component"
             (JDict [("component_type", JStr component_type);
                     ("component", json_of_component component)]))) ;;
      write_file (join type_dir "component_summary.json")
        (Json (JDict
           [("component_type", JStr component_type);
            ("total_components", JNum (length components));
            ("components",
               JList ((fun comp =>
                   JDict [("id", JStr (component_id comp));
                          ("tag", component_get comp "tag" (JStr ""));
                          ("classes", component_get comp "classes" (JList []));
                          ("text_preview",
                             match Components.field "text_content" comp with
                             | Some (Components.VStr s) => JStr (PyStr.take 100 s)
                             | _ => JStr ""
                             end)])
                 <$> components))]))
  end.

Definition create_component_index (components_dir page_dir : path) : M unit :=
  entries ← iterdir components_dir;
  types ← (fix scan (l : list (string * entry)) : M (list (string * list string)) :=
             match l with
             | [] => mret []
             | (component_type, Dir) :: l' =>
                 below ← iterdir (join components_dir component_type);
                 let html_files :=
                   List.filter (fun name => PyStr.endswith name ".html")
                     (fst <$> below) in
                 rest ← scan l';
                 mret ((component_type, html_files) :: rest)
             | (_, File _) :: l' => scan l'
             end) entries;
  let component_index :=
    JDict [("extraction_timestamp", JStr now);
           ("component_types",
              JDict ((fun '(t, fs) =>
                        (t, JDict [("count", JNum (length fs));
                                   ("files", JList (JStr <$> fs))]))
                     <$> types));
           ("total_components",
              JNum (foldr (fun '(_, fs) acc => length fs + acc) 0 types))] in
  write_file (join page_dir "component_index.json") (Json component_index) ;;
  write_file (join page_dir "component_index.html")
    (Rendered "component_index" component_index).

Definition extract_and_save_html_components (soup : Soup.node)
    (page_dir : path) : M unit :=
  try_except
    (let components_dir := join page_dir "components" in
     mkdir_exist_ok components_dir ;;
     for_each Components.component_extractions
       (fun '(component_type, extraction_func) =>
          try_except
            (save_component_html (extraction_func soup) component_type
               components_dir)
            (fun _ => mret tt)) ;;
     create_component_index components_dir page_dir)
    (fun _ => mret tt).

(** The loop over [self.analysis_strategies]: the entries of
    [comprehensive_analysis['strategies']], in the table's order. *)
Fixpoint run_strategies (table : list (string * strategy))
    (soup : Soup.node) (url : string) (page_dir : path)
  : M (list (string * json)) :=
  match table with
  | [] => mret []
  | (strategy_name, strategy_func) :: table' =>
      entry ← try_except
                (match strategy_func soup url with
                 | Returned analysis_result =>
                     write_file
                       (join page_dir (strategy_name +:+ "_analysis.json"))
                       (Json analysis_result) ;;
                     mret analysis_result
                 | Raised msg => raise msg
                 end)
                (fun msg => mret (error_marker msg));
      rest ← run_strategies table' soup url page_dir;
      mret ((strategy_name, entry) :: rest)
  end.

Definition extract_and_analyze_single_url (url : string) (is_dynamic : bool)
  : M bool :=
  try_except
    (page_id ← create_page_identifier url;
     let page_dir := join output_dir page_id in
     mkdir_exist_ok page_dir ;;
     let analysis_file := join page_dir "comprehensive_analysis.json" in
     already ← path_exists analysis_file;
     if already : bool then mret true
     else
       response ← session_get url;
       let soup := parse_html (body response) in
       write_file (join page_dir "page.html") (Text (prettify soup)) ;;
       extract_and_save_html_components soup page_dir ;;
       write_file (join page_dir "url_info.json")
         (Json (JDict [("original_url", JStr url);
                       ("page_identifier", JStr page_id);
                       ("is_dynamic", JBool is_dynamic);
                       ("status_code", JNum (status_code response));
                       ("content_type", JStr (content_type response));
                       ("content_length", JNum (String.length (body response)));
                       ("extraction_timestamp", JStr now)])) ;;
       entries ← run_strategies (analysis_strategies the_strategies)
                   soup url page_dir;
       write_file analysis_file
         (Json (JDict [("url", JStr url);
                       ("page_id", JStr page_id);
                       ("is_dynamic", JBool is_dynamic);
                       ("analysis_timestamp", JStr now);
                       ("strategies", JDict entries)])) ;;
       mret true)
    (fun _ => mret false).

(** The URLs of the list, one call each, in list order. *)
Fixpoint analyze_urls (urls dynamic_urls : list string) (success failed : nat)
  : M (nat * nat) :=
  match urls with
  | [] => mret (success, failed)
  | url :: urls' =>
      ok ← extract_and_analyze_single_url url
             (bool_decide (url ∈ dynamic_urls));
      if ok : bool then analyze_urls urls' dynamic_urls (S success) failed
      else analyze_urls urls' dynamic_urls success (S failed)
  end.

End Analyzer.

End AdvancedComponentAnalyzer.

(** ** Dynamic discovery *)

(** [discover_dynamic_content] of [DynamicWebCrawler] and the three
    handlers it calls.  The rendered session is a state [driver] with the
    operations the code uses; an operation that may raise returns a flag
    and the state it leaves ([false]: it raised).  The two JavaScript
    snippets that select the candidates are modelled on the elements the
    session reports.  [initial_links] is one set object shared by the
    caller and the two click handlers; [attributed] records, for every
    interaction that was carried out, the links seen after it and the value
    of [new_links]. *)

Module Discovery.

Record web_element := mkElement {
  text_content : string;   (* element.textContent.trim() *)
  text : string;           (* element.text *)
  href : string;           (* the href, or the empty string *)
  onclick : string;        (* the click handler, or the empty string *)
  data_page : string;      (* the data-page attribute, or the empty string *)
  class_name : string;
  parent_class : option string;
  grandparent_class : option string;
  visible : bool           (* offsetParent !== null *)
}.

(** [/^[2-9]$|^[1-9][0-9]$/.test(text)], with [parseInt(text)] *)
Definition page_number (t : string) : option nat :=
  let digit (c : ascii) := nat_of_ascii c - 48 in
  match t with
  | String c EmptyString =>
      if (50 <=? nat_of_ascii c) && (nat_of_ascii c <=? 57)
      then Some (digit c) else None
  | String c (String d EmptyString) =>
      if (49 <=? nat_of_ascii c) && (nat_of_ascii c <=? 57) && PyStr.is_digit d
      then Some (10 * digit c + digit d) else None
  | _ => None
  end.

Definition paging_class (c : option string) : bool :=
  match c with
  | Some cls =>
      PyStr.contains "page" (PyStr.lower cls)
      || PyStr.contains "pagination" (PyStr.lower cls)
  | None => false
  end.

Definition is_pagination (e : web_element) : bool :=
  negb (String.eqb (href e) "") || negb (String.eqb (onclick e) "")
  || negb (String.eqb (data_page e) "")
  || paging_class (parent_class e) || paging_class (grandparent_class e).

(** [paginationLinks.sort(...)]: a stable sort by page number. *)
Fixpoint insert_by_number (x : nat * web_element)
    (l : list (nat * web_element)) : list (nat * web_element) :=
  match l with
  | [] => [x]
  | y :: l' => if fst y <=? fst x then y :: insert_by_number x l' else x :: l
  end.

Definition sort_by_number (l : list (nat * web_element))
  : list (nat * web_element) :=
  fold_left (fun sorted x => insert_by_number x sorted) l [].

(** The numbered-pagination script: the texts of the first ten candidates. *)
Definition pagination_script (elements : list web_element) : list string :=
  let candidates :=
    omap (fun e =>
            match page_number (text_content e) with
            | Some n => if is_pagination e && visible e then Some (n, e) else None
            | None => None
            end) elements in
  (fun x => text_content (snd x)) <$> take 10 (sort_by_number candidates).

(** The script of the generic phase: the first five visible buttons and
    links whose text or class suggests paging. *)
Definition interactive_script (buttons : list web_element) : list web_element :=
  let suggests (e : web_element) :=
    let t := PyStr.lower (text_content e) in
    let c := PyStr.lower (class_name e) in
    PyStr.contains "next" t || PyStr.contains "more" t || PyStr.contains "load" t
    || PyStr.contains "previous" t || PyStr.contains "prev" t
    || PyStr.contains "next" c || PyStr.contains "more" c
    || PyStr.contains "load" c || PyStr.contains "prev" c
    || PyStr.contains "pagination" c || PyStr.contains "pager" c in
  take 5 (List.filter (fun e => suggests e && visible e) buttons).

Definition interactive_selectors : list string :=
  ["button:contains('Next'), a:contains('Next')";
   "button:contains('Previous'), a:contains('Previous')";
   "button[class*='next'], a[class*='next']";
   "button[class*='prev'], a[class*='prev']";
   "button:contains('Load More'), a:contains('Load More')";
   "button:contains('Show More'), a:contains('Show More')";
   "button[class*='load'], a[class*='load']";
   "button[class*='more'], a[class*='more']";
   ".load-more, .show-more";
   "button[onclick], a[onclick]";
   "button[data-toggle], a[data-toggle]"].

Definition max_interactions : nat := 10.

Section WithDriver.
Variable driver : Type.
(** [self.extract_links_from_driver(driver, url)] *)
Variable extract_links_from_driver : driver -> list string.
(** [querySelectorAll('a, button, span[onclick], div[onclick]')] and
    [querySelectorAll('button, a')]; [None] when the script raises *)
Variable query_clickables : driver -> option (list web_element).
Variable query_buttons : driver -> option (list web_element).
(** [driver.execute_script("arguments[0].click();", e)] and [e.click()] *)
Variable script_click : web_element -> driver -> bool * driver.
Variable native_click : web_element -> driver -> bool * driver.
(** [driver.back()] and [window.scrollTo(0, document.body.scrollHeight)] *)
Variable back : driver -> bool * driver.
Variable scroll_to_bottom : driver -> bool * driver.
Variable domain : string.

Record state := mkState {
  drv : driver;
  initial_links : gset string;
  dynamic_urls_found : gset string;
  attributed : list (gset string * gset string)
}.

(** [current_links = set(...)], [new_links = current_links - initial_links],
    and, when [new_links] is not empty, [links.extend(list(new_links))] and
    [initial_links.update(new_links)]. *)
Definition attribute (record_found : bool) (links : list string) (st : state)
  : gset string * list string * state :=
  let current_links : gset string := list_to_set (extract_links_from_driver (drv st)) in
  let new_links := current_links ∖ initial_links st in
  let log := attributed st ++ [(current_links, new_links)] in
  if decide (new_links = ∅)
  then (new_links, links,
        mkState (drv st) (initial_links st) (dynamic_urls_found st) log)
  else (new_links, links ++ elements new_links,
        mkState (drv st) (initial_links st ∪ new_links)
          (if record_found then dynamic_urls_found st ∪ new_links
           else dynamic_urls_found st)
          log).

Definition with_driver (st : state) (d : driver) : state :=
  mkState d (initial_links st) (dynamic_urls_found st) (attributed st).

(** One iteration of [for page_info in pagination_data]. *)
Definition click_page (acc : list string * state) (page_text : string)
  : list string * state :=
  let '(pagination_links, st) := acc in
  match query_clickables (drv st) with
  | None => acc
  | Some elements =>
      match List.find (fun el => String.eqb (text_content el) page_text
                                 && visible el) elements with
      | None => acc
      | Some element =>
          let '(clicked, d1) := script_click element (drv st) in
          let '(clicked, d1) :=
            if clicked : bool then (true, d1) else native_click element d1 in
          if clicked : bool then
            let '(_, pagination_links, st) :=
              attribute true pagination_links (with_driver st d1) in
            let '(_, d2) := back (drv st) in
            (pagination_links, with_driver st d2)
          else (pagination_links, with_driver st d1)
      end
  end.

Definition handle_numbered_pagination (st : state) : list string * state :=
  match query_clickables (drv st) with
  | None => ([], st)
  | Some elements => fold_left click_page (pagination_script elements) ([], st)
  end.

(** [for click_num in range(3)] *)
Fixpoint repeat_clicks (n : nat) (element : web_element)
    (acc : list string * nat * state) : list string * nat * state :=
  match n with
  | 0 => acc
  | S n' =>
      let '(dynamic_links, interaction_count, st) := acc in
      if max_interactions <=? interaction_count then acc
      else
        let '(clicked, d1) := script_click element (drv st) in
        if clicked : bool then
          let '(new_links, dynamic_links, st) :=
            attribute false dynamic_links (with_driver st d1) in
          if decide (new_links = ∅)
          then (dynamic_links, S interaction_count, st)
          else repeat_clicks n' element (dynamic_links, S interaction_count, st)
        else (dynamic_links, interaction_count, with_driver st d1)
  end.

Definition looks_like_pagination (element_text : string) : bool :=
  existsb (fun keyword => PyStr.contains keyword (PyStr.lower element_text))
    ["next"; "more"; "load"].

(** [href and not href.startswith('#') and not
    href.startswith('javascript:') and self.domain not in href] *)
Definition is_external (h : string) : bool :=
  negb (String.eqb h "") && negb (PyStr.startswith h "#")
  && negb (PyStr.startswith h "javascript:") && negb (PyStr.contains domain h).

(** One iteration of [for element in elements]. *)
Definition click_element (acc : list string * nat * state)
    (element : web_element) : list string * nat * state :=
  let '(dynamic_links, interaction_count, st) := acc in
  if max_interactions <=? interaction_count then acc
  else
    let element_text := PyStr.take 50 (PyStr.strip Components.is_space (text element)) in
    if is_external (href element) then acc
    else
      let '(clicked, d1) := native_click element (drv st) in
      let '(clicked, d1) :=
        if clicked : bool then (true, d1) else script_click element d1 in
      if clicked : bool then
        let '(new_links, dynamic_links, st) :=
          attribute false dynamic_links (with_driver st d1) in
        if decide (new_links = ∅)
        then (dynamic_links, S interaction_count, st)
        else if looks_like_pagination element_text
        then repeat_clicks 3 element (dynamic_links, S interaction_count, st)
        else (dynamic_links, S interaction_count, st)
      else (dynamic_links, interaction_count, with_driver st d1).

(** One iteration of [for selector in interactive_selectors]. *)
Definition try_selector (acc : list string * nat * state) (selector : string)
  : list string * nat * state :=
  let '(_, interaction_count, st) := acc in
  if max_interactions <=? interaction_count then acc
  else match query_buttons (drv st) with
       | None => acc
       | Some buttons => fold_left click_element (interactive_script buttons) acc
       end.

(** [for scroll_attempt in range(5)], on a baseline of its own. *)
Fixpoint scroll_loop (n : nat) (d : driver) (baseline : gset string)
    (scroll_links : list string) : list string * driver :=
  match n with
  | 0 => (scroll_links, d)
  | S n' =>
      let '(scrolled, d1) := scroll_to_bottom d in
      if scrolled : bool then
        let current_links : gset string :=
          list_to_set (extract_links_from_driver d1) in
        let new_links := current_links ∖ baseline in
        if decide (new_links = ∅) then (scroll_links, d1)
        else scroll_loop n' d1 (baseline ∪ new_links)
               (scroll_links ++ elements new_links)
      else (scroll_links, d1)
  end.

Definition handle_infinite_scroll (d : driver) : list string * driver :=
  scroll_loop 5 d (list_to_set (extract_links_from_driver d)) [].

Definition handle_other_interactions (st : state) : list string * state :=
  let '(dynamic_links, _, st) :=
    fold_left try_selector interactive_selectors ([], 0, st) in
  let '(scroll_links, d) := handle_infinite_scroll (drv st) in
  (elements (list_to_set (C := gset string) (dynamic_links ++ scroll_links)),
   with_driver st d).

Definition discover_dynamic_content (d : driver) (found : gset string)
  : list string * state :=
  let st := mkState d (list_to_set (extract_links_from_driver d)) found [] in
  let '(numbered_pagination_links, st) := handle_numbered_pagination st in
  let '(other_dynamic_links, st) := handle_other_interactions st in
  (elements (list_to_set (C := gset string)
               (numbered_pagination_links ++ other_dynamic_links)), st).

End WithDriver.

End Discovery.

(** ** The crawl loop *)

(** [crawl] and [crawl_single_url] of [DynamicWebCrawler].  The two page
    fetchers are the section's variables: each returns a page record and the
    links found, or [None] for the pair [(None, [])] it returns on failure.
    The thread pool is modelled by one of its schedules: the tasks of a
    batch run one after the other in submission order, and their results
    are consumed in that order once the batch is done.  [dispatched] lists
    the URLs submitted to the pool and [fetched] the URLs handed to a
    fetcher; neither is read by the code. *)

Module Crawl.

Record page_data := mkPage {
  url : string;
  title : string;
  depth : nat;
  method : string;
  links_found : nat;
  links : list string
}.

Record config := mkConfig {
  max_depth : nat;
  max_pages : nat;
  exhaustive : bool;
  dynamic_discovery : bool
}.

Record crawler := mkCrawler {
  visited_urls : gset string;
  crawled_data : list page_data;
  url_queue : list (string * nat);
  all_discovered_links : gset string;
  dispatched : list string;
  fetched : list string
}.

(** The state [__init__] sets up. *)
Definition initial (base_url : string) : crawler :=
  mkCrawler ∅ [] [(base_url, 0)] ∅ [] [].

Definition detect_needs_selenium (u : string) : bool :=
  existsb (fun indicator => PyStr.contains indicator (PyStr.lower u))
    ["/search"; "/category"; "/products"; "/articles"; "/news"; "/blog"].

Section WithFetchers.
Variable cfg : config.
Variable crawl_with_requests : string -> nat -> option (page_data * list string).
Variable crawl_with_selenium : string -> nat -> option (page_data * list string).

(** The page and links [crawl_single_url] ends up with: the fast fetch, or
    the rendered one when the fast one failed or the URL looks dynamic. *)
Definition fetch_page (u : string) (d : nat) : option (page_data * list string) :=
  let fast := crawl_with_requests u d in
  if negb (bool_decide (is_Some fast))
     || (dynamic_discovery cfg && detect_needs_selenium u)
  then crawl_with_selenium u d
  else fast.

Definition crawl_single_url (task : string * nat) (st : crawler)
  : list string * crawler :=
  let '(u, d) := task in
  if max_pages cfg <=? length (crawled_data st) then ([], st)
  else
    let st := mkCrawler (visited_urls st) (crawled_data st) (url_queue st)
                (all_discovered_links st) (dispatched st) (fetched st ++ [u]) in
    match fetch_page u d with
    | Some (page, new_links) =>
        let crawled :=
          if length (crawled_data st) <? max_pages cfg
          then crawled_data st ++ [page] else crawled_data st in
        let st := mkCrawler (visited_urls st) crawled (url_queue st)
                    (all_discovered_links st ∪ list_to_set new_links)
                    (dispatched st) (fetched st) in
        (if exhaustive cfg || (d <? max_depth cfg) then new_links else [], st)
    | None => ([], st)
    end.

(** [for _ in range(batch_size)]: pop the head of the queue, and keep it
    for the batch when it is not yet visited. *)
Fixpoint draw_batch (n : nat) (st : crawler) (current_batch : list (string * nat))
  : list (string * nat) * crawler :=
  match n with
  | 0 => (current_batch, st)
  | S n' =>
      match url_queue st with
      | [] => draw_batch n' st current_batch
      | (u, d) :: rest =>
          if decide (u ∈ visited_urls st)
          then draw_batch n'
                 (mkCrawler (visited_urls st) (crawled_data st) rest
                    (all_discovered_links st) (dispatched st) (fetched st))
                 current_batch
          else draw_batch n'
                 (mkCrawler ({[u]} ∪ visited_urls st) (crawled_data st) rest
                    (all_discovered_links st) (dispatched st) (fetched st))
                 (current_batch ++ [(u, d)])
      end
  end.

(** The tasks of a batch, in submission order. *)
Fixpoint run_batch (batch : list (string * nat)) (st : crawler)
  : list (nat * list string) * crawler :=
  match batch with
  | [] => ([], st)
  | (u, d) :: batch' =>
      let '(new_links, st) := crawl_single_url (u, d) st in
      let '(results, st) := run_batch batch' st in
      ((d, new_links) :: results, st)
  end.

(** The body of [for link in new_links]. *)
Definition enqueue_link (d : nat) (st : crawler) (link : string) : crawler :=
  if bool_decide (link ∉ visited_urls st)
     && bool_decide (link ∉ (url_queue st).*1)
     && (length (crawled_data st) <? max_pages cfg)
  then
    if exhaustive cfg || (d + 1 <=? max_depth cfg)
    then mkCrawler (visited_urls st) (crawled_data st)
           (url_queue st ++ [(link, d + 1)])
           (all_discovered_links st) (dispatched st) (fetched st)
    else st
  else st.

Definition enqueue_results (results : list (nat * list string)) (st : crawler)
  : crawler :=
  fold_left (fun st '(d, new_links) => fold_left (enqueue_link d) new_links st)
    results st.

(** [while self.url_queue and len(self.crawled_data) < self.max_pages] *)
Definition continues (st : crawler) : bool :=
  negb (bool_decide (url_queue st = []))
  && (length (crawled_data st) <? max_pages cfg).

(** One pass through the loop body; the flag is [false] when the pass
    ended in [break]. *)
Definition crawl_step (st : crawler) : bool * crawler :=
  let '(current_batch, st) :=
    draw_batch (Nat.min 3 (length (url_queue st))) st [] in
  match current_batch with
  | [] => (false, st)
  | _ =>
      let st := mkCrawler (visited_urls st) (crawled_data st) (url_queue st)
                  (all_discovered_links st)
                  (dispatched st ++ current_batch.*1) (fetched st) in
      let '(results, st) := run_batch current_batch st in
      (true, enqueue_results results st)
  end.

(** The loop, cut off after [fuel] passes; [None]: the fuel ran out. *)
Fixpoint crawl_loop (fuel : nat) (st : crawler) : option crawler :=
  match fuel with
  | 0 => None
  | S fuel' =>
      if continues st then
        let '(again, st') := crawl_step st in
        if again : bool then crawl_loop fuel' st' else Some st'
      else Some st
  end.

Definition crawl (fuel : nat) (base_url : string) : option crawler :=
  crawl_loop fuel (initial base_url).

End WithFetchers.

End Crawl.

(** ** The classifiers of the two smaller crawlers *)

(** [is_valid_url] of [FastWebCrawler] and of [WebCrawler]. *)

Module FastWebCrawler.

Definition skip_extensions : list string :=
  [".pdf"; ".jpg"; ".png"; ".gif"; ".zip"].

Definition is_valid_url (urlparse : string -> option UrlParse.ParseResult)
    (domain url : string) : bool :=
  match urlparse url with
  | None => false
  | Some parsed =>
      (String.eqb (UrlParse.netloc parsed) domain
       || String.eqb (UrlParse.netloc parsed) "")
      && negb (existsb (fun ext => PyStr.contains ext (PyStr.lower url))
                 skip_extensions)
  end.

End FastWebCrawler.

Module WebCrawler.

Definition is_valid_url (urlparse : string -> option UrlParse.ParseResult)
    (domain url : string) : bool :=
  match urlparse url with
  | None => false
  | Some parsed =>
      String.eqb (UrlParse.netloc parsed) domain
      || String.eqb (UrlParse.netloc parsed) ""
  end.

End WebCrawler.

(** ** The two page fetchers *)

(** [crawl_with_requests], [extract_links_from_driver] and
    [crawl_with_selenium] of [DynamicWebCrawler], with [detect_pagination]
    and [detect_dynamic_content].  [urljoin] is the standard library's
    ([None] when it raises), [http_get] is [session.get] followed by
    [raise_for_status], giving the response body, [open_page] is
    [create_selenium_driver] followed by [driver.get] ([None] when no
    driver can be created or the page cannot be loaded), [read_hrefs] gives
    the [href] values of the [a[href]] elements as far as the session let
    them be read, and [driver_title] is [driver.title]. *)

Module Fetch.

Record requests_page := mkRequestsPage {
  page : Crawl.page_data;
  has_pagination : bool;
  has_dynamic_content : bool
}.

Record selenium_page := mkSeleniumPage {
  rendered : Crawl.page_data;
  initial_links : nat;
  dynamic_links : nat
}.

(** [soup.find(attrs={'class': lambda x: x and indicator in x.lower()})]
    for one of the indicators *)
Definition has_class (indicators : list string) (soup : Soup.node) : bool :=
  existsb (Soup.class_matches indicators) (Soup.descendants soup).

Definition detect_pagination (soup : Soup.node) : bool :=
  has_class ["next"; "prev"; "page"; "pagination"] soup.

Definition detect_dynamic_content (soup : Soup.node) : bool :=
  has_class ["load-more"; "show-more"; "carousel"; "slider"; "tab"] soup
  || (3 <? length (Soup.find_all ["ul"] soup)).

(** The [href] values of [soup.find_all('a', href=True)] *)
Definition anchors_with_href (soup : Soup.node) : list string :=
  omap (fun a => match a with
                 | Soup.Element _ _ attrs _ => Soup.assoc "href" attrs
                 | Soup.Text _ => None
                 end)
    (Soup.find_all ["a"] soup).

(** [soup.title.string.strip() if soup.title else '']; [None] when
    [soup.title.string] is [None] and [strip] raises. *)
Definition page_title (soup : Soup.node) : option string :=
  match head (Soup.find_all ["title"] soup) with
  | Some t =>
      match Soup.string_of t with
      | Some s => Some (PyStr.strip Components.is_space s)
      | None => None
      end
  | None => Some EmptyString
  end.

Section WithSession.
Variable urlparse : string -> option UrlParse.ParseResult.
Variable urljoin : string -> string -> option string.
Variable http_get : string -> option string.
Variable parse_html : string -> Soup.node.
Variable domain : string.

Definition is_valid_url : string -> bool :=
  DynamicWebCrawler.is_valid_url urlparse domain.

(** The loop over the anchors: the links collected, and whether the loop
    ran to its end ([false]: [urljoin] raised). *)
Fixpoint resolve_links (base_url : string) (hrefs : list string)
    (links : list string) : list string * bool :=
  match hrefs with
  | [] => (links, true)
  | href :: rest =>
      if String.eqb href "" then resolve_links base_url rest links
      else
        match urljoin base_url href with
        | None => (links, false)
        | Some absolute_url =>
            resolve_links base_url rest
              (if is_valid_url absolute_url then links ++ [absolute_url]
               else links)
        end
  end.

Definition crawl_with_requests (url : string) (depth : nat)
  : option (requests_page * list string) :=
  match http_get url with
  | None => None
  | Some content =>
      let soup := parse_html content in
      match resolve_links url (anchors_with_href soup) [] with
      | (_, false) => None
      | (links, true) =>
          match page_title soup with
          | None => None
          | Some title =>
              Some (mkRequestsPage
                      (Crawl.mkPage url title depth "requests" (length links)
                         (take 15 (elements (list_to_set (C := gset string) links))))
                      (detect_pagination soup) (detect_dynamic_content soup),
                    links)
          end
      end
  end.

Section WithDriver.
Variable driver : Type.
Variable open_page : string -> option driver.
Variable read_hrefs : driver -> list string.
Variable driver_title : driver -> option string.
Variable query_clickables : driver -> option (list Discovery.web_element).
Variable query_buttons : driver -> option (list Discovery.web_element).
Variable script_click : Discovery.web_element -> driver -> bool * driver.
Variable native_click : Discovery.web_element -> driver -> bool * driver.
Variable back : driver -> bool * driver.
Variable scroll_to_bottom : driver -> bool * driver.
Variable dynamic_discovery : bool.

Definition extract_links_from_driver (base_url : string) (d : driver)
  : list string :=
  (resolve_links base_url (read_hrefs d) []).1.

(** The result, and [self.dynamic_urls_found] after the call. *)
Definition crawl_with_selenium (found : gset string) (url : string)
    (depth : nat) : option (selenium_page * list string) * gset string :=
  match open_page url with
  | None => (None, found)
  | Some d =>
      let initial := extract_links_from_driver url d in
      let '(dynamic, d, found) :=
        if dynamic_discovery then
          let '(links, st) :=
            Discovery.discover_dynamic_content driver
              (extract_links_from_driver url) query_clickables query_buttons
              script_click native_click back scroll_to_bottom domain d found in
          (links, Discovery.drv driver st, Discovery.dynamic_urls_found driver st)
        else ([], d, found) in
      let all_links :=
        elements (list_to_set (C := gset string) (initial ++ dynamic)) in
      match driver_title d with
      | None => (None, found)
      | Some title =>
          (Some (mkSeleniumPage
                   (Crawl.mkPage url title depth
                      (match dynamic with
                       | [] => "selenium"
                       | _ => "selenium_dynamic"
                       end)
                      (length all_links) (take 20 all_links))
                   (length initial) (length dynamic),
                 all_links),
           found ∪ list_to_set dynamic)
      end
  end.

End WithDriver.

End WithSession.

End Fetch.

(** ** The URL file and the crawl summary *)

(** [save_urls_only] and [get_summary] of [DynamicWebCrawler], and
    [load_urls] of [HTMLExtractor] and [AdvancedComponentAnalyzer], which
    read the file the crawler saved.  A file written by [json.dump] reads
    back as the value that was written; the text of any other file goes
    through [json_loads] ([None] when it is not JSON). *)

Module UrlsFile.
Import Sys.

(** [data[key]] and [data.get(key)] on a dictionary *)
Fixpoint lookup (key : string) (d : list (string * json)) : option json :=
  match d with
  | [] => None
  | (k, v) :: d' => if String.eqb k key then Some v else lookup key d'
  end.

(** [sorted(...)] on strings: by code points. *)
Fixpoint insert_sorted (x : string) (l : list string) : list string :=
  match l with
  | [] => [x]
  | y :: l' => if String.leb x y then x :: l else y :: insert_sorted x l'
  end.

Definition sorted (l : list string) : list string :=
  foldr insert_sorted [] l.

Definition save_urls_only (base_url : string)
    (visited_urls dynamic_urls_found : gset string) (now : string)
    (filename : path) : M unit :=
  write_file filename
    (Json (JDict
       [("base_url", JStr base_url);
        ("total_urls_found", JNum (size visited_urls));
        ("dynamic_urls_found", JNum (size dynamic_urls_found));
        ("crawl_timestamp", JStr now);
        ("unique_urls", JList (JStr <$> sorted (elements visited_urls)));
        ("dynamic_urls", JList (JStr <$> sorted (elements dynamic_urls_found)))])).

(** The strings a comprehension [[url for url in x if url.startswith(...)]]
    tests: the items of a list, the characters of a string, the keys of a
    dictionary; [None] when [x] cannot be iterated or an item has no
    [startswith]. *)
Definition tested_strings (x : json) : option (list string) :=
  match x with
  | JList l => mapM (fun item => match item with
                                 | JStr s => Some s
                                 | _ => None
                                 end) l
  | JStr s => Some ((fun c => String c EmptyString) <$> list_ascii_of_string s)
  | JDict d => Some (fst <$> d)
  | _ => None
  end.

Section Reading.
Variable json_loads : string -> option json.
Variable render : string -> json -> string.

(** [with open(p) as f: data = json.load(f)] *)
Definition read_json (p : path) : M json := fun w =>
  match p with
  | [] => (Exn "IsADirectoryError", w)
  | _ =>
      match files w !! p with
      | Some (File (Json j)) => (Ok j, w)
      | Some (File (Text s)) =>
          match json_loads s with
          | Some j => (Ok j, w)
          | None => (Exn "JSONDecodeError", w)
          end
      | Some (File (Rendered template data)) =>
          match json_loads (render template data) with
          | Some j => (Ok j, w)
          | None => (Exn "JSONDecodeError", w)
          end
      | Some Dir => (Exn "IsADirectoryError", w)
      | None => (Exn "FileNotFoundError", w)
      end
  end.

(** The body of the [try] of both [load_urls]: the data and the URLs. *)
Definition read_urls (crawled_urls_file : path) : M (list (string * json) * list string) :=
  data ← read_json crawled_urls_file;
  match data with
  | JDict d =>
      match lookup "unique_urls" d with
      | Some x =>
          match tested_strings x with
          | Some strings => mret (d, List.filter HTMLExtractor.is_http strings)
          | None => raise "AttributeError"
          end
      | None => raise "KeyError"
      end
  | _ => raise "TypeError"
  end.

(** [HTMLExtractor.load_urls] *)
Definition load_urls (crawled_urls_file : path) : M (list string) :=
  try_except
    (r ← read_urls crawled_urls_file; mret r.2)
    (fun _ => mret []).

(** [AdvancedComponentAnalyzer.load_urls]: the URLs and
    [data.get('dynamic_urls', [])] *)
Definition load_urls_and_dynamic (crawled_urls_file : path)
  : M (list string * json) :=
  try_except
    (r ← read_urls crawled_urls_file;
     mret (r.2, match lookup "dynamic_urls" r.1 with
                | Some v => v
                | None => JList []
                end))
    (fun _ => mret ([], JList [])).

End Reading.

End UrlsFile.

Module Summary.

(** A page record of [crawled_data]: the dictionary of
    [crawl_with_requests] or the one of [crawl_with_selenium]. *)
Definition page_record : Type := Fetch.requests_page + Fetch.selenium_page.

Definition data (p : page_record) : Crawl.page_data :=
  match p with
  | inl r => Fetch.page r
  | inr s => Fetch.rendered s
  end.

(** [page.get('dynamic_links', 0)] *)
Definition dynamic_links (p : page_record) : nat :=
  match p with
  | inl _ => 0
  | inr s => Fetch.dynamic_links s
  end.

(** [methods_used[method] = methods_used.get(method, 0) + 1] *)
Fixpoint count_method (method : string) (methods_used : list (string * nat))
  : list (string * nat) :=
  match methods_used with
  | [] => [(method, 1)]
  | (m, n) :: rest =>
      if String.eqb m method then (m, n + 1) :: rest
      else (m, n) :: count_method method rest
  end.

Record summary := mkSummary {
  total_pages_crawled : nat;
  total_links_found : nat;
  dynamic_urls_discovered : nat;
  pages_with_dynamic_content : nat;
  max_depth_reached : nat;
  unique_urls_visited : nat;
  methods_used : list (string * nat)
}.

(** [get_summary]; [None] is [{"error": "No data crawled"}]. *)
Definition get_summary (crawled_data : list page_record)
    (visited_urls dynamic_urls_found : gset string) : option summary :=
  match crawled_data with
  | [] => None
  | _ =>
      Some (mkSummary
              (length crawled_data)
              (foldr (fun p acc => Crawl.links_found (data p) + acc) 0 crawled_data)
              (size dynamic_urls_found)
              (length (List.filter (fun p => 0 <? dynamic_links p) crawled_data))
              (foldr (fun p acc => Nat.max (Crawl.depth (data p)) acc) 0 crawled_data)
              (size visited_urls)
              (fold_left (fun methods p => count_method (Crawl.method (data p)) methods)
                 crawled_data []))
  end.

End Summary.

(** ** The fast crawler *)

(** [extract_essential_data], [crawl_single_page] and [crawl] of
    [FastWebCrawler].  [browse url] is what a task's own browser gives:
    [NoDriver] when [create_driver] raises, and otherwise the page source
    and [driver.title] ([None] when [driver.get] or one of the two reads
    raises) and whether [driver.quit] went through.

    The three tasks of a batch run in a thread pool, so that a pass of the
    loop depends on the pool's timing, which is the pass's [schedule]: the
    order in which the tasks take the lock, the order in which their
    futures complete, and for each task whether its first test of
    [len(self.crawled_data)] comes late, when the tasks before it have
    appended their pages, or early, when the list is still as the loop's
    test found it. *)

Module FastCrawl.

Record page_data := mkPage {
  url : string;
  title : option string;
  depth : nat;
  links_found : nat;
  links : list string;
  has_pagination : bool;
  has_dynamic_content : bool;
  h1 : list string;
  h2 : list string
}.

Record crawler := mkCrawler {
  visited_urls : gset string;
  crawled_data : list page_data;
  url_queue : list (string * nat)
}.

(** The state [__init__] sets up. *)
Definition initial (base_url : string) : crawler :=
  mkCrawler ∅ [] [(base_url, 0)].

Inductive browsed :=
| NoDriver
| Browsed (rendered : option (string * string)) (quit_ok : bool).

(** What a task gives its future: an exception, or the list returned. *)
Inductive outcome :=
| Raised
| Returned (new_links : list string).

Record schedule := mkSchedule {
  lock_order : list nat;
  completion_order : list nat;
  late_test : string -> bool
}.

(** The list [l] in the order the picks give: each pick takes one of the
    items that are left. *)
Fixpoint permute {A} (picks : list nat) (l : list A) : list A :=
  match picks with
  | [] => l
  | k :: picks' =>
      let i := k mod length l in
      match l !! i with
      | Some x => x :: permute picks' (delete i l)
      | None => l
      end
  end.

(** [soup.find(string=lambda text: text and indicator in text.lower())] *)
Definition has_text (indicator : string) (soup : Soup.node) : bool :=
  existsb (fun n => match n with
                    | Soup.Text text =>
                        negb (String.eqb text "")
                        && PyStr.contains indicator (PyStr.lower text)
                    | Soup.Element _ _ _ _ => false
                    end)
    (Soup.descendants soup).

Definition quick_pagination_check (soup : Soup.node) : bool :=
  existsb (fun indicator =>
             Fetch.has_class [indicator] soup || has_text indicator soup)
    ["next"; "prev"; "page"; "pagination"].

Definition quick_dynamic_check (soup : Soup.node) : bool :=
  existsb (fun indicator => Fetch.has_class [indicator] soup)
    ["load-more"; "show-more"; "carousel"; "slider"; "tab"]
  || (3 <? length (Soup.find_all ["ul"] soup)).

(** [driver.title or soup.title.string if soup.title else ''], which
    Python reads as [(driver.title or soup.title.string) if soup.title
    else '']; [None] is Python's [None]. *)
Definition page_title (driver_title : string) (soup : Soup.node)
  : option string :=
  match head (Soup.find_all ["title"] soup) with
  | Some t =>
      if String.eqb driver_title "" then Soup.string_of t
      else Some driver_title
  | None => Some EmptyString
  end.

(** [[h.get_text().strip() for h in soup.find_all(tag)[:3]]] *)
Definition headings (tag : string) (soup : Soup.node) : list string :=
  (fun h => PyStr.strip Components.is_space (Soup.get_text h))
    <$> take 3 (Soup.find_all [tag] soup).

Section WithBrowser.
Variable urlparse : string -> option UrlParse.ParseResult.
Variable urljoin : string -> string -> option string.
Variable parse_html : string -> Soup.node.
Variable browse : string -> browsed.
Variable domain : string.
Variable max_depth : nat.
Variable max_pages : nat.

Definition is_valid_url : string -> bool :=
  FastWebCrawler.is_valid_url urlparse domain.

(** The loop over the anchors: the links collected, and whether the loop
    ran to its end ([false]: [urljoin] raised). *)
Fixpoint resolve_links (base_url : string) (hrefs : list string)
    (links : list string) : list string * bool :=
  match hrefs with
  | [] => (links, true)
  | href :: rest =>
      if String.eqb href "" then resolve_links base_url rest links
      else
        match urljoin base_url href with
        | None => (links, false)
        | Some absolute_url =>
            resolve_links base_url rest
              (if is_valid_url absolute_url then links ++ [absolute_url]
               else links)
        end
  end.

(** [None] is the pair [(None, [])] of the [except] branch. *)
Definition extract_essential_data (rendered : option (string * string))
    (url : string) (depth : nat) : option (page_data * list string) :=
  match rendered with
  | None => None
  | Some (page_source, driver_title) =>
      let soup := parse_html page_source in
      match resolve_links url (Fetch.anchors_with_href soup) [] with
      | (_, false) => None
      | (links, true) =>
          Some (mkPage url (page_title driver_title soup) depth
                  (length links) (take 10 links)
                  (quick_pagination_check soup) (quick_dynamic_check soup)
                  (headings "h1" soup) (headings "h2" soup),
                links)
      end
  end.

(** One task, at its turn: its outcome and [self.crawled_data] after it. *)
Definition crawl_single_page (late : bool) (task : string * nat)
    (crawled_data : list page_data) : outcome * list page_data :=
  let '(url, depth) := task in
  if late && (max_pages <=? length crawled_data) then (Returned [], crawled_data)
  else
    match browse url with
    | NoDriver => (Raised, crawled_data)
    | Browsed rendered quit_ok =>
        let '(new_links, crawled_data) :=
          match extract_essential_data rendered url depth with
          | Some (page, new_links) =>
              (if depth <? max_depth then new_links else [],
               if length crawled_data <? max_pages
               then crawled_data ++ [page] else crawled_data)
          | None => ([], crawled_data)
          end in
        (if quit_ok : bool then Returned new_links else Raised, crawled_data)
    end.

(** [for _ in range(min(3, len(self.url_queue)))]: pop the head of the
    queue, and keep it for the batch when it is not yet visited. *)
Fixpoint draw_batch (n : nat) (st : crawler) (current_batch : list (string * nat))
  : list (string * nat) * crawler :=
  match n with
  | 0 => (current_batch, st)
  | S n' =>
      match url_queue st with
      | [] => draw_batch n' st current_batch
      | (u, d) :: rest =>
          if decide (u ∈ visited_urls st)
          then draw_batch n'
                 (mkCrawler (visited_urls st) (crawled_data st) rest)
                 current_batch
          else draw_batch n'
                 (mkCrawler ({[u]} ∪ visited_urls st) (crawled_data st) rest)
                 (current_batch ++ [(u, d)])
      end
  end.

(** The tasks, in the order they take the lock. *)
Fixpoint run_batch (late : string -> bool) (tasks : list (string * nat))
    (crawled_data : list page_data) : list outcome * list page_data :=
  match tasks with
  | [] => ([], crawled_data)
  | task :: tasks' =>
      let '(result, crawled_data) :=
        crawl_single_page (late task.1) task crawled_data in
      let '(results, crawled_data) := run_batch late tasks' crawled_data in
      (result :: results, crawled_data)
  end.

(** The body of [for link in new_links]; [d] is [current_batch[0][1]]. *)
Definition enqueue_link (d : nat) (st : crawler) (link : string) : crawler :=
  if bool_decide (link ∉ visited_urls st) && (length (url_queue st) <? 100)
  then mkCrawler (visited_urls st) (crawled_data st)
         (url_queue st ++ [(link, d + 1)])
  else st.

(** [for future in as_completed(...)]: the flag is [false] when
    [future.result()] raised. *)
Fixpoint consume (d : nat) (results : list outcome) (st : crawler)
  : bool * crawler :=
  match results with
  | [] => (true, st)
  | Raised :: _ => (false, st)
  | Returned new_links :: rest =>
      consume d rest (fold_left (enqueue_link d) new_links st)
  end.

(** [while self.url_queue and len(self.crawled_data) < self.max_pages] *)
Definition continues (st : crawler) : bool :=
  negb (bool_decide (url_queue st = []))
  && (length (crawled_data st) <? max_pages).

(** How a pass through the loop body ends. *)
Inductive pass :=
| Again (st : crawler)
| Break (st : crawler)
| Raises (st : crawler).

Definition crawl_step (s : schedule) (st : crawler) : pass :=
  let '(current_batch, st) :=
    draw_batch (Nat.min 3 (length (url_queue st))) st [] in
  match current_batch with
  | [] => Break st
  | (_, d) :: _ =>
      let '(results, crawled) :=
        run_batch (late_test s) (permute (lock_order s) current_batch)
          (crawled_data st) in
      let st := mkCrawler (visited_urls st) crawled (url_queue st) in
      match consume d (permute (completion_order s) results) st with
      | (true, st) => Again st
      | (false, st) => Raises st
      end
  end.

(** How [crawl] ends, with the crawler's state then: it returns
    [self.crawled_data], it raises, or the schedules given cover only the
    first passes and the loop is still running. *)
Inductive ending :=
| Returns (st : crawler)
| Fails (st : crawler)
| Running (st : crawler).

Definition state (e : ending) : crawler :=
  match e with Returns st | Fails st | Running st => st end.

(** The loop, with the schedule of each pass. *)
Fixpoint crawl_loop (schedules : list schedule) (st : crawler) : ending :=
  if continues st then
    match schedules with
    | [] => Running st
    | s :: schedules' =>
        match crawl_step s st with
        | Again st' => crawl_loop schedules' st'
        | Break st' => Returns st'
        | Raises st' => Fails st'
        end
    end
  else Returns st.

Definition crawl (schedules : list schedule) (base_url : string) : ending :=
  crawl_loop schedules (initial base_url).

End WithBrowser.

End FastCrawl.

(** ** The recursive crawler *)

(** [extract_all_links] and [crawl_page] of [WebCrawler].  The crawler
    keeps one browser; [render url] is what it shows after
    [driver.get(url)] and [wait_for_page_load]: the page source, the
    title, the address it ended on, the [a] elements as far as the session
    let them be read, and the lists that [handle_pagination],
    [handle_dynamic_content] and [detect_animations_and_interactions]
    build from the browser alone; [None] when loading the page or reading
    the source or the title raises. *)

Module WebCrawl.

Record anchor := mkAnchor {
  href : option string;
  text : string;
  class : option string
}.

Record rendered := mkRendered {
  page_source : string;
  driver_title : string;
  current_url : string;
  anchors : list anchor;
  pagination_data : Sys.json;
  dynamic_data : Sys.json;
  interactive_data : Sys.json
}.

Record link_data := mkLink {
  link_url : string;
  link_text : string;
  link_class : option string
}.

Record input_data := mkInput {
  input_type : string;
  input_name : string;
  input_id : string;
  input_placeholder : string
}.

Record form_data := mkForm {
  action : string;
  method : string;
  inputs : list input_data
}.

Record image_data := mkImage {
  src : string;
  alt : string;
  image_title : string
}.

Record page_data := mkPage {
  url : string;
  title : string;
  depth : nat;
  meta_description : string;
  headings : list (string * list string);
  links : list link_data;
  pagination : Sys.json;
  dynamic_content : Sys.json;
  interactive_elements : Sys.json;
  forms : list form_data;
  images : list image_data
}.

Record crawler := mkCrawler {
  visited_urls : gset string;
  crawled_data : list page_data
}.

(** The state [__init__] sets up. *)
Definition initial : crawler := mkCrawler ∅ [].

(** [tag.get(key)] *)
Definition attribute (key : string) (n : Soup.node) : option string :=
  match n with
  | Soup.Element _ _ attrs _ => Soup.assoc key attrs
  | Soup.Text _ => None
  end.

Definition form_of (form : Soup.node) : form_data :=
  mkForm (Soup.get form "action" "") (Soup.get form "method" "get")
    ((fun inp => mkInput (Soup.get inp "type" "") (Soup.get inp "name" "")
                   (Soup.get inp "id" "") (Soup.get inp "placeholder" ""))
       <$> Soup.find_all ["input"; "select"; "textarea"] form).

Section WithBrowser.
Variable urlparse : string -> option UrlParse.ParseResult.
Variable urljoin : string -> string -> option string.
Variable parse_html : string -> Soup.node.
Variable render : string -> option rendered.
Variable domain : string.
Variable max_depth : nat.
Variable max_pages : nat.

Definition is_valid_url : string -> bool :=
  WebCrawler.is_valid_url urlparse domain.

(** The loop of [extract_all_links]; it ends, keeping the links it has,
    when [urljoin] raises. *)
Fixpoint extract_all_links (current : string) (link_elements : list anchor)
    (links : list link_data) : list link_data :=
  match link_elements with
  | [] => links
  | link :: rest =>
      match href link with
      | Some h =>
          if negb (String.eqb h "") && is_valid_url h then
            match urljoin current h with
            | Some absolute_url =>
                extract_all_links current rest
                  (links ++ [mkLink absolute_url
                               (PyStr.strip Components.is_space (text link))
                               (class link)])
            | None => links
            end
          else extract_all_links current rest links
      | None => extract_all_links current rest links
      end
  end.

(** The loop over the images; [None] when [urljoin] raises. *)
Fixpoint images_of (url : string) (imgs : list Soup.node)
  : option (list image_data) :=
  match imgs with
  | [] => Some []
  | img :: rest =>
      match attribute "src" img with
      | Some s =>
          if String.eqb s "" then images_of url rest
          else
            match urljoin url s with
            | Some absolute =>
                match images_of url rest with
                | Some found =>
                    Some (mkImage absolute (Soup.get img "alt" "")
                            (Soup.get img "title" "") :: found)
                | None => None
                end
            | None => None
            end
      | None => images_of url rest
      end
  end.

(** The page record that the [try] block builds; [None] when it raises. *)
Definition page_of (url : string) (depth : nat) (r : rendered)
  : option page_data :=
  let soup := parse_html (page_source r) in
  match images_of url (Soup.find_all ["img"] soup) with
  | Some found =>
      Some (mkPage url (driver_title r) depth
              match Soup.find_attr "meta" "name" "description" soup with
              | Some meta_desc => Soup.get meta_desc "content" ""
              | None => EmptyString
              end
              ((fun tag =>
                  (tag, (fun h => PyStr.strip Components.is_space (Soup.get_text h))
                          <$> Soup.find_all [tag] soup))
                 <$> ["h1"; "h2"; "h3"; "h4"; "h5"; "h6"])
              (extract_all_links (current_url r) (anchors r) [])
              (pagination_data r) (dynamic_data r) (interactive_data r)
              (form_of <$> Soup.find_all ["form"] soup)
              found)
  | None => None
  end.

(** [for link_data in page_data['links']]; [visit] is the recursive call
    [self.crawl_page(link_url, depth + 1)]. *)
Fixpoint follow_links (visit : string -> crawler -> option crawler)
    (links : list link_data) (st : crawler) : option crawler :=
  match links with
  | [] => Some st
  | link :: rest =>
      if bool_decide (link_url link ∉ visited_urls st)
         && is_valid_url (link_url link)
      then
        match visit (link_url link) st with
        | Some st' => follow_links visit rest st'
        | None => None
        end
      else follow_links visit rest st
  end.

(** [crawl_page]; a call nests at most [max_depth + 1 - depth] calls, and
    [fuel] bounds the nesting ([None]: the bound was too small). *)
Fixpoint crawl_page (fuel : nat) (url : string) (depth : nat) (st : crawler)
  : option crawler :=
  if (max_depth <? depth) || bool_decide (url ∈ visited_urls st)
     || (max_pages <=? length (crawled_data st))
  then Some st
  else
    match fuel with
    | 0 => None
    | S fuel' =>
        let st := mkCrawler ({[url]} ∪ visited_urls st) (crawled_data st) in
        match render url with
        | None => Some st
        | Some r =>
            match page_of url depth r with
            | None => Some st
            | Some page =>
                follow_links
                  (fun link_url st => crawl_page fuel' link_url (depth + 1) st)
                  (links page)
                  (mkCrawler (visited_urls st) (crawled_data st ++ [page]))
            end
        end
    end.

(** [self.crawl_page(self.base_url)] on a new crawler *)
Definition crawl_from (base_url : string) : option crawler :=
  crawl_page (S max_depth) base_url 0 initial.

End WithBrowser.

End WebCrawl.

(** ** The overview of an analysis run *)

(** The tasks that [analyze_all_urls] of [AdvancedComponentAnalyzer]
    submits and the [analysis_overview] that
    [generate_comprehensive_summary] writes, for the list of strings that
    [save_urls_only] stores under [dynamic_urls].  [static_urls] is a
    difference of two lengths and may be negative; [success_rate] is kept
    as the two numbers Python divides. *)

Module AnalysisSummary.

Record overview := mkOverview {
  total_urls : nat;
  dynamic_urls : nat;
  static_urls : Z;
  successful_analyses : nat;
  failed_analyses : nat;
  success_rate : nat * nat
}.

(** [dynamic_url_set = set(dynamic_urls)] *)
Definition dynamic_url_set (dynamic_urls : list string) : gset string :=
  list_to_set dynamic_urls.

(** The calls [extract_and_analyze_single_url(url, url in dynamic_url_set)]
    that are submitted, in the order of [urls]. *)
Definition submitted (urls dynamic_urls : list string) : list (string * bool) :=
  (fun url => (url, bool_decide (url ∈ dynamic_url_set dynamic_urls))) <$> urls.

Definition analysis_overview (urls dynamic_urls : list string)
    (success_count failed_count : nat) : overview :=
  mkOverview (length urls) (length dynamic_urls)
    (Z.of_nat (length urls)
     - Z.of_nat (size (list_to_set (C := gset string) dynamic_urls)))%Z
    success_count failed_count
    (match urls with
     | [] => (0, 1)
     | _ => (success_count, length urls)
     end).

End AnalysisSummary.

(** * Properties *)

(** ** Facts about the string operations *)

Section PyStrFacts.

Lemma startswith_app p b : PyStr.startswith (p +:+ b) p = true.
Proof.
  induction p as [|c p IH]; simpl; [now destruct b|].
  now rewrite Ascii.eqb_refl.
Qed.

Lemma contains_unfold p s :
  PyStr.contains p s =
  PyStr.startswith s p ||
  match s with EmptyString => false | String _ s' => PyStr.contains p s' end.
Proof. destruct s; reflexivity. Qed.

Lemma contains_app a p b : PyStr.contains p (a +:+ p +:+ b) = true.
Proof.
  induction a as [|c a IH].
  - change (PyStr.contains p (p +:+ b) = true).
    rewrite contains_unfold, startswith_app. reflexivity.
  - change (PyStr.contains p (String c (a +:+ p +:+ b)) = true).
    rewrite contains_unfold, IH. apply orb_true_r.
Qed.

Lemma endswith_unfold s e :
  PyStr.endswith s e =
  String.eqb s e ||
  match s with EmptyString => false | String _ s' => PyStr.endswith s' e end.
Proof. destruct s; reflexivity. Qed.

Lemma endswith_app a e : PyStr.endswith (a +:+ e) e = true.
Proof.
  induction a as [|c a IH].
  - change (PyStr.endswith e e = true).
    rewrite endswith_unfold, String.eqb_refl. reflexivity.
  - change (PyStr.endswith (String c (a +:+ e)) e = true).
    rewrite endswith_unfold, IH. apply orb_true_r.
Qed.

Lemma endswith_inv s e :
  PyStr.endswith s e = true -> exists a, s = a +:+ e.
Proof.
  induction s as [|c s IH]; rewrite endswith_unfold; intros H.
  - apply orb_true_iff in H as [H|H]; [|discriminate].
    apply String.eqb_eq in H. exists EmptyString. now subst.
  - apply orb_true_iff in H as [H|H].
    + apply String.eqb_eq in H. exists EmptyString. now subst.
    + destruct (IH H) as [a ->]. now exists (String c a).
Qed.

Lemma lower_app a b : PyStr.lower (a +:+ b) = PyStr.lower a +:+ PyStr.lower b.
Proof. induction a as [|c a IH]; simpl; [reflexivity|]. now rewrite IH. Qed.

Lemma str_take_length n s : String.length (PyStr.take n s) <= n.
Proof.
  revert s. induction n as [|n IH]; intros [|c s]; simpl; try lia.
  specialize (IH s). lia.
Qed.

Lemma str_take_all n s : String.length s <= n -> PyStr.take n s = s.
Proof.
  revert s. induction n as [|n IH]; intros [|c s]; simpl; intros H;
    try reflexivity; try lia.
  rewrite IH; [reflexivity|lia].
Qed.

Lemma str_app_length a b :
  String.length (a +:+ b) = String.length a + String.length b.
Proof. induction a as [|c a IH]; simpl; [reflexivity|]. now rewrite IH. Qed.

Lemma str_take_app_length a b : PyStr.take (String.length a) (a +:+ b) = a.
Proof. induction a as [|c a IH]; simpl; [now destruct b|]. now rewrite IH. Qed.

Lemma drop_last_app a b :
  PyStr.drop_last (String.length b) (a +:+ b) = a.
Proof.
  unfold PyStr.drop_last. rewrite str_app_length.
  replace (String.length a + String.length b - String.length b)
    with (String.length a) by lia.
  apply str_take_app_length.
Qed.

Variable P : ascii -> bool.

Lemma all_chars_app a b :
  PyStr.all_chars P (a +:+ b) = PyStr.all_chars P a && PyStr.all_chars P b.
Proof.
  induction a as [|c a IH]; simpl; [reflexivity|].
  now rewrite IH, andb_assoc.
Qed.

Lemma all_chars_take n s :
  PyStr.all_chars P s = true -> PyStr.all_chars P (PyStr.take n s) = true.
Proof.
  revert s. induction n as [|n IH]; intros [|c s]; simpl; try reflexivity.
  intros [Hc Hs]%andb_true_iff. now rewrite Hc, IH.
Qed.

Lemma all_chars_lstrip Q s :
  PyStr.all_chars P s = true -> PyStr.all_chars P (PyStr.lstrip Q s) = true.
Proof.
  induction s as [|c s IH]; simpl; [reflexivity|].
  intros H. destruct (Q c); [|exact H].
  apply andb_true_iff in H as [_ H]. auto.
Qed.

Lemma all_chars_rstrip Q s :
  PyStr.all_chars P s = true -> PyStr.all_chars P (PyStr.rstrip Q s) = true.
Proof.
  induction s as [|c s IH]; simpl; [reflexivity|].
  intros [Hc Hs]%andb_true_iff. specialize (IH Hs).
  destruct (PyStr.rstrip Q s) as [|d r].
  - destruct (Q c); simpl; [reflexivity|now rewrite Hc].
  - change (P c && PyStr.all_chars P (String d r) = true). now rewrite Hc.
Qed.

Lemma all_chars_strip Q s :
  PyStr.all_chars P s = true -> PyStr.all_chars P (PyStr.strip Q s) = true.
Proof. intros H. now apply all_chars_rstrip, all_chars_lstrip. Qed.

Lemma all_chars_collapse s :
  PyStr.all_chars P s = true ->
  PyStr.all_chars P (PyStr.collapse_underscores s) = true.
Proof.
  induction s as [|c s IH]; [reflexivity|].
  intros H. pose proof H as [Hc Hs]%andb_true_iff. specialize (IH Hs).
  simpl. destruct (Ascii.eqb c "_").
  - destruct s as [|d s']; [exact H|].
    destruct (Ascii.eqb d "_"); [exact IH|].
    change (P c && PyStr.all_chars P (PyStr.collapse_underscores (String d s')) = true).
    now rewrite Hc.
  - change (P c && PyStr.all_chars P (PyStr.collapse_underscores s) = true).
    now rewrite Hc.
Qed.

Lemma all_chars_sub_outside keep s :
  (forall c, keep c = true -> P c = true) -> P "_"%char = true ->
  PyStr.all_chars P (PyStr.sub_outside keep s) = true.
Proof.
  intros Hk Hu. induction s as [|c s IH]; simpl; [reflexivity|].
  rewrite IH, andb_true_r. destruct (keep c) eqn:E; auto.
Qed.

End PyStrFacts.

Lemma all_chars_impl (P Q : ascii -> bool) s :
  (forall c, P c = true -> Q c = true) ->
  PyStr.all_chars P s = true -> PyStr.all_chars Q s = true.
Proof.
  intros HPQ. induction s as [|c s IH]; simpl; [reflexivity|].
  intros [Hc Hs]%andb_true_iff. now rewrite (HPQ _ Hc), IH.
Qed.

(** ** The URL classifier: exclusion rules and domain containment *)

Section ClassifierFacts.
Variable urlparse : string -> option UrlParse.ParseResult.

Lemma skip_paths_lower p : p ∈ Classifier.skip_paths -> PyStr.lower p = p.
Proof.
  unfold Classifier.skip_paths. rewrite !elem_of_cons, elem_of_nil.
  intros [->|[->|[->|[->|[->|[]]]]]]; reflexivity.
Qed.

Lemma rejected_by_extension exts domain url ext pre :
  ext ∈ exts -> PyStr.lower url = pre +:+ ext ->
  Classifier.is_valid_url_with urlparse exts domain url = false.
Proof.
  intros Hin Hurl. unfold Classifier.is_valid_url_with.
  destruct (urlparse url) as [parsed|]; [|reflexivity].
  destruct (_ && _); [reflexivity|].
  assert (existsb (fun e => PyStr.endswith (PyStr.lower url) e) exts = true) as ->;
    [|reflexivity].
  apply existsb_exists. exists ext. split; [now apply list_elem_of_In|].
  rewrite Hurl. apply endswith_app.
Qed.

Lemma rejected_by_path exts domain url p pre post :
  p ∈ Classifier.skip_paths -> PyStr.lower url = pre +:+ p +:+ post ->
  Classifier.is_valid_url_with urlparse exts domain url = false.
Proof.
  intros Hin Hurl. unfold Classifier.is_valid_url_with.
  destruct (urlparse url) as [parsed|]; [|reflexivity].
  destruct (_ && _); [reflexivity|].
  destruct (existsb _ exts); [reflexivity|].
  assert (existsb (fun q => PyStr.contains q (PyStr.lower url))
            Classifier.skip_paths = true) as ->; [|reflexivity].
  apply existsb_exists. exists p. split; [now apply list_elem_of_In|].
  rewrite Hurl. apply contains_app.
Qed.

Lemma lower_occurrence url p pre post :
  p ∈ Classifier.skip_paths -> url = pre +:+ p +:+ post ->
  PyStr.lower url = PyStr.lower pre +:+ p +:+ PyStr.lower post.
Proof.
  intros Hin ->. now rewrite !lower_app, (skip_paths_lower p Hin).
Qed.

Lemma accepted_inv exts domain url :
  Classifier.is_valid_url_with urlparse exts domain url = true ->
  exists parsed, urlparse url = Some parsed /\
    (UrlParse.netloc parsed = "" \/ UrlParse.netloc parsed = domain).
Proof.
  unfold Classifier.is_valid_url_with.
  destruct (urlparse url) as [parsed|]; [|discriminate].
  intros H. exists parsed. split; [reflexivity|].
  destruct (String.eqb_spec (UrlParse.netloc parsed) "") as [E|NE]; [now left|].
  destruct (String.eqb_spec (UrlParse.netloc parsed) domain) as [E|NE']; [now right|].
  discriminate.
Qed.

Lemma foreign_netloc_rejected exts domain url parsed :
  urlparse url = Some parsed ->
  UrlParse.netloc parsed <> "" -> UrlParse.netloc parsed <> domain ->
  Classifier.is_valid_url_with urlparse exts domain url = false.
Proof.
  intros Hp H1 H2. unfold Classifier.is_valid_url_with. rewrite Hp.
  apply String.eqb_neq in H1, H2. now rewrite H1, H2.
Qed.

Lemma parse_failure_rejected exts domain url :
  urlparse url = None ->
  Classifier.is_valid_url_with urlparse exts domain url = false.
Proof. intros Hp. unfold Classifier.is_valid_url_with. now rewrite Hp. Qed.

End ClassifierFacts.

(** The full URL string ends with an extension of the list [exts], or
    contains an excluded path substring, after lowercasing. *)
Definition excluded_by (exts : list string) (url : string) : Prop :=
  (exists ext pre, ext ∈ exts /\ PyStr.lower url = pre +:+ ext) \/
  (exists p pre post,
      p ∈ Classifier.skip_paths /\ PyStr.lower url = pre +:+ p +:+ post).

(** C5 (as the code has it): a URL whose lowercased full string ends with
    one of the crawler's skip extensions (the ten of [UltraFastCrawler], the
    eight of [DynamicWebCrawler]), or contains an excluded path substring,
    is never eligible, whatever the site domain and whatever the parser
    returns for it. *)
Theorem excluded_url_never_eligible
    (urlparse : string -> option UrlParse.ParseResult) (domain url : string) :
  (excluded_by UltraFastCrawler.skip_extensions url ->
     UltraFastCrawler.is_valid_url urlparse domain url = false) /\
  (excluded_by DynamicWebCrawler.skip_extensions url ->
     DynamicWebCrawler.is_valid_url urlparse domain url = false).
Proof.
  split; (intros [(ext & pre & Hin & Hurl)|(p & pre & post & Hin & Hurl)];
    [eapply rejected_by_extension|eapply rejected_by_path]; eauto).
Qed.

(** The extension test looks at the whole URL, not at its path: a same-domain
    URL whose path ends with [.pdf] and that carries a query is eligible. *)
Lemma path_extension_with_query_is_eligible :
  (exists parsed,
      UrlParse.urlparse_ref "http://example.com/report.pdf?v=2" = Some parsed /\
      UrlParse.netloc parsed = "example.com" /\
      UrlParse.path parsed = "/report.pdf" /\
      PyStr.endswith (UrlParse.path parsed) ".pdf" = true) /\
  ".pdf" ∈ UltraFastCrawler.skip_extensions /\
  UltraFastCrawler.is_valid_url UrlParse.urlparse_ref "example.com"
    "http://example.com/report.pdf?v=2" = true.
Proof.
  split; [eexists; repeat split; reflexivity|].
  split; [|reflexivity].
  unfold UltraFastCrawler.skip_extensions. apply list_elem_of_here.
Qed.

(** C6 (as the code has it): an eligible URL has an empty network location
    or the site's; a URL with a non-empty network location other than the
    site domain is rejected; a URL the parser refuses is rejected instead of
    raising. *)
Theorem eligible_url_netloc
    (urlparse : string -> option UrlParse.ParseResult) (domain url : string) :
  (DynamicWebCrawler.is_valid_url urlparse domain url = true ->
     exists parsed, urlparse url = Some parsed /\
       (UrlParse.netloc parsed = "" \/ UrlParse.netloc parsed = domain)) /\
  (forall parsed, urlparse url = Some parsed ->
     UrlParse.netloc parsed <> "" -> UrlParse.netloc parsed <> domain ->
     DynamicWebCrawler.is_valid_url urlparse domain url = false) /\
  (urlparse url = None ->
     DynamicWebCrawler.is_valid_url urlparse domain url = false).
Proof.
  split; [apply accepted_inv|].
  split; [intros parsed; apply foreign_netloc_rejected|apply parse_failure_rejected].
Qed.

(** A URL without network location is eligible although its (empty) network
    location is not the site domain. *)
Lemma eligible_url_without_netloc :
  DynamicWebCrawler.is_valid_url UrlParse.urlparse_ref "example.com"
    "mailto:info@example.org" = true /\
  (exists parsed,
      UrlParse.urlparse_ref "mailto:info@example.org" = Some parsed /\
      UrlParse.netloc parsed = "" /\
      String.eqb (UrlParse.netloc parsed) "example.com" = false).
Proof. split; [reflexivity|]. eexists; repeat split; reflexivity. Qed.

(** An unparsable URL is classified, not raised. *)
Example unparsable_url_is_ineligible :
  UrlParse.urlparse_ref "http://[::1/x" = None /\
  DynamicWebCrawler.is_valid_url UrlParse.urlparse_ref "example.com"
    "http://[::1/x" = false.
Proof. split; reflexivity. Qed.

(** C10: the excluded-substring test runs over the whole lowercased URL: a
    URL containing an excluded substring anywhere (in any letter case) is
    rejected by [DynamicWebCrawler] and [EnhancedWebCrawler], whatever its
    parsed path is. *)
Theorem excluded_substring_anywhere
    (urlparse : string -> option UrlParse.ParseResult)
    (domain url p pre post : string) :
  p ∈ Classifier.skip_paths ->
  url = pre +:+ p +:+ post \/ PyStr.lower url = pre +:+ p +:+ post ->
  DynamicWebCrawler.is_valid_url urlparse domain url = false /\
  EnhancedWebCrawler.is_valid_url urlparse domain url = false.
Proof.
  intros Hin [Hurl|Hurl].
  - pose proof (lower_occurrence url p pre post Hin Hurl) as Hl.
    split; eapply rejected_by_path; eauto.
  - split; eapply rejected_by_path; eauto.
Qed.

(** The excluded substring sits in the query; the path has none. *)
Lemma excluded_substring_anywhere_witness :
  (exists parsed,
      UrlParse.urlparse_ref "http://example.com/page?next=/login" = Some parsed /\
      UrlParse.path parsed = "/page" /\
      existsb (fun q => PyStr.contains q (UrlParse.path parsed))
        Classifier.skip_paths = false) /\
  DynamicWebCrawler.is_valid_url UrlParse.urlparse_ref "example.com"
    "http://example.com/page?next=/login" = false /\
  EnhancedWebCrawler.is_valid_url UrlParse.urlparse_ref "example.com"
    "http://example.com/page?next=/login" = false.
Proof.
  split; [eexists; repeat split; reflexivity|].
  apply (excluded_substring_anywhere UrlParse.urlparse_ref "example.com"
           "http://example.com/page?next=/login" "/login"
           "http://example.com/page?next=" "").
  - unfold Classifier.skip_paths. rewrite !elem_of_cons. auto.
  - left. reflexivity.
Defined.

(** ** The page identifier *)

(** The characters of an identifier built from a path and a query. *)
Definition identifier_char (c : ascii) : bool :=
  PageId.path_char c || Ascii.eqb c "=" || Ascii.eqb c "&".

Section PageIdFacts.

Lemma path_char_identifier_char c :
  PageId.path_char c = true -> identifier_char c = true.
Proof. unfold identifier_char. now intros ->. Qed.

Lemma query_char_identifier_char c :
  PageId.query_char c = true -> identifier_char c = true.
Proof.
  unfold identifier_char, PageId.query_char, PageId.path_char.
  destruct (PyStr.is_word c), (Ascii.eqb c "-"), (Ascii.eqb c "_"),
    (Ascii.eqb c "="), (Ascii.eqb c "&"), (Ascii.eqb c "."); simpl; congruence.
Qed.

Lemma clean_path_chars path :
  PyStr.all_chars PageId.path_char (PageId.clean_path path) = true.
Proof.
  unfold PageId.clean_path.
  apply all_chars_strip, all_chars_collapse, all_chars_sub_outside;
    [auto|reflexivity].
Qed.

Lemma path_identifier_chars path :
  PyStr.all_chars PageId.path_char (PageId.path_identifier path) = true.
Proof.
  unfold PageId.path_identifier.
  destruct (String.eqb path ""); [reflexivity|].
  destruct (PyStr.endswith _ _); [apply all_chars_take|]; apply clean_path_chars.
Qed.

Lemma cap_length s :
  String.length
    (if 100 <? String.length s then PyStr.take 100 s else s) <= 100.
Proof.
  destruct (Nat.ltb_spec 100 (String.length s)); [apply str_take_length|lia].
Qed.

Lemma cap_is_take s :
  (if 100 <? String.length s then PyStr.take 100 s else s) = PyStr.take 100 s.
Proof.
  destruct (Nat.ltb_spec 100 (String.length s)); [reflexivity|].
  symmetry. now apply str_take_all.
Qed.

Lemma cap_chars P s :
  PyStr.all_chars P s = true ->
  PyStr.all_chars P
    (if 100 <? String.length s then PyStr.take 100 s else s) = true.
Proof. intros H. destruct (_ <? _); [now apply all_chars_take|exact H]. Qed.

Lemma identifier_length parsed :
  String.length (PageId.identifier_of parsed) <= 100.
Proof. apply cap_length. Qed.

Lemma identifier_chars parsed :
  PyStr.all_chars identifier_char (PageId.identifier_of parsed) = true.
Proof.
  unfold PageId.identifier_of. apply cap_chars.
  pose proof (path_identifier_chars
    (PyStr.strip PageId.is_slash (UrlParse.path parsed))) as Hp.
  apply (all_chars_impl _ _ _ path_char_identifier_char) in Hp.
  destruct (negb _); [|exact Hp].
  rewrite !all_chars_app, Hp. simpl.
  apply all_chars_sub_outside; [apply query_char_identifier_char|reflexivity].
Qed.

Lemma identifier_chars_no_query parsed :
  UrlParse.query parsed = "" ->
  PyStr.all_chars PageId.path_char (PageId.identifier_of parsed) = true.
Proof.
  intros Hq. unfold PageId.identifier_of. rewrite Hq. simpl.
  apply cap_chars, path_identifier_chars.
Qed.

Lemma identifier_homepage parsed :
  PyStr.strip PageId.is_slash (UrlParse.path parsed) = "" ->
  PageId.identifier_of parsed =
    if String.eqb (UrlParse.query parsed) "" then "homepage"
    else PyStr.take 100
           ("homepage_query_" +:+
            PyStr.sub_outside PageId.query_char (UrlParse.query parsed)).
Proof.
  intros Hp. unfold PageId.identifier_of. rewrite Hp.
  change (PageId.path_identifier "") with "homepage".
  destruct (String.eqb (UrlParse.query parsed) ""); simpl negb; cbv iota.
  - reflexivity.
  - apply (cap_is_take (String "h" _)).
Qed.

Lemma identifier_html_stripped parsed stem :
  PyStr.strip PageId.is_slash (UrlParse.path parsed) <> "" ->
  PageId.clean_path (PyStr.strip PageId.is_slash (UrlParse.path parsed))
    = stem +:+ ".html" ->
  UrlParse.query parsed = "" ->
  PageId.identifier_of parsed = PyStr.take 100 stem.
Proof.
  intros Hne Hclean Hq. unfold PageId.identifier_of, PageId.path_identifier.
  apply String.eqb_neq in Hne. rewrite Hne, Hclean, endswith_app, Hq.
  simpl negb. cbv iota.
  pose proof (drop_last_app stem ".html") as Hd.
  change (String.length ".html") with 5 in Hd. rewrite Hd. apply cap_is_take.
Qed.

End PageIdFacts.




(** ** The component extractors: result caps *)

(** The elements the card extractor selects, in document order. *)
Definition card_elements (soup : Soup.node) : list Soup.node :=
  Soup.find_all_class ["div"; "section"]
    ["card"; "tile"; "item"; "box"; "panel"] soup.

Section ComponentFacts.

Lemma capped_length {A B} (f : nat -> A -> B) (cap : nat) (l : list A) :
  length (imap f (take cap l)) = Nat.min cap (length l).
Proof. now rewrite length_imap, length_take. Qed.

Lemma capped_ids {A} (prefix : string) (rest : nat -> A -> Components.component)
    (l : list A) :
  Components.field "id" <$>
    imap (fun i x => ("id", Components.VStr (Components.seq_id prefix i)) :: rest i x) l
  = (fun i => Some (Components.VStr (Components.seq_id prefix i)))
      <$> seq 0 (length l).
Proof.
  rewrite fmap_imap, <- imap_seq_0. apply imap_ext. reflexivity.
Qed.

Lemma capped_markup {A} (mk : A -> Components.value) (idf : nat -> Components.value)
    (rest : nat -> A -> Components.component) (l : list A) :
  Components.field "html" <$>
    imap (fun i x => ("id", idf i) :: ("html", mk x) :: rest i x) l
  = (fun x => Some (mk x)) <$> l.
Proof.
  rewrite fmap_imap, <- (imap_const (fun x => Some (mk x))).
  apply imap_ext. reflexivity.
Qed.

Lemma card_components_length soup :
  length (Components.extract_card_components soup)
  = Nat.min 15 (length (card_elements soup)).
Proof. apply capped_length. Qed.

Lemma card_components_ids soup :
  15 <= length (card_elements soup) ->
  Components.field "id" <$> Components.extract_card_components soup
  = (fun s => Some (Components.VStr s)) <$>
      ["card_1"; "card_2"; "card_3"; "card_4"; "card_5"; "card_6"; "card_7";
       "card_8"; "card_9"; "card_10"; "card_11"; "card_12"; "card_13";
       "card_14"; "card_15"].
Proof.
  intros Hlen. unfold Components.extract_card_components.
  fold (card_elements soup). rewrite capped_ids.
  rewrite length_take, Nat.min_l by exact Hlen. reflexivity.
Qed.

Lemma card_components_markup soup :
  Components.field "html" <$> Components.extract_card_components soup
  = (fun card => Some (Components.VMarkup card)) <$> take 15 (card_elements soup).
Proof.
  unfold Components.extract_card_components. fold (card_elements soup).
  apply (capped_markup Components.VMarkup).
Qed.

End ComponentFacts.

(** C7 (as the code has it): on a page with 50 or more card-like elements
    the card extractor returns exactly 15 records, the first 15 matches in
    document order, with ids [card_1] to [card_15]; twelve of the fourteen
    extractors cap their result (headers 5, navigation 10, main content 3,
    articles 10, cards 15, lists 10, media 10, footers 3, sidebars 5,
    modals 5, buttons 20, breadcrumbs 3), while the form and table
    extractors return one record per [form] and per [table] element. *)
Theorem component_caps (soup : Soup.node) :
  (50 <= length (card_elements soup) ->
     length (Components.extract_card_components soup) = 15 /\
     Components.field "id" <$> Components.extract_card_components soup
       = (fun s => Some (Components.VStr s)) <$>
           ["card_1"; "card_2"; "card_3"; "card_4"; "card_5"; "card_6";
            "card_7"; "card_8"; "card_9"; "card_10"; "card_11"; "card_12";
            "card_13"; "card_14"; "card_15"] /\
     Components.field "html" <$> Components.extract_card_components soup
       = (fun card => Some (Components.VMarkup card))
           <$> take 15 (card_elements soup)) /\
  card_elements soup
    = List.filter (fun d => Soup.is_tag ["div"; "section"] d
                     && Soup.class_matches ["card"; "tile"; "item"; "box"; "panel"] d)
        (Soup.descendants soup) /\
  length (Components.extract_header_components soup) <= 5 /\
  length (Components.extract_navigation_components soup) <= 10 /\
  length (Components.extract_main_content_components soup) <= 3 /\
  length (Components.extract_article_components soup) <= 10 /\
  length (Components.extract_card_components soup) <= 15 /\
  length (Components.extract_list_components soup) <= 10 /\
  length (Components.extract_media_components soup) <= 10 /\
  length (Components.extract_footer_components soup) <= 3 /\
  length (Components.extract_sidebar_components soup) <= 5 /\
  length (Components.extract_modal_components soup) <= 5 /\
  length (Components.extract_button_components soup) <= 20 /\
  length (Components.extract_breadcrumb_components soup) <= 3 /\
  length (Components.extract_form_components soup)
    = length (Soup.find_all ["form"] soup) /\
  length (Components.extract_table_components soup)
    = length (Soup.find_all ["table"] soup).
Proof.
  split.
  { intros Hlen. split; [|split].
    - rewrite card_components_length. lia.
    - apply card_components_ids. lia.
    - apply card_components_markup. }
  split; [reflexivity|].
  unfold Components.extract_header_components,
    Components.extract_navigation_components,
    Components.extract_main_content_components,
    Components.extract_article_components,
    Components.extract_card_components,
    Components.extract_list_components,
    Components.extract_media_components,
    Components.extract_footer_components,
    Components.extract_sidebar_components,
    Components.extract_modal_components,
    Components.extract_button_components,
    Components.extract_breadcrumb_components,
    Components.extract_form_components,
    Components.extract_table_components.
  rewrite !capped_length, !length_imap.
  repeat split; lia.
Qed.

(** A page of [n] sibling elements of one kind. *)
Definition page_of (n : nat) (element : Soup.node) : Soup.node :=
  Soup.Element "[document]" None []
    [Soup.Element "body" None [] (replicate n element)].

Example fifty_cards_give_fifteen :
  length (card_elements
            (page_of 50 (Soup.Element "div" (Some ["Card"; "wide"]) [] []))) = 50 /\
  length (Components.extract_card_components
            (page_of 50 (Soup.Element "div" (Some ["Card"; "wide"]) [] []))) = 15.
Proof. split; vm_compute; reflexivity. Qed.

(** The form and table extractors have no cap: 21 forms give 21 records,
    above the largest cap of any type. *)
Lemma forms_and_tables_are_not_capped :
  length (Components.extract_form_components
            (page_of 21 (Soup.Element "form" None [("action", "/subscribe")] []))) = 21 /\
  length (Components.extract_table_components
            (page_of 21 (Soup.Element "table" None [] []))) = 21.
Proof. split; vm_compute; reflexivity. Qed.

(** ** The extraction pipeline: idempotent resume *)

(** The page of [url] has its primary artifact in the tree. *)
Definition already_extracted (urlparse : string -> option UrlParse.ParseResult)
    (output_dir : Sys.path) (artifact : string)
    (fs : gmap Sys.path Sys.entry) (url : string) : Prop :=
  exists page_id e,
    PageId.create_page_identifier urlparse url = Some page_id /\
    fs !! (Sys.join (Sys.join output_dir page_id) artifact) = Some e.

Section ResumeFacts.
Import Sys.

Lemma join_file dir name :
  String.eqb name "" || String.eqb name "." = false ->
  join dir name = dir ++ [name].
Proof. unfold join. now intros ->. Qed.

Lemma artifact_found fs dir name e :
  String.eqb name "" || String.eqb name "." = false ->
  well_formed fs -> fs !! join dir name = Some e ->
  is_dir fs dir = true /\
  forall w, files w = fs -> path_exists (join dir name) w = (Ok true, w).
Proof.
  intros Hname Hwf Hfile. rewrite (join_file _ _ Hname) in *.
  split; [eapply Hwf; eauto|].
  intros w <-. unfold path_exists. rewrite Hfile.
  now destruct (dir ++ [name]).
Qed.

Lemma mkdir_existing w p :
  is_dir (files w) p = true -> mkdir_exist_ok p w = (Ok tt, w).
Proof. unfold mkdir_exist_ok. now intros ->. Qed.

End ResumeFacts.

Section HTMLExtractorResume.
Import Sys.
Variable urlparse : string -> option UrlParse.ParseResult.
Variable http_get : string -> option response.
Variable parse_html : string -> Soup.node.
Variable to_markup : Soup.node -> string.
Variable prettify : Soup.node -> string.
Variable now : string.
Variable output_dir : path.

Lemma extract_single_url_skips url w :
  well_formed (files w) ->
  already_extracted urlparse output_dir "page.html" (files w) url ->
  HTMLExtractor.extract_single_url urlparse http_get parse_html to_markup
    prettify now output_dir url w = (Ok true, w).
Proof.
  intros Hwf (page_id & e & Hid & Hfile).
  destruct (artifact_found (files w) (join output_dir page_id) "page.html" e
              eq_refl Hwf Hfile) as [Hdir Hexists].
  unfold HTMLExtractor.extract_single_url, try_except, mbind, M_bind,
    HTMLExtractor.create_page_identifier.
  rewrite Hid. unfold mret at 1, M_ret at 1.
  rewrite (mkdir_existing _ _ Hdir), (Hexists w eq_refl).
  reflexivity.
Qed.

Lemma extract_urls_skips urls success failed w :
  well_formed (files w) ->
  Forall (already_extracted urlparse output_dir "page.html" (files w)) urls ->
  HTMLExtractor.extract_urls urlparse http_get parse_html to_markup
    prettify now output_dir urls success failed w
  = (Ok (success + length urls, failed), w).
Proof.
  intros Hwf Hall. revert success.
  induction Hall as [|url urls Hurl _ IH]; intros success; simpl.
  - unfold mret, M_ret. do 3 f_equal. lia.
  - unfold mbind, M_bind at 1.
    rewrite (extract_single_url_skips url w Hwf Hurl), IH.
    do 3 f_equal. lia.
Qed.

End HTMLExtractorResume.

Section HTMLExtractorSummary.
Import Sys.
Variable urlparse : string -> option UrlParse.ParseResult.
Variable http_get : string -> option response.
Variable parse_html : string -> Soup.node.
Variable to_markup : Soup.node -> string.
Variable prettify : Soup.node -> string.
Variable now : string.
Variable output_dir : path.

Lemma write_file_frame p c w :
  fetch_log (write_file p c w).2 = fetch_log w /\
  forall q, q <> p -> files (write_file p c w).2 !! q = files w !! q.
Proof.
  unfold write_file.
  destruct (is_dir (files w) p); [now split|].
  destruct (is_dir (files w) (parent p)); [|now split].
  split; [reflexivity|]. intros q Hq. simpl. now rewrite lookup_insert_ne.
Qed.

Lemma extract_all_no_fetch unique_urls w :
  well_formed (files w) ->
  Forall (already_extracted urlparse output_dir "page.html" (files w))
    (List.filter HTMLExtractor.is_http unique_urls) ->
  let w' := (HTMLExtractor.extract_all urlparse http_get parse_html to_markup
               prettify now output_dir unique_urls w).2 in
  fetch_log w' = fetch_log w /\
  forall q, q <> join output_dir "extraction_summary.json" ->
            files w' !! q = files w !! q.
Proof.
  intros Hwf Hall. unfold HTMLExtractor.extract_all.
  destruct (List.filter HTMLExtractor.is_http unique_urls) as [|url urls] eqn:E;
    [now split|].
  unfold mbind, M_bind. rewrite (extract_urls_skips _ _ _ _ _ _ _ _ 0 0 w Hwf Hall).
  apply write_file_frame.
Qed.

End HTMLExtractorSummary.

Section AnalyzerResume.
Import Sys.
Variable urlparse : string -> option UrlParse.ParseResult.
Variable http_get : string -> option response.
Variable parse_html : string -> Soup.node.
Variable to_markup : Soup.node -> string.
Variable prettify : Soup.node -> string.
Variable now : string.
Variable output_dir : path.
Variable the_strategies : AdvancedComponentAnalyzer.strategies.

Lemma extract_and_analyze_skips url is_dynamic w :
  well_formed (files w) ->
  already_extracted urlparse output_dir "comprehensive_analysis.json"
    (files w) url ->
  AdvancedComponentAnalyzer.extract_and_analyze_single_url urlparse http_get
    parse_html to_markup prettify now output_dir the_strategies
    url is_dynamic w = (Ok true, w).
Proof.
  intros Hwf (page_id & e & Hid & Hfile).
  destruct (artifact_found (files w) (join output_dir page_id)
              "comprehensive_analysis.json" e eq_refl Hwf Hfile)
    as [Hdir Hexists].
  unfold AdvancedComponentAnalyzer.extract_and_analyze_single_url, try_except,
    mbind, M_bind, AdvancedComponentAnalyzer.create_page_identifier.
  rewrite Hid. unfold mret at 1, M_ret at 1.
  rewrite (mkdir_existing _ _ Hdir), (Hexists w eq_refl).
  reflexivity.
Qed.

Lemma analyze_urls_skips urls dynamic_urls success failed w :
  well_formed (files w) ->
  Forall (already_extracted urlparse output_dir "comprehensive_analysis.json"
            (files w)) urls ->
  AdvancedComponentAnalyzer.analyze_urls urlparse http_get parse_html
    to_markup prettify now output_dir the_strategies
    urls dynamic_urls success failed w
  = (Ok (success + length urls, failed), w).
Proof.
  intros Hwf Hall. revert success.
  induction Hall as [|url urls Hurl _ IH]; intros success; simpl.
  - unfold mret, M_ret. do 3 f_equal. lia.
  - unfold mbind, M_bind at 1.
    rewrite (extract_and_analyze_skips url _ w Hwf Hurl), IH.
    do 3 f_equal. lia.
Qed.

End AnalyzerResume.

(** C9: when the primary artifact of a URL's page is on disk
    ([page.html] for [HTMLExtractor], [comprehensive_analysis.json] for
    [AdvancedComponentAnalyzer]), the per-URL operation returns [True] and
    leaves the world as it was: no request is logged and no file or
    directory changes.  A run over a list of such URLs counts every URL as
    a success and makes no request. *)
Theorem idempotent_resume
    (urlparse : string -> option UrlParse.ParseResult)
    (http_get : string -> option Sys.response)
    (parse_html : string -> Soup.node)
    (to_markup prettify : Soup.node -> string)
    (now : string) (output_dir : Sys.path)
    (the_strategies : AdvancedComponentAnalyzer.strategies)
    (w : Sys.world) :
  Sys.well_formed (Sys.files w) ->
  (forall url,
     already_extracted urlparse output_dir "page.html" (Sys.files w) url ->
     HTMLExtractor.extract_single_url urlparse http_get parse_html to_markup
       prettify now output_dir url w = (Sys.Ok true, w)) /\
  (forall url is_dynamic,
     already_extracted urlparse output_dir "comprehensive_analysis.json"
       (Sys.files w) url ->
     AdvancedComponentAnalyzer.extract_and_analyze_single_url urlparse
       http_get parse_html to_markup prettify now output_dir the_strategies
       url is_dynamic w = (Sys.Ok true, w)) /\
  (forall urls success failed,
     Forall (already_extracted urlparse output_dir "page.html" (Sys.files w))
       urls ->
     HTMLExtractor.extract_urls urlparse http_get parse_html to_markup
       prettify now output_dir urls success failed w
     = (Sys.Ok (success + length urls, failed), w)) /\
  (forall urls dynamic_urls success failed,
     Forall (already_extracted urlparse output_dir
               "comprehensive_analysis.json" (Sys.files w)) urls ->
     AdvancedComponentAnalyzer.analyze_urls urlparse http_get parse_html
       to_markup prettify now output_dir the_strategies
       urls dynamic_urls success failed w
     = (Sys.Ok (success + length urls, failed), w)) /\
  (forall unique_urls,
     Forall (already_extracted urlparse output_dir "page.html" (Sys.files w))
       (List.filter HTMLExtractor.is_http unique_urls) ->
     Sys.fetch_log
       (HTMLExtractor.extract_all urlparse http_get parse_html to_markup
          prettify now output_dir unique_urls w).2
     = Sys.fetch_log w).
Proof.
  intros Hwf.
  split; [intros; now apply extract_single_url_skips|].
  split; [intros; now apply extract_and_analyze_skips|].
  split; [intros; now apply extract_urls_skips|].
  split; [intros; now apply analyze_urls_skips|].
  intros unique_urls Hall.
  now apply (extract_all_no_fetch urlparse http_get parse_html to_markup
               prettify now output_dir unique_urls w Hwf).
Qed.

(** A tree holding one extracted page, and a network that never answers. *)
Definition resumed_files : gmap Sys.path Sys.entry :=
  <[ ["extracted_html"; "docs_intro"; "page.html"] :=
       Sys.File (Sys.Text "<html></html>") ]>
  (<[ ["extracted_html"; "docs_intro"] := Sys.Dir ]>
  (<[ ["extracted_html"] := Sys.Dir ]> ∅)).

Definition resumed_world : Sys.world := Sys.mkWorld resumed_files [].

Lemma resumed_files_well_formed : Sys.well_formed resumed_files.
Proof.
  intros p name e. unfold resumed_files.
  rewrite !lookup_insert_Some, lookup_empty.
  intros [[Hp _]|[_ [[Hp _]|[_ [[Hp _]|[_ ?]]]]]]; [| | |discriminate].
  - apply (app_inj_tail ["extracted_html"; "docs_intro"]) in Hp as [<- _].
    reflexivity.
  - apply (app_inj_tail ["extracted_html"]) in Hp as [<- _]. reflexivity.
  - apply (app_inj_tail []) in Hp as [<- _]. reflexivity.
Qed.

Lemma idempotent_resume_witness :
  Sys.well_formed (Sys.files resumed_world) /\
  HTMLExtractor.extract_single_url UrlParse.urlparse_ref (fun _ => None)
    (fun _ => Soup.Text "") (fun _ => "") (fun _ => "") "2025-01-01 00:00:00"
    ["extracted_html"] "http://example.com/docs/intro.html" resumed_world
  = (Sys.Ok true, resumed_world).
Proof.
  split; [exact resumed_files_well_formed|].
  apply (idempotent_resume UrlParse.urlparse_ref (fun _ => None)
           (fun _ => Soup.Text "") (fun _ => "") (fun _ => "")
           "2025-01-01 00:00:00" ["extracted_html"]
           (AdvancedComponentAnalyzer.mkStrategies
              (fun _ _ => AdvancedComponentAnalyzer.Raised "")
              (fun _ _ => AdvancedComponentAnalyzer.Raised "")
              (fun _ _ => AdvancedComponentAnalyzer.Raised "")
              (fun _ _ => AdvancedComponentAnalyzer.Raised "")
              (fun _ _ => AdvancedComponentAnalyzer.Raised "")
              (fun _ _ => AdvancedComponentAnalyzer.Raised "")
              (fun _ _ => AdvancedComponentAnalyzer.Raised "")
              (fun _ _ => AdvancedComponentAnalyzer.Raised ""))
           resumed_world resumed_files_well_formed).
  exists "docs_intro", (Sys.File (Sys.Text "<html></html>")).
  split; reflexivity.
Defined.

(** ** The analysis strategies: isolation *)

(** The entry a strategy contributes to [comprehensive_analysis['strategies']]:
    its result, or the error marker with the text of what it raised. *)
Definition entry_of (o : AdvancedComponentAnalyzer.outcome) : Sys.json :=
  match o with
  | AdvancedComponentAnalyzer.Returned analysis => analysis
  | AdvancedComponentAnalyzer.Raised msg =>
      AdvancedComponentAnalyzer.error_marker msg
  end.

(** The file of a strategy's own result. *)
Definition analysis_path (page_dir : Sys.path) (strategy_name : string)
  : Sys.path :=
  Sys.join page_dir (strategy_name +:+ "_analysis.json").

(** The page directory exists and no result file of the table is a
    directory: every result file can be written. *)
Definition writable (fs : gmap Sys.path Sys.entry) (page_dir : Sys.path)
    (table : list (string * AdvancedComponentAnalyzer.strategy)) : Prop :=
  Sys.is_dir fs page_dir = true /\
  forall name f, (name, f) ∈ table ->
    Sys.is_dir fs (analysis_path page_dir name) = false.

Section StrategyFacts.
Import Sys.

Lemma append_cancel_r s1 s2 t : s1 +:+ t = s2 +:+ t -> s1 = s2.
Proof.
  revert s2. induction s1 as [|c s1 IH]; intros [|d s2] H.
  - reflexivity.
  - apply (f_equal String.length) in H.
    rewrite !str_app_length in H. cbn [String.length] in H. lia.
  - apply (f_equal String.length) in H.
    rewrite !str_app_length in H. cbn [String.length] in H. lia.
  - change (String c (s1 +:+ t) = String d (s2 +:+ t)) in H.
    injection H as -> H. f_equal. now apply IH.
Qed.

Lemma analysis_path_app page_dir name :
  analysis_path page_dir name = page_dir ++ [name +:+ "_analysis.json"].
Proof.
  unfold analysis_path. apply join_file.
  destruct name as [|a [|b name]]; [reflexivity| |];
    simpl; destruct (Ascii.eqb a "."); reflexivity.
Qed.

Lemma analysis_path_inj page_dir n m :
  analysis_path page_dir n = analysis_path page_dir m -> n = m.
Proof.
  rewrite !analysis_path_app. intros H.
  apply app_inv_head in H. injection H as H. now apply append_cancel_r in H.
Qed.

Lemma analysis_path_parent page_dir name :
  parent (analysis_path page_dir name) = page_dir.
Proof. rewrite analysis_path_app. apply removelast_last. Qed.

Lemma analysis_path_not_dir page_dir name :
  analysis_path page_dir name <> page_dir.
Proof.
  rewrite analysis_path_app. intros H.
  apply (f_equal (@length string)) in H. rewrite length_app in H.
  simpl in H. lia.
Qed.

Lemma is_dir_insert_other (fs : gmap path entry) p e q :
  q <> p -> is_dir (<[p := e]> fs) q = is_dir fs q.
Proof. intros H. unfold is_dir. now rewrite lookup_insert_ne. Qed.

Lemma is_dir_insert_file (fs : gmap path entry) p c :
  p <> [] -> is_dir (<[p := File c]> fs) p = false.
Proof.
  intros H. unfold is_dir. rewrite lookup_insert_eq. now destruct p.
Qed.

Lemma write_analysis w page_dir name c :
  is_dir (files w) page_dir = true ->
  is_dir (files w) (analysis_path page_dir name) = false ->
  write_file (analysis_path page_dir name) c w
  = (Ok tt, mkWorld (<[analysis_path page_dir name := File c]> (files w))
              (fetch_log w)).
Proof.
  intros Hdir Hfile. unfold write_file.
  now rewrite Hfile, analysis_path_parent, Hdir.
Qed.

Lemma writable_after_write fs page_dir table name c :
  writable fs page_dir table ->
  writable (<[analysis_path page_dir name := File c]> fs) page_dir table.
Proof.
  intros [Hdir Hfiles]. split.
  - rewrite is_dir_insert_other; [exact Hdir|].
    intros H. symmetry in H. now apply analysis_path_not_dir in H.
  - intros m f Hin.
    destruct (decide (analysis_path page_dir m = analysis_path page_dir name))
      as [->|Hne].
    + apply is_dir_insert_file. rewrite analysis_path_app. now destruct page_dir.
    + rewrite is_dir_insert_other by exact Hne. eauto.
Qed.

Lemma writable_tail fs page_dir entry table :
  writable fs page_dir (entry :: table) -> writable fs page_dir table.
Proof.
  intros [Hdir Hfiles]. split; [exact Hdir|].
  intros name f Hin. apply (Hfiles name f). now right.
Qed.

Variable soup : Soup.node.
Variable url : string.
Variable page_dir : path.

Lemma run_strategies_spec table w :
  writable (files w) page_dir table ->
  NoDup (fst <$> table) ->
  exists w',
    AdvancedComponentAnalyzer.run_strategies table soup url page_dir w
    = (Ok ((fun '(name, f) => (name, entry_of (f soup url))) <$> table), w') /\
    fetch_log w' = fetch_log w /\
    (forall q, (forall name, name ∈ fst <$> table ->
                             q <> analysis_path page_dir name) ->
               files w' !! q = files w !! q) /\
    (forall name f analysis,
        (name, f) ∈ table ->
        f soup url = AdvancedComponentAnalyzer.Returned analysis ->
        files w' !! analysis_path page_dir name = Some (File (Json analysis))).
Proof.
  revert w. induction table as [|[name f] table IH]; intros w Hw Hnd.
  - exists w. split; [reflexivity|]. split; [reflexivity|].
    split; [reflexivity|]. intros name f analysis Hin. inversion Hin.
  - apply NoDup_cons in Hnd as [Hfresh Hnd].
    cbn [AdvancedComponentAnalyzer.run_strategies].
    destruct (f soup url) as [analysis|msg] eqn:Hf.
    + pose proof Hw as [Hdir Hfiles].
      assert (Hfile : is_dir (files w) (analysis_path page_dir name) = false)
        by (apply (Hfiles name f); now left).
      set (w1 := mkWorld (<[analysis_path page_dir name := File (Json analysis)]>
                            (files w)) (fetch_log w)).
      destruct (IH w1) as (w' & Hrun & Hlog & Hframe & Hout).
      { apply writable_after_write. eapply writable_tail, Hw. }
      { exact Hnd. }
      exists w'. unfold mbind, M_bind, try_except.
      fold (analysis_path page_dir name).
      rewrite (write_analysis w page_dir name _ Hdir Hfile).
      fold w1. unfold mret at 1, M_ret at 1. rewrite Hrun.
      split; [cbn; now rewrite Hf|]. split; [exact Hlog|]. split.
      * intros q Hq. rewrite Hframe.
        -- subst w1. cbn. apply lookup_insert_ne. intros E.
           apply (Hq name); [now left|congruence].
        -- intros m Hm. apply Hq. now right.
      * intros m g a [[= -> ->]|Hin]%elem_of_cons Hg.
        -- rewrite Hframe.
           ++ subst w1. cbn. rewrite lookup_insert_eq. congruence.
           ++ intros m Hm E. apply analysis_path_inj in E. subst m.
              contradiction.
        -- eapply Hout; eauto.
    + destruct (IH w) as (w' & Hrun & Hlog & Hframe & Hout).
      { eapply writable_tail, Hw. }
      { exact Hnd. }
      exists w'. unfold mbind, M_bind, try_except, raise.
      unfold mret at 1, M_ret at 1. rewrite Hrun.
      split; [cbn; now rewrite Hf|]. split; [exact Hlog|]. split.
      * intros q Hq. apply Hframe. intros m Hm. apply Hq. now right.
      * intros m g a [[= -> ->]|Hin]%elem_of_cons Hg; [congruence|].
        eapply Hout; eauto.
Qed.

(** What one strategy's entry may be: the error marker of what it raised,
    or its result, or, when its result file cannot be written, the error
    marker of that failure. *)
Definition entry_for (o : AdvancedComponentAnalyzer.outcome) (entry : json)
  : Prop :=
  match o with
  | AdvancedComponentAnalyzer.Raised msg =>
      entry = AdvancedComponentAnalyzer.error_marker msg
  | AdvancedComponentAnalyzer.Returned analysis =>
      entry = analysis \/
      exists os_error, entry = AdvancedComponentAnalyzer.error_marker os_error
  end.

Lemma write_file_cases p c w :
  (exists w1, write_file p c w = (Ok tt, w1) /\ fetch_log w1 = fetch_log w) \/
  (exists msg, write_file p c w = (Exn msg, w)).
Proof.
  unfold write_file.
  destruct (is_dir (files w) p); [right; eauto|].
  destruct (is_dir (files w) (parent p)); [left|right]; eauto.
Qed.

Lemma run_strategies_total table w :
  exists entries w',
    AdvancedComponentAnalyzer.run_strategies table soup url page_dir w
    = (Ok entries, w') /\
    fetch_log w' = fetch_log w /\
    Forall2 (fun strategy entry =>
               entry.1 = strategy.1 /\
               entry_for (strategy.2 soup url) entry.2)
      table entries.
Proof.
  revert w. induction table as [|[name f] table IH]; intros w.
  - exists [], w. repeat split. constructor.
  - cbn [AdvancedComponentAnalyzer.run_strategies].
    unfold mbind, M_bind, try_except.
    destruct (f soup url) as [analysis|msg] eqn:Hf.
    + destruct (write_file_cases
                  (join page_dir (name +:+ "_analysis.json")) (Json analysis) w)
        as [(w1 & -> & Hlog1)|(os_error & ->)].
      * destruct (IH w1) as (entries & w' & Hrun & Hlog & Hall).
        unfold mret at 1, M_ret at 1. rewrite Hrun.
        exists ((name, analysis) :: entries), w'.
        split; [reflexivity|]. split; [congruence|].
        constructor; [|exact Hall]. cbn. rewrite Hf. cbn. auto.
      * destruct (IH w) as (entries & w' & Hrun & Hlog & Hall).
        unfold mret at 1, M_ret at 1. rewrite Hrun.
        exists ((name, AdvancedComponentAnalyzer.error_marker os_error) :: entries), w'.
        split; [reflexivity|]. split; [exact Hlog|].
        constructor; [|exact Hall]. cbn. rewrite Hf. cbn. eauto.
    + destruct (IH w) as (entries & w' & Hrun & Hlog & Hall).
      unfold raise. unfold mret at 1, M_ret at 1. rewrite Hrun.
      exists ((name, AdvancedComponentAnalyzer.error_marker msg) :: entries), w'.
      split; [reflexivity|]. split; [exact Hlog|].
      constructor; [|exact Hall]. cbn. now rewrite Hf.
Qed.

End StrategyFacts.

(** C8: the loop over the eight strategies never raises and makes no
    request, and every strategy contributes the entry of its own outcome,
    whatever the other strategies did: a strategy that raises is caught
    where it is called and its entry is the error marker with the
    exception's text; a strategy that returns has its complete result as
    its entry (unless its own result file cannot be written, which is
    reported in its entry the same way).  When the page directory exists
    and no result file is a directory, the entries are exactly the eight
    outcomes and every returned result is in its own file. *)
Theorem strategy_isolation (s : AdvancedComponentAnalyzer.strategies)
    (soup : Soup.node) (url : string) (page_dir : Sys.path) (w : Sys.world) :
  (exists entries w',
     AdvancedComponentAnalyzer.run_strategies
       (AdvancedComponentAnalyzer.analysis_strategies s) soup url page_dir w
     = (Sys.Ok entries, w') /\
     Sys.fetch_log w' = Sys.fetch_log w /\
     Forall2 (fun strategy entry =>
                entry.1 = strategy.1 /\
                entry_for (strategy.2 soup url) entry.2)
       (AdvancedComponentAnalyzer.analysis_strategies s) entries) /\
  (writable (Sys.files w) page_dir
     (AdvancedComponentAnalyzer.analysis_strategies s) ->
   exists w',
    AdvancedComponentAnalyzer.run_strategies
      (AdvancedComponentAnalyzer.analysis_strategies s) soup url page_dir w
    = (Sys.Ok
         [("semantic",
             entry_of (AdvancedComponentAnalyzer.semantic_analysis s soup url));
          ("structural",
             entry_of (AdvancedComponentAnalyzer.structural_analysis s soup url));
          ("content_type",
             entry_of (AdvancedComponentAnalyzer.content_type_analysis s soup url));
          ("interactive",
             entry_of (AdvancedComponentAnalyzer.interactive_elements_analysis s soup url));
          ("layout",
             entry_of (AdvancedComponentAnalyzer.layout_analysis s soup url));
          ("seo",
             entry_of (AdvancedComponentAnalyzer.seo_analysis s soup url));
          ("accessibility",
             entry_of (AdvancedComponentAnalyzer.accessibility_analysis s soup url));
          ("performance",
             entry_of (AdvancedComponentAnalyzer.performance_analysis s soup url))],
       w') /\
    (forall msg,
       AdvancedComponentAnalyzer.seo_analysis s soup url
         = AdvancedComponentAnalyzer.Raised msg ->
       entry_of (AdvancedComponentAnalyzer.seo_analysis s soup url)
         = Sys.JDict [("error", Sys.JStr msg)]) /\
    (forall name f analysis,
       (name, f) ∈ AdvancedComponentAnalyzer.analysis_strategies s ->
       f soup url = AdvancedComponentAnalyzer.Returned analysis ->
       entry_of (f soup url) = analysis /\
       Sys.files w' !! analysis_path page_dir name
         = Some (Sys.File (Sys.Json analysis)))).
Proof.
  split; [apply run_strategies_total|].
  intros Hw.
  destruct (run_strategies_spec soup url page_dir
              (AdvancedComponentAnalyzer.analysis_strategies s) w Hw)
    as (w' & Hrun & Hlog & _ & Hout).
  { apply (bool_decide_unpack _). vm_compute. exact I. }
  exists w'. split; [exact Hrun|].
  split; [now intros msg ->|].
  intros name f analysis Hin Hf. split; [now rewrite Hf|eauto].
Qed.

(** Seven strategies that return, and an SEO strategy that raises. *)
Definition seo_raises : AdvancedComponentAnalyzer.strategies :=
  AdvancedComponentAnalyzer.mkStrategies
    (fun _ _ => AdvancedComponentAnalyzer.Returned (Sys.JDict [("tags", Sys.JNum 9)]))
    (fun _ _ => AdvancedComponentAnalyzer.Returned (Sys.JDict [("depth", Sys.JNum 4)]))
    (fun _ _ => AdvancedComponentAnalyzer.Returned (Sys.JDict [("words", Sys.JNum 120)]))
    (fun _ _ => AdvancedComponentAnalyzer.Returned (Sys.JDict [("forms", Sys.JNum 1)]))
    (fun _ _ => AdvancedComponentAnalyzer.Returned (Sys.JDict [("grid", Sys.JBool true)]))
    (fun _ _ => AdvancedComponentAnalyzer.Raised "'NoneType' object has no attribute 'get'")
    (fun _ _ => AdvancedComponentAnalyzer.Returned (Sys.JDict [("alt_missing", Sys.JNum 2)]))
    (fun _ _ => AdvancedComponentAnalyzer.Returned (Sys.JDict [("scripts", Sys.JNum 3)])).

Definition analysis_world : Sys.world :=
  Sys.mkWorld
    (<[ ["advanced_extracted_html"; "homepage"] := Sys.Dir ]>
    (<[ ["advanced_extracted_html"] := Sys.Dir ]> ∅)) [].

Lemma analysis_world_writable :
  writable (Sys.files analysis_world) ["advanced_extracted_html"; "homepage"]
    (AdvancedComponentAnalyzer.analysis_strategies seo_raises).
Proof.
  split; [reflexivity|]. intros name f.
  unfold AdvancedComponentAnalyzer.analysis_strategies.
  rewrite !elem_of_cons, elem_of_nil.
  intros [[= -> _]|[[= -> _]|[[= -> _]|[[= -> _]|[[= -> _]|[[= -> _]|
         [[= -> _]|[[= -> _]|[]]]]]]]]]; reflexivity.
Qed.

Lemma seo_failure_is_isolated :
  exists w',
    AdvancedComponentAnalyzer.run_strategies
      (AdvancedComponentAnalyzer.analysis_strategies seo_raises)
      (Soup.Text "") "http://example.com/"
      ["advanced_extracted_html"; "homepage"] analysis_world
    = (Sys.Ok
         [("semantic", Sys.JDict [("tags", Sys.JNum 9)]);
          ("structural", Sys.JDict [("depth", Sys.JNum 4)]);
          ("content_type", Sys.JDict [("words", Sys.JNum 120)]);
          ("interactive", Sys.JDict [("forms", Sys.JNum 1)]);
          ("layout", Sys.JDict [("grid", Sys.JBool true)]);
          ("seo", Sys.JDict
             [("error", Sys.JStr "'NoneType' object has no attribute 'get'")]);
          ("accessibility", Sys.JDict [("alt_missing", Sys.JNum 2)]);
          ("performance", Sys.JDict [("scripts", Sys.JNum 3)])],
       w').
Proof.
  destruct (strategy_isolation seo_raises (Soup.Text "") "http://example.com/"
              ["advanced_extracted_html"; "homepage"] analysis_world)
    as [_ Hwritable].
  destruct (Hwritable analysis_world_writable) as (w' & Hrun & _).
  exists w'. exact Hrun.
Defined.

(** ** Dynamic discovery: delta attribution *)

(** Every logged interaction recorded exactly the links that were absent
    from the baseline accumulated before it. *)
Fixpoint well_attributed (baseline : gset string)
    (log : list (gset string * gset string)) : Prop :=
  match log with
  | [] => True
  | (current_links, new_links) :: log' =>
      new_links = current_links ∖ baseline /\
      well_attributed (baseline ∪ new_links) log'
  end.

(** The baseline after the interactions of a log. *)
Definition baseline_after (baseline : gset string)
    (log : list (gset string * gset string)) : gset string :=
  fold_left (fun b entry => b ∪ entry.2) log baseline.

Section AttributionFacts.

Lemma baseline_after_app b l1 l2 :
  baseline_after b (l1 ++ l2) = baseline_after (baseline_after b l1) l2.
Proof. apply fold_left_app. Qed.

Lemma baseline_after_subseteq b log : b ⊆ baseline_after b log.
Proof.
  revert b. induction log as [|[c n] log IH]; intros b; [done|].
  cbn. etrans; [|apply IH]. set_solver.
Qed.

Lemma well_attributed_app b l1 l2 :
  well_attributed b (l1 ++ l2) <->
  well_attributed b l1 /\ well_attributed (baseline_after b l1) l2.
Proof.
  revert b. induction l1 as [|[c n] l1 IH]; intros b; cbn; [tauto|].
  rewrite IH. tauto.
Qed.

Lemma new_links_fresh b log x :
  well_attributed b log -> x ∈ log.*2 -> x ## b.
Proof.
  revert b. induction log as [|[c n] log IH]; intros b; cbn.
  - intros _ Hx. inversion Hx.
  - intros [-> Hrest] [->|Hx]%elem_of_cons; [set_solver|].
    specialize (IH _ Hrest Hx). set_solver.
Qed.

Lemma new_links_disjoint b log i j x y :
  well_attributed b log -> i < j ->
  log.*2 !! i = Some x -> log.*2 !! j = Some y -> x ## y.
Proof.
  revert b i j. induction log as [|[c n] log IH]; intros b i j Hw Hij Hi Hj.
  - discriminate.
  - destruct Hw as [-> Hrest]. destruct j as [|j]; [lia|].
    destruct i as [|i]; cbn in Hi, Hj.
    + injection Hi as <-.
      assert (y ## b ∪ c ∖ b) as Hy
        by (eapply new_links_fresh; [exact Hrest|eapply list_elem_of_lookup_2, Hj]).
      set_solver.
    + eapply (IH _ i j); eauto. lia.
Qed.

Lemma two_interactions (L0 : gset string) (a b : string) log :
  a ∉ L0 -> b ∉ L0 -> a <> b ->
  well_attributed L0 log ->
  log.*1 = [L0 ∪ {[a]}; L0 ∪ {[a; b]}] ->
  log.*2 = [{[a]}; {[b]}].
Proof.
  intros Ha Hb Hab Hw Hcur.
  destruct log as [|[c1 n1] [|[c2 n2] [|? ?]]]; try discriminate.
  cbn in Hcur. injection Hcur as -> ->.
  destruct Hw as [-> [-> _]]. cbn. f_equal; [|f_equal]; set_solver.
Qed.

End AttributionFacts.

Section DiscoveryFacts.
Variable driver : Type.
Variable extract_links_from_driver : driver -> list string.
Variable query_clickables : driver -> option (list Discovery.web_element).
Variable query_buttons : driver -> option (list Discovery.web_element).
Variable script_click : Discovery.web_element -> driver -> bool * driver.
Variable native_click : Discovery.web_element -> driver -> bool * driver.
Variable back : driver -> bool * driver.
Variable scroll_to_bottom : driver -> bool * driver.
Variable domain : string.

Local Abbreviation state := (Discovery.state driver).

(** From the state [st0] on, the log grew by well-attributed entries and
    the shared baseline is the one they add up to. *)
Definition extends (st0 st : state) : Prop :=
  exists log,
    Discovery.attributed driver st = Discovery.attributed driver st0 ++ log /\
    well_attributed (Discovery.initial_links driver st0) log /\
    Discovery.initial_links driver st
      = baseline_after (Discovery.initial_links driver st0) log.

Lemma extends_refl st : extends st st.
Proof. exists []. rewrite app_nil_r. now repeat split. Qed.

Lemma extends_with_driver st0 st d :
  extends st0 st -> extends st0 (Discovery.with_driver driver st d).
Proof. intros (log & ? & ? & ?). now exists log. Qed.

Lemma extends_attribute st0 st record_found links :
  extends st0 st ->
  extends st0
    (Discovery.attribute driver extract_links_from_driver record_found links st).2.
Proof.
  intros (log & Hlog & Hw & Hbase).
  set (current_links :=
         list_to_set (extract_links_from_driver (Discovery.drv driver st))
         : gset string).
  exists (log ++ [(current_links, current_links ∖ Discovery.initial_links driver st)]).
  unfold Discovery.attribute. fold current_links.
  destruct (decide (current_links ∖ Discovery.initial_links driver st = ∅))
    as [Hempty|Hnew]; cbn.
  - rewrite Hlog, app_assoc. split; [reflexivity|]. split.
    + apply well_attributed_app. split; [exact Hw|].
      cbn. now rewrite <- Hbase.
    + rewrite baseline_after_app. cbn. rewrite <- Hbase, Hempty. set_solver.
  - rewrite Hlog, app_assoc. split; [reflexivity|]. split.
    + apply well_attributed_app. split; [exact Hw|].
      cbn. now rewrite <- Hbase.
    + rewrite baseline_after_app. cbn. now rewrite <- Hbase.
Qed.

Lemma extends_trans st0 st1 st2 :
  extends st0 st1 -> extends st1 st2 -> extends st0 st2.
Proof.
  intros (l1 & H1 & Hw1 & Hb1) (l2 & H2 & Hw2 & Hb2).
  exists (l1 ++ l2). rewrite H2, H1, app_assoc. split; [reflexivity|].
  split.
  - apply well_attributed_app. split; [exact Hw1|]. now rewrite <- Hb1.
  - rewrite baseline_after_app, <- Hb1. exact Hb2.
Qed.

Lemma attribute_extends st0 st record_found links new_links links' st' :
  Discovery.attribute driver extract_links_from_driver record_found links st
    = (new_links, links', st') ->
  extends st0 st -> extends st0 st'.
Proof.
  intros Heq Hext.
  replace st' with
    (Discovery.attribute driver extract_links_from_driver record_found links st).2
    by now rewrite Heq.
  now apply extends_attribute.
Qed.

Local Ltac step :=
  match goal with
  | |- context [match ?x with _ => _ end] => destruct x eqn:?
  | |- context [if ?x then _ else _] => destruct x eqn:?
  end.

Local Ltac close :=
  cbn;
  eauto using extends_with_driver, attribute_extends, extends_refl.

Lemma click_page_extends st0 acc page_text :
  extends st0 acc.2 ->
  extends st0
    (Discovery.click_page driver extract_links_from_driver query_clickables
       script_click native_click back acc page_text).2.
Proof.
  destruct acc as [links st]. cbn [snd]. intros Hext.
  unfold Discovery.click_page.
  repeat step; subst; close.
Qed.

Lemma handle_numbered_pagination_extends st :
  extends st
    (Discovery.handle_numbered_pagination driver extract_links_from_driver
       query_clickables script_click native_click back st).2.
Proof.
  unfold Discovery.handle_numbered_pagination.
  destruct (query_clickables _) as [elements|]; [|apply extends_refl].
  generalize (Discovery.pagination_script elements).
  assert (extends st (([] : list string), st).2) as Hacc by apply extends_refl.
  revert Hacc. generalize (([] : list string), st).
  intros acc Hacc texts. revert acc Hacc.
  induction texts as [|t texts IH]; intros acc Hacc; [exact Hacc|].
  cbn [fold_left]. apply IH. now apply click_page_extends.
Qed.

Lemma repeat_clicks_extends st0 n element acc :
  extends st0 acc.2 ->
  extends st0
    (Discovery.repeat_clicks driver extract_links_from_driver script_click
       n element acc).2.
Proof.
  revert acc. induction n as [|n IH]; intros [[links count] st] Hext;
    [exact Hext|].
  cbn [snd] in Hext. cbn [Discovery.repeat_clicks].
  repeat step; subst; try apply IH; close.
Qed.

Lemma click_element_extends st0 acc element :
  extends st0 acc.2 ->
  extends st0
    (Discovery.click_element driver extract_links_from_driver script_click
       native_click domain acc element).2.
Proof.
  destruct acc as [[links count] st]. cbn [snd]. intros Hext.
  unfold Discovery.click_element.
  repeat step; subst; try apply repeat_clicks_extends; close.
Qed.

Lemma try_selector_extends st0 acc selector :
  extends st0 acc.2 ->
  extends st0
    (Discovery.try_selector driver extract_links_from_driver query_buttons
       script_click native_click domain acc selector).2.
Proof.
  destruct acc as [[links count] st]. cbn [snd]. intros Hext.
  unfold Discovery.try_selector.
  destruct (_ <=? _); [exact Hext|].
  destruct (query_buttons _) as [buttons|]; [|exact Hext].
  generalize (Discovery.interactive_script buttons).
  assert (extends st0 (links, count, st).2) as Hacc by exact Hext.
  revert Hacc. generalize (links, count, st).
  intros acc Hacc elements. revert acc Hacc.
  induction elements as [|e elements IH]; intros acc Hacc; [exact Hacc|].
  cbn [fold_left]. apply IH. now apply click_element_extends.
Qed.

Lemma handle_other_interactions_extends st :
  extends st
    (Discovery.handle_other_interactions driver extract_links_from_driver
       query_buttons script_click native_click scroll_to_bottom domain st).2.
Proof.
  unfold Discovery.handle_other_interactions.
  assert (extends st
            (fold_left
               (Discovery.try_selector driver extract_links_from_driver
                  query_buttons script_click native_click domain)
               Discovery.interactive_selectors ([], 0, st)).2) as Hfold.
  { assert (extends st (([] : list string), 0, st).2) as Hacc
      by apply extends_refl.
    revert Hacc. generalize (([] : list string), 0, st).
    generalize Discovery.interactive_selectors.
    intros selectors. induction selectors as [|s selectors IH];
      intros acc Hacc; [exact Hacc|].
    cbn [fold_left]. apply IH. now apply try_selector_extends. }
  destruct (fold_left _ _ _) as [[links count] st1].
  destruct (Discovery.handle_infinite_scroll _ _ _ _) as [scroll_links d].
  cbn [snd] in *. now apply extends_with_driver.
Qed.

End DiscoveryFacts.


(** A session with two numbered pages: the first click reveals one link,
    the second click shows that link and one more. *)
Definition paging_link (number : string) : Discovery.web_element :=
  Discovery.mkElement number number "#" "" "" "page-link"
    (Some "pagination") None true.

Definition shown_links (clicks : nat) : list string :=
  match clicks with
  | 0 => ["http://example.com/"; "http://example.com/news"]
  | 1 => ["http://example.com/"; "http://example.com/news";
          "http://example.com/news/a"]
  | _ => ["http://example.com/"; "http://example.com/news";
          "http://example.com/news/a"; "http://example.com/news/b"]
  end.

Definition two_page_session : Discovery.state nat :=
  Discovery.mkState nat 0 (list_to_set (shown_links 0)) ∅ [].


(** The same session behind a "Load more" button of the generic phase: the
    button is clicked again as long as links appear, and the clicks that
    follow find nothing new. *)
Definition load_more_button : Discovery.web_element :=
  Discovery.mkElement "Load more" "Load more" "" "" "" "btn load-more"
    None None true.

Example load_more_deltas :
  List.filter (fun delta => negb (bool_decide (delta = ∅)))
    (Discovery.attributed nat
       (Discovery.handle_other_interactions nat shown_links
          (fun _ => Some [load_more_button])
          (fun _ n => (true, S n)) (fun _ n => (true, S n))
          (fun n => (true, n)) "example.com" two_page_session).2).*2
  = [{["http://example.com/news/a"]}; {["http://example.com/news/b"]}].
Proof. vm_compute. reflexivity. Qed.

(** ** The crawl loop: the frontier and the visited set *)

Section CrawlFacts.
Import Crawl.
Variable cfg : config.
Variable crawl_with_requests : string -> nat -> option (page_data * list string).
Variable crawl_with_selenium : string -> nat -> option (page_data * list string).

(** What holds of the crawler's state whenever the loop condition is
    tested. *)
Record frontier_ok (st : crawler) : Prop := mkFrontierOk {
  queue_nodup : NoDup (url_queue st).*1;
  queue_unvisited : forall u, u ∈ (url_queue st).*1 -> u ∉ visited_urls st;
  dispatched_nodup : NoDup (dispatched st);
  visited_dispatched : visited_urls st = list_to_set (dispatched st);
  fetched_dispatched : sublist (fetched st) (dispatched st);
  crawled_bound : length (crawled_data st) <= max_pages cfg;
  crawled_fetched : length (crawled_data st) <= length (fetched st)
}.

Lemma initial_ok base_url : frontier_ok (initial base_url).
Proof.
  split; cbn; try lia.
  - apply NoDup_singleton.
  - set_solver.
  - constructor.
  - reflexivity.
  - constructor.
Qed.

(** A task changes neither the visited set, nor the queue, nor the list of
    dispatched URLs. *)
Record task_frame (u : list string) (st st' : crawler) : Prop := mkTaskFrame {
  frame_visited : visited_urls st' = visited_urls st;
  frame_queue : url_queue st' = url_queue st;
  frame_dispatched : dispatched st' = dispatched st;
  frame_fetched : exists l, fetched st' = fetched st ++ l /\ sublist l u /\
                    length (crawled_data st') <= length (crawled_data st) + length l;
  frame_crawled_grows : length (crawled_data st) <= length (crawled_data st');
  frame_bound : length (crawled_data st) <= max_pages cfg ->
                length (crawled_data st') <= max_pages cfg
}.

Lemma crawl_single_url_frame u d st :
  task_frame [u] st
    (crawl_single_url cfg crawl_with_requests crawl_with_selenium (u, d) st).2.
Proof.
  unfold crawl_single_url.
  destruct (Nat.leb_spec (max_pages cfg) (length (crawled_data st))) as [Hfull|Hroom].
  - split; cbn; try done. exists []. rewrite app_nil_r.
    repeat split; [apply sublist_nil_l|cbn; lia].
  - destruct (fetch_page _ _ _ _ _) as [[page new_links]|]; cbn [snd].
    + cbn [crawled_data].
      destruct (Nat.ltb_spec (length (crawled_data st)) (max_pages cfg)); [|lia].
      split; cbn; try done; try (rewrite ?length_app; cbn; lia).
      exists [u]. repeat split; [done|rewrite length_app; cbn; lia].
    + split; cbn; try done.
      exists [u]. repeat split; [done|cbn; lia].
Qed.

Lemma task_frame_trans u1 u2 st st1 st2 :
  task_frame u1 st st1 -> task_frame u2 st1 st2 -> task_frame (u1 ++ u2) st st2.
Proof.
  intros [Hv1 Hq1 Hd1 (l1 & Hf1 & Hs1 & Hc1) Hg1 Hb1]
         [Hv2 Hq2 Hd2 (l2 & Hf2 & Hs2 & Hc2) Hg2 Hb2].
  split.
  - congruence.
  - congruence.
  - congruence.
  - exists (l1 ++ l2). rewrite Hf2, Hf1, app_assoc. split; [done|].
    split; [now apply sublist_app|]. rewrite length_app. lia.
  - lia.
  - auto.
Qed.

Lemma run_batch_frame batch st :
  task_frame batch.*1 st
    (run_batch cfg crawl_with_requests crawl_with_selenium batch st).2.
Proof.
  revert st. induction batch as [|[u d] batch IH]; intros st; cbn [run_batch].
  - split; try done. exists []. rewrite app_nil_r.
    repeat split; [constructor|cbn; lia].
  - pose proof (crawl_single_url_frame u d st) as H1.
    destruct (crawl_single_url _ _ _ _ _) as [new_links st1]. cbn [snd] in H1.
    specialize (IH st1).
    destruct (run_batch _ _ _ _ _) as [results st2]. cbn [snd] in *.
    apply (task_frame_trans [u] batch.*1 st st1 st2 H1 IH).
Qed.

(** The queue holds distinct URLs, none of them visited. *)
Definition queue_ok (st : crawler) : Prop :=
  NoDup (url_queue st).*1 /\
  forall u, u ∈ (url_queue st).*1 -> u ∉ visited_urls st.

(** Only the queue differs, and it grew at its end. *)
Record queue_frame (st st' : crawler) : Prop := mkQueueFrame {
  qframe_visited : visited_urls st' = visited_urls st;
  qframe_crawled : crawled_data st' = crawled_data st;
  qframe_dispatched : dispatched st' = dispatched st;
  qframe_fetched : fetched st' = fetched st;
  qframe_queue : exists added, url_queue st' = url_queue st ++ added
}.

Lemma queue_frame_refl st : queue_frame st st.
Proof. split; try done. exists []. now rewrite app_nil_r. Qed.

Lemma queue_frame_trans st1 st2 st3 :
  queue_frame st1 st2 -> queue_frame st2 st3 -> queue_frame st1 st3.
Proof.
  intros [? ? ? ? [a1 Ha1]] [? ? ? ? [a2 Ha2]].
  split; try congruence. exists (a1 ++ a2). now rewrite Ha2, Ha1, app_assoc.
Qed.

Lemma enqueue_link_ok d st link :
  queue_ok st ->
  queue_ok (enqueue_link cfg d st link) /\
  queue_frame st (enqueue_link cfg d st link).
Proof.
  intros [Hnd Hun]. unfold enqueue_link.
  destruct (bool_decide (link ∉ visited_urls st)) eqn:Hv;
    [|split; [now split|apply queue_frame_refl]].
  destruct (bool_decide (link ∉ (url_queue st).*1)) eqn:Hq;
    [|split; [now split|apply queue_frame_refl]].
  destruct (_ <? _); [|split; [now split|apply queue_frame_refl]].
  destruct (_ || _); [|split; [now split|apply queue_frame_refl]].
  apply bool_decide_eq_true in Hv, Hq. cbn [andb].
  split; [|split; cbn; try done; eauto].
  split; cbn.
  - rewrite fmap_app. apply NoDup_app. split; [exact Hnd|].
    split; [|apply NoDup_singleton].
    intros x Hx [->|[]%elem_of_nil]%elem_of_cons. contradiction.
  - intros u. rewrite fmap_app, elem_of_app.
    intros [Hu|[->|[]%elem_of_nil]%elem_of_cons]; auto.
Qed.

Lemma enqueue_links_ok d new_links st :
  queue_ok st ->
  queue_ok (fold_left (enqueue_link cfg d) new_links st) /\
  queue_frame st (fold_left (enqueue_link cfg d) new_links st).
Proof.
  revert st. induction new_links as [|link new_links IH]; intros st Hok; cbn.
  - split; [exact Hok|apply queue_frame_refl].
  - destruct (enqueue_link_ok d st link Hok) as [Hok1 Hf1].
    destruct (IH _ Hok1) as [Hok2 Hf2].
    split; [exact Hok2|]. eapply queue_frame_trans; eauto.
Qed.

Lemma enqueue_results_ok results st :
  queue_ok st ->
  queue_ok (enqueue_results cfg results st) /\
  queue_frame st (enqueue_results cfg results st).
Proof.
  unfold enqueue_results.
  revert st. induction results as [|[d new_links] results IH]; intros st Hok; cbn.
  - split; [exact Hok|apply queue_frame_refl].
  - destruct (enqueue_links_ok d new_links st Hok) as [Hok1 Hf1].
    destruct (IH _ Hok1) as [Hok2 Hf2].
    split; [exact Hok2|]. eapply queue_frame_trans; eauto.
Qed.

(** Drawing a batch: the URLs drawn are new, they are marked visited, and
    the queue loses its head. *)
Lemma draw_batch_ok n st batch :
  queue_ok st ->
  NoDup (dispatched st ++ batch.*1) ->
  visited_urls st = list_to_set (dispatched st ++ batch.*1) ->
  queue_ok (draw_batch n st batch).2 /\
  NoDup (dispatched st ++ (draw_batch n st batch).1.*1) /\
  visited_urls (draw_batch n st batch).2
    = list_to_set (dispatched st ++ (draw_batch n st batch).1.*1) /\
  crawled_data (draw_batch n st batch).2 = crawled_data st /\
  dispatched (draw_batch n st batch).2 = dispatched st /\
  fetched (draw_batch n st batch).2 = fetched st /\
  visited_urls st ⊆ visited_urls (draw_batch n st batch).2 /\
  (exists k, url_queue (draw_batch n st batch).2 = drop k (url_queue st)) /\
  (exists drawn, (draw_batch n st batch).1 = batch ++ drawn).
Proof.
  clear cfg crawl_with_requests crawl_with_selenium.
  revert st batch. induction n as [|n IH]; intros st batch Hok Hnd Hvis.
  - cbn. split_and!; try done.
    + now exists 0.
    + exists []. now rewrite app_nil_r.
  - cbn [draw_batch].
    destruct (url_queue st) as [|[u d] rest] eqn:Hqueue.
    + destruct (IH st batch Hok Hnd Hvis)
        as (? & ? & ? & ? & ? & ? & ? & [k Hk] & ?).
      split_and!; try done. exists k. rewrite Hk, Hqueue. now destruct k.
    + destruct Hok as [Hqnd Hqun]. rewrite Hqueue in Hqnd, Hqun.
      cbn in Hqnd, Hqun.
      apply NoDup_cons in Hqnd as [Hu Hrest].
      destruct (decide (u ∈ visited_urls st)) as [Hin|Hnew].
      * exfalso. apply (Hqun u); [now left|exact Hin].
      * set (st1 := mkCrawler ({[u]} ∪ visited_urls st) (crawled_data st) rest
                      (all_discovered_links st) (dispatched st) (fetched st)).
        destruct (IH st1 (batch ++ [(u, d)])) as
          (Hok' & Hnd' & Hvis' & Hc & Hd & Hf & Hsub & [k Hk] & [drawn Hdrawn]).
        { split; cbn; [exact Hrest|].
          intros x Hx. rewrite elem_of_union, elem_of_singleton.
          intros [->|Hv]; [contradiction|]. apply (Hqun x); [now right|exact Hv]. }
        { cbn. rewrite fmap_app, app_assoc. cbn. apply NoDup_app.
          split; [exact Hnd|]. split; [|apply NoDup_singleton].
          intros x Hx [->|[]%elem_of_nil]%elem_of_cons.
          apply Hnew. rewrite Hvis. now apply elem_of_list_to_set. }
        { cbn. rewrite Hvis, fmap_app, app_assoc, (list_to_set_app_L _ [u]).
          cbn. set_solver. }
        cbn in Hc, Hd, Hf, Hsub.
        split_and!; try done.
        -- set_solver.
        -- exists (S k). exact Hk.
        -- exists ((u, d) :: drawn). now rewrite Hdrawn, <- app_assoc.
Qed.

Lemma draw_batch_nonempty n st :
  queue_ok st -> url_queue st <> [] -> 0 < n ->
  (draw_batch n st []).1 <> [].
Proof.
  intros [Hnd Hun] Hq Hn. destruct n as [|n]; [lia|].
  cbn [draw_batch]. destruct (url_queue st) as [|[u d] rest]; [done|].
  cbn in Hnd. apply NoDup_cons in Hnd as [Hu Hrest].
  destruct (decide (u ∈ visited_urls st)) as [Hin|Hnew].
  - exfalso. apply (Hun u); [now left|exact Hin].
  - assert (forall m st1 batch, batch <> [] -> (draw_batch m st1 batch).1 <> [])
      as Hkeep.
    { clear. intros m. induction m as [|m IH]; intros st1 batch Hb; [exact Hb|].
      cbn [draw_batch]. destruct (url_queue st1) as [|[u d] rest]; [now apply IH|].
      destruct (decide _); apply IH; [exact Hb|]. now destruct batch. }
    apply Hkeep. done.
Qed.

Lemma draw_batch_length n st batch :
  length (url_queue (draw_batch n st batch).2) = length (url_queue st) - n.
Proof.
  revert st batch. induction n as [|n IH]; intros st batch; cbn [draw_batch].
  - cbn. lia.
  - destruct (url_queue st) as [|[u d] rest] eqn:E.
    + rewrite IH, E. cbn. lia.
    + destruct (decide _); rewrite IH; cbn; lia.
Qed.

(** A task hands links back only when it added a page record. *)
Lemma crawl_single_url_links u d st :
  (crawl_single_url cfg crawl_with_requests crawl_with_selenium (u, d) st).1 = [] \/
  length (crawled_data
            (crawl_single_url cfg crawl_with_requests crawl_with_selenium
               (u, d) st).2)
  = S (length (crawled_data st)).
Proof.
  unfold crawl_single_url.
  destruct (Nat.leb_spec (max_pages cfg) (length (crawled_data st))); [now left|].
  destruct (fetch_page _ _ _ _ _) as [[page new_links]|]; [|now left].
  right. cbn [snd crawled_data].
  destruct (Nat.ltb_spec (length (crawled_data st)) (max_pages cfg)); [|lia].
  rewrite length_app. cbn. lia.
Qed.

Lemma run_batch_links batch st :
  length (crawled_data
            (run_batch cfg crawl_with_requests crawl_with_selenium batch st).2)
  = length (crawled_data st) ->
  Forall (fun r => r.2 = [])
    (run_batch cfg crawl_with_requests crawl_with_selenium batch st).1.
Proof.
  revert st. induction batch as [|[u d] batch IH]; intros st; cbn [run_batch].
  - constructor.
  - pose proof (crawl_single_url_links u d st) as Hlinks.
    pose proof (crawl_single_url_frame u d st) as Hframe.
    destruct (crawl_single_url _ _ _ _ _) as [new_links st1].
    cbn [fst snd] in Hlinks, Hframe.
    pose proof (run_batch_frame batch st1) as Hframe'.
    specialize (IH st1).
    destruct (run_batch _ _ _ _ _) as [results st2]. cbn [fst snd] in *.
    intros Hsame.
    pose proof (frame_crawled_grows _ _ _ Hframe).
    pose proof (frame_crawled_grows _ _ _ Hframe').
    constructor; [cbn; destruct Hlinks; [done|lia]|].
    apply IH. lia.
Qed.

Lemma enqueue_results_nil results st :
  Forall (fun r => r.2 = []) results -> enqueue_results cfg results st = st.
Proof.
  unfold enqueue_results. intros Hall. revert st.
  induction Hall as [|[d new_links] results Hnil _ IH]; intros st; [done|].
  cbn in Hnil. subst. cbn. apply IH.
Qed.

End CrawlFacts.

Section CrawlLoopFacts.
Import Crawl.
Variable cfg : config.
Variable crawl_with_requests : string -> nat -> option (page_data * list string).
Variable crawl_with_selenium : string -> nat -> option (page_data * list string).

Local Abbreviation step :=
  (crawl_step cfg crawl_with_requests crawl_with_selenium).
Local Abbreviation loop :=
  (crawl_loop cfg crawl_with_requests crawl_with_selenium).

Lemma frontier_queue_ok st : frontier_ok cfg st -> queue_ok st.
Proof. intros H. split; [apply H|apply H]. Qed.

(** One pass keeps the invariant, only adds to the visited set and to the
    list of dispatched URLs, and ends in [break] only on an empty batch. *)
Lemma crawl_step_ok st :
  frontier_ok cfg st ->
  frontier_ok cfg (step st).2 /\
  visited_urls st ⊆ visited_urls (step st).2 /\
  (exists batch, dispatched (step st).2 = dispatched st ++ batch) /\
  length (crawled_data st) <= length (crawled_data (step st).2).
Proof.
  intros Hok. unfold crawl_step.
  pose proof (draw_batch_ok (Nat.min 3 (length (url_queue st))) st []
                (frontier_queue_ok st Hok)) as Hdraw.
  rewrite app_nil_r in Hdraw.
  specialize (Hdraw (dispatched_nodup _ _ Hok) (visited_dispatched _ _ Hok)).
  destruct (draw_batch _ _ _) as [batch st1]. cbn [fst snd] in Hdraw.
  destruct Hdraw as (Hq1 & Hnd1 & Hv1 & Hc1 & Hd1 & Hf1 & Hsub & _ & _).
  destruct batch as [|task batch].
  - cbn [snd]. cbn in Hnd1, Hv1. rewrite app_nil_r in Hnd1, Hv1.
    split_and!.
    + destruct Hq1. split; try done; rewrite ?Hd1, ?Hf1, ?Hc1; try apply Hok.
      now rewrite Hv1.
    + exact Hsub.
    + exists []. now rewrite app_nil_r.
    + now rewrite Hc1.
  - set (batch' := task :: batch) in *.
    set (st2 := mkCrawler (visited_urls st1) (crawled_data st1) (url_queue st1)
                  (all_discovered_links st1) (dispatched st1 ++ batch'.*1)
                  (fetched st1)).
    pose proof (run_batch_frame cfg crawl_with_requests crawl_with_selenium
                  batch' st2) as Hrun.
    destruct (run_batch _ _ _ _ _) as [results st3]. cbn [snd] in Hrun |- *.
    destruct Hrun as [Hv3 Hq3 Hd3 (l & Hf3 & Hl & Hc3) Hg3 Hb3].
    cbn in Hv3, Hq3, Hd3, Hf3, Hc3, Hg3, Hb3.
    assert (queue_ok st3) as Hok3.
    { destruct Hq1 as [? ?]. split; rewrite Hq3, ?Hv3; done. }
    destruct (enqueue_results_ok cfg results st3 Hok3)
      as [[Hnd4 Hun4] [Hv4 Hc4 Hd4 Hf4 _]].
    split_and!.
    + split; try done.
      * rewrite Hd4, Hd3, Hd1. exact Hnd1.
      * rewrite Hv4, Hv3, Hv1, Hd4, Hd3, Hd1. done.
      * rewrite Hf4, Hf3, Hd4, Hd3, Hf1, Hd1. apply sublist_app; [apply Hok|exact Hl].
      * rewrite Hc4. apply Hb3. rewrite Hc1. apply Hok.
      * rewrite Hc4, Hf4, Hf3, length_app, Hf1.
        pose proof (crawled_fetched _ _ Hok). rewrite Hc1 in Hc3. lia.
    + rewrite Hv4, Hv3. exact Hsub.
    + exists batch'.*1. now rewrite Hd4, Hd3, Hd1.
    + rewrite Hc4. rewrite <- Hc1. exact Hg3.
Qed.

Lemma crawl_step_continues st :
  frontier_ok cfg st -> continues cfg st = true -> (step st).1 = true.
Proof.
  intros Hok Hcont. unfold crawl_step.
  pose proof (draw_batch_nonempty (Nat.min 3 (length (url_queue st))) st
                (frontier_queue_ok st Hok)) as Hne.
  unfold continues in Hcont. apply andb_true_iff in Hcont as [Hq _].
  apply negb_true_iff, bool_decide_eq_false in Hq.
  specialize (Hne Hq).
  destruct (draw_batch _ _ _) as [batch st1]. cbn [fst] in Hne.
  destruct batch as [|task batch].
  - exfalso. apply Hne; [|done]. destruct (url_queue st); [done|cbn; lia].
  - now destruct (run_batch _ _ _ _ _).
Qed.

(** A pass adds a page record or shortens the queue. *)
Lemma crawl_step_progress st :
  frontier_ok cfg st -> continues cfg st = true ->
  length (crawled_data st) < length (crawled_data (step st).2) \/
  (length (crawled_data (step st).2) = length (crawled_data st) /\
   length (url_queue (step st).2) < length (url_queue st)).
Proof.
  intros Hok Hcont.
  pose proof (crawl_step_ok st Hok) as (_ & _ & _ & Hgrow).
  destruct (decide (length (crawled_data (step st).2) = length (crawled_data st)))
    as [Hsame|Hmore]; [right; split; [exact Hsame|]|left; lia].
  unfold continues in Hcont. apply andb_true_iff in Hcont as [Hq _].
  apply negb_true_iff, bool_decide_eq_false in Hq.
  revert Hsame. unfold crawl_step.
  pose proof (draw_batch_length (Nat.min 3 (length (url_queue st))) st []) as Hlen.
  pose proof (draw_batch_ok (Nat.min 3 (length (url_queue st))) st []
                (frontier_queue_ok st Hok)) as Hdraw.
  rewrite app_nil_r in Hdraw.
  specialize (Hdraw (dispatched_nodup _ _ Hok) (visited_dispatched _ _ Hok)).
  destruct (draw_batch _ _ _) as [batch st1]. cbn [fst snd] in Hdraw, Hlen.
  destruct Hdraw as (Hq1 & _ & _ & Hc1 & _).
  assert (length (url_queue st1) < length (url_queue st)) as Hshorter.
  { destruct (url_queue st); [done|]. cbn in Hlen |- *. lia. }
  destruct batch as [|task batch]; [cbn; intros; exact Hshorter|].
  set (batch' := task :: batch).
  set (st2 := mkCrawler _ _ _ _ _ _).
  pose proof (run_batch_links cfg crawl_with_requests crawl_with_selenium
                batch' st2) as Hlinks.
  pose proof (run_batch_frame cfg crawl_with_requests crawl_with_selenium
                batch' st2) as Hrun.
  destruct (run_batch _ _ _ _ _) as [results st3]. cbn [fst snd] in *.
  assert (queue_ok st3) as Hok3.
  { destruct Hrun as [Hv3 Hq3 _ _ _ _]. cbn in Hv3, Hq3.
    destruct Hq1. split; rewrite Hq3, ?Hv3; done. }
  destruct (enqueue_results_ok cfg results st3 Hok3) as [_ [_ Hc4 _ _ _]].
  intros Hsame. rewrite Hc4 in Hsame.
  rewrite (enqueue_results_nil cfg results st3).
  - rewrite (frame_queue _ _ _ _ Hrun). exact Hshorter.
  - apply Hlinks. cbn. rewrite Hsame. now rewrite Hc1.
Qed.

End CrawlLoopFacts.

Section CrawlTermination.
Import Crawl.
Variable cfg : config.
Variable crawl_with_requests : string -> nat -> option (page_data * list string).
Variable crawl_with_selenium : string -> nat -> option (page_data * list string).

Local Abbreviation step :=
  (crawl_step cfg crawl_with_requests crawl_with_selenium).
Local Abbreviation loop :=
  (crawl_loop cfg crawl_with_requests crawl_with_selenium).

Lemma crawl_loop_unfold fuel st :
  frontier_ok cfg st ->
  loop (S fuel) st = if continues cfg st then loop fuel (step st).2 else Some st.
Proof.
  intros Hok. cbn [crawl_loop].
  destruct (continues cfg st) eqn:Hcont; [|done].
  pose proof (crawl_step_continues cfg crawl_with_requests crawl_with_selenium
                st Hok Hcont) as Hagain.
  destruct (step st) as [again st1]. cbn in Hagain. now subst.
Qed.

(** From a state of the loop the crawl ends: each pass adds a page record,
    of which there can be at most [max_pages], or shortens the queue. *)
Lemma crawl_loop_terminates st :
  frontier_ok cfg st -> exists fuel st', loop fuel st = Some st'.
Proof.
  remember (max_pages cfg - length (crawled_data st)) as room eqn:Hroom.
  remember (length (url_queue st)) as waiting eqn:Hwaiting.
  revert waiting st Hroom Hwaiting.
  induction (lt_wf room) as [room _ IHroom].
  intros waiting. induction (lt_wf waiting) as [waiting _ IHwaiting].
  intros st -> -> Hok.
  destruct (continues cfg st) eqn:Hcont.
  - pose proof (crawl_step_ok cfg crawl_with_requests crawl_with_selenium st Hok)
      as (Hok' & _).
    pose proof (crawl_step_progress cfg crawl_with_requests crawl_with_selenium
                  st Hok Hcont) as Hprogress.
    assert (length (crawled_data st) < max_pages cfg) as Hlt.
    { unfold continues in Hcont. apply andb_true_iff in Hcont as [_ H].
      now apply Nat.ltb_lt in H. }
    assert (exists fuel st', loop fuel (step st).2 = Some st') as (fuel & st' & Hrun).
    { destruct Hprogress as [Hmore|[Hsame Hshorter]].
      - eapply (IHroom (max_pages cfg - length (crawled_data (step st).2)));
          [lia|reflexivity|reflexivity|exact Hok'].
      - eapply (IHwaiting (length (url_queue (step st).2)));
          [exact Hshorter|now rewrite Hsame|reflexivity|exact Hok']. }
    exists (S fuel), st'. rewrite crawl_loop_unfold by exact Hok.
    now rewrite Hcont.
  - exists 1, st. cbn. now rewrite Hcont.
Qed.

(** More fuel does not change the result. *)
Lemma crawl_loop_more_fuel fuel fuel' st st' :
  loop fuel st = Some st' -> fuel <= fuel' -> loop fuel' st = Some st'.
Proof.
  revert fuel' st. induction fuel as [|fuel IH]; intros fuel' st Hrun Hle;
    [discriminate|].
  destruct fuel' as [|fuel']; [lia|]. cbn [crawl_loop] in *.
  destruct (continues cfg st); [|exact Hrun].
  destruct (step st) as [[] st1]; [|exact Hrun].
  apply IH; [exact Hrun|lia].
Qed.

(** The final state satisfies the invariant and fails the loop condition;
    the visited set and the dispatch list only grew. *)
Lemma crawl_loop_final fuel st st' :
  frontier_ok cfg st -> loop fuel st = Some st' ->
  frontier_ok cfg st' /\ continues cfg st' = false /\
  visited_urls st ⊆ visited_urls st' /\
  (exists later, dispatched st' = dispatched st ++ later).
Proof.
  revert st. induction fuel as [|fuel IH]; intros st Hok Hrun; [discriminate|].
  rewrite crawl_loop_unfold in Hrun by exact Hok.
  destruct (continues cfg st) eqn:Hcont.
  - pose proof (crawl_step_ok cfg crawl_with_requests crawl_with_selenium st Hok)
      as (Hok' & Hsub & [batch Hbatch] & _).
    destruct (IH _ Hok' Hrun) as (Hfinal & Hstop & Hsub' & [later Hlater]).
    split_and!; try done.
    + set_solver.
    + exists (batch ++ later). now rewrite Hlater, Hbatch, app_assoc.
  - injection Hrun as <-. split_and!; try done.
    exists []. now rewrite app_nil_r.
Qed.

Lemma continues_false st :
  continues cfg st = false ->
  url_queue st = [] \/ max_pages cfg <= length (crawled_data st).
Proof.
  unfold continues. intros [H|H]%andb_false_iff.
  - left. now apply negb_false_iff, bool_decide_eq_true in H.
  - right. now apply Nat.ltb_ge in H.
Qed.

End CrawlTermination.


(** ** The crawl loop on a closed set of pages *)

(** Every page of [pages] can be fetched, and links to every other page of
    [pages] and to nothing else. *)
Definition complete_graph (cfg : Crawl.config)
    (crawl_with_requests crawl_with_selenium :
       string -> nat -> option (Crawl.page_data * list string))
    (pages : list string) : Prop :=
  forall u d, u ∈ pages ->
    exists page new_links,
      Crawl.fetch_page cfg crawl_with_requests crawl_with_selenium u d
        = Some (page, new_links) /\
      (forall l, l ∈ new_links -> l ∈ pages) /\
      (forall l, l ∈ pages -> l <> u -> l ∈ new_links).

(** Every page is visited or queued, and nothing else is. *)
Definition covers (pages : list string) (st : Crawl.crawler) : Prop :=
  forall x, x ∈ pages <-> x ∈ Crawl.visited_urls st \/ x ∈ (Crawl.url_queue st).*1.

Section ClosedCrawl.
Import Crawl.
Variable cfg : config.
Variable crawl_with_requests : string -> nat -> option (page_data * list string).
Variable crawl_with_selenium : string -> nat -> option (page_data * list string).
Variable pages : list string.
Hypothesis pages_nodup : NoDup pages.
Hypothesis pages_complete :
  complete_graph cfg crawl_with_requests crawl_with_selenium pages.

Local Abbreviation step :=
  (crawl_step cfg crawl_with_requests crawl_with_selenium).

Lemma covers_count st :
  frontier_ok cfg st -> covers pages st ->
  length (dispatched st) + length (url_queue st) = length pages.
Proof.
  intros Hok Hcov.
  rewrite <- (length_fmap fst (url_queue st)), <- length_app.
  apply Permutation_length, NoDup_Permutation; [|exact pages_nodup|].
  - apply NoDup_app. split; [apply Hok|]. split; [|apply Hok].
    intros x Hd Hq. apply (queue_unvisited _ _ Hok x Hq).
    rewrite (visited_dispatched _ _ Hok). now apply elem_of_list_to_set.
  - intros x. rewrite elem_of_app, (Hcov x), (visited_dispatched _ _ Hok),
      elem_of_list_to_set. done.
Qed.

(** Drawing [n] URLs from a queue of distinct unvisited URLs takes its first
    [n] entries. *)
Lemma draw_batch_exact n st batch :
  queue_ok st ->
  (draw_batch n st batch).1 = batch ++ take n (url_queue st) /\
  url_queue (draw_batch n st batch).2 = drop n (url_queue st) /\
  visited_urls (draw_batch n st batch).2
    = visited_urls st ∪ list_to_set (take n (url_queue st)).*1.
Proof.
  clear. revert st batch. induction n as [|n IH]; intros st batch [Hnd Hun].
  - rewrite take_0, drop_0, app_nil_r. cbn [draw_batch fst snd].
    split_and!; [done|done|]. rewrite fmap_nil, list_to_set_nil. now rewrite union_empty_r_L.
  - cbn [draw_batch]. destruct (url_queue st) as [|[u d] rest] eqn:E.
    + destruct (IH st batch) as (H1 & H2 & H3); [split; rewrite E; done|].
      rewrite E in H1, H2, H3. rewrite H1, H2, H3.
      now rewrite take_nil, drop_nil.
    + cbn in Hnd. apply NoDup_cons in Hnd as [Hu Hrest].
      destruct (decide (u ∈ visited_urls st)) as [Hin|Hnew];
        [exfalso; apply (Hun u); [now left|exact Hin]|].
      set (st1 := mkCrawler _ _ _ _ _ _).
      destruct (IH st1 (batch ++ [(u, d)])) as (H1 & H2 & H3).
      { split; cbn; [exact Hrest|].
        intros x Hx. rewrite elem_of_union, elem_of_singleton.
        intros [->|Hv]; [contradiction|]. apply (Hun x); [now right|exact Hv]. }
      cbn in H1, H2, H3. rewrite H1, H2, H3. cbn.
      rewrite <- app_assoc. split_and!; [done|done|set_solver].
Qed.

(** The tasks of a batch of pages: each adds a record while the budget
    lasts, and hands back links to pages only. *)
Lemma run_batch_counts batch st :
  (forall u, u ∈ batch.*1 -> u ∈ pages) ->
  length (crawled_data st) <= max_pages cfg ->
  let r := run_batch cfg crawl_with_requests crawl_with_selenium batch st in
  length (crawled_data r.2)
    = Nat.min (max_pages cfg) (length (crawled_data st) + length batch) /\
  length (fetched r.2) + length (crawled_data st)
    = length (fetched st) + length (crawled_data r.2) /\
  Forall (fun result => forall l, l ∈ result.2 -> l ∈ pages) r.1.
Proof.
  revert st. induction batch as [|[u d] batch IH]; intros st Hin Hbound r;
    subst r.
  - cbn. split_and!; [lia|lia|constructor].
  - cbn [run_batch].
    assert (u ∈ pages) as Hu by (apply Hin; now left).
    destruct (pages_complete u d Hu) as (page & new_links & Hfetch & Hsub & _).
    pose proof (crawl_single_url_frame cfg crawl_with_requests
                  crawl_with_selenium u d st) as Hframe.
    assert (length (crawled_data
              (crawl_single_url cfg crawl_with_requests crawl_with_selenium
                 (u, d) st).2)
            = Nat.min (max_pages cfg) (S (length (crawled_data st))) /\
            length (fetched
              (crawl_single_url cfg crawl_with_requests crawl_with_selenium
                 (u, d) st).2) + length (crawled_data st)
            = length (fetched st) + length (crawled_data
              (crawl_single_url cfg crawl_with_requests crawl_with_selenium
                 (u, d) st).2) /\
            (forall l, l ∈ (crawl_single_url cfg crawl_with_requests
                              crawl_with_selenium (u, d) st).1 -> l ∈ pages))
      as (Hc1 & Hf1 & Hl1).
    { unfold crawl_single_url.
      destruct (Nat.leb_spec (max_pages cfg) (length (crawled_data st))).
      - cbn. split_and!; [lia|lia|]. intros l Hl. inversion Hl.
      - rewrite Hfetch. cbn [fst snd crawled_data fetched].
        destruct (Nat.ltb_spec (length (crawled_data st)) (max_pages cfg)); [|lia].
        rewrite !length_app. cbn [length]. split_and!; [lia|lia|].
        destruct (_ || _); [exact Hsub|]. intros l Hl. inversion Hl. }
    destruct (crawl_single_url _ _ _ _ _) as [links1 st1].
    cbn [fst snd] in Hc1, Hf1, Hl1, Hframe.
    destruct (IH st1) as (Hc2 & Hf2 & Hl2).
    { intros x Hx. apply Hin. now right. }
    { apply (frame_bound _ _ _ _ Hframe Hbound). }
    destruct (run_batch _ _ _ _ _) as [results st2]. cbn [fst snd length] in *.
    split_and!; [lia|lia|].
    constructor; [exact Hl1|exact Hl2].
Qed.

(** Links to pages that are all visited or queued add nothing. *)
Lemma enqueue_results_closed results st :
  covers pages st ->
  Forall (fun result => forall l, l ∈ result.2 -> l ∈ pages) results ->
  enqueue_results cfg results st = st.
Proof.
  intros Hcov Hall. unfold enqueue_results. revert st Hcov.
  induction Hall as [|[d new_links] results Hlinks _ IH]; intros st Hcov;
    [done|].
  cbn [fold_left]. cbn in Hlinks.
  assert (fold_left (enqueue_link cfg d) new_links st = st) as ->; [|now apply IH].
  clear IH. induction new_links as [|l new_links IHl]; [done|].
  cbn [fold_left].
  assert (enqueue_link cfg d st l = st) as ->.
  { unfold enqueue_link.
    destruct (Hcov l) as [[Hv|Hq] _]; [apply Hlinks; now left| |].
    - rewrite (bool_decide_eq_false_2 (l ∉ visited_urls st)); [done|]. auto.
    - rewrite (bool_decide_eq_false_2 (l ∉ (url_queue st).*1)); [|auto].
      now rewrite andb_false_r. }
  apply IHl. intros x Hx. apply Hlinks. now right.
Qed.

Lemma min3_nonempty {A} (l : list A) : l <> [] -> take (Nat.min 3 (length l)) l <> [].
Proof. destruct l; [done|]. intros _. cbn. destruct l as [|? [|? ?]]; done. Qed.

(** A pass over a covered set of pages: the first three queued pages (or
    all, when fewer) are dispatched, each gets a record while the budget
    lasts, and nothing is added to the queue. *)
Lemma closed_step st :
  frontier_ok cfg st -> covers pages st -> continues cfg st = true ->
  frontier_ok cfg (step st).2 /\
  covers pages (step st).2 /\
  length (dispatched (step st).2)
    = length (dispatched st) + Nat.min 3 (length (url_queue st)) /\
  length (crawled_data (step st).2)
    = Nat.min (max_pages cfg)
        (length (crawled_data st) + Nat.min 3 (length (url_queue st))) /\
  length (fetched (step st).2) + length (crawled_data st)
    = length (fetched st) + length (crawled_data (step st).2).
Proof.
  intros Hok Hcov Hcont.
  split; [now apply crawl_step_ok|].
  assert (url_queue st <> []) as Hq.
  { unfold continues in Hcont. apply andb_true_iff in Hcont as [Hq _].
    now apply negb_true_iff, bool_decide_eq_false in Hq. }
  unfold crawl_step.
  set (k := Nat.min 3 (length (url_queue st))).
  pose proof (draw_batch_exact k st [] (frontier_queue_ok cfg st Hok))
    as (Hbatch & Hqueue1 & Hvisited1).
  pose proof (draw_batch_ok k st [] (frontier_queue_ok cfg st Hok)) as Hdraw.
  rewrite app_nil_r in Hdraw.
  specialize (Hdraw (dispatched_nodup _ _ Hok) (visited_dispatched _ _ Hok)).
  destruct (draw_batch k st []) as [batch st1]. cbn [fst snd] in *.
  destruct Hdraw as (_ & _ & _ & Hc1 & Hd1 & Hf1 & _).
  rewrite app_nil_l in Hbatch.
  assert (batch <> []) as Hne by (rewrite Hbatch; now apply min3_nonempty).
  destruct batch as [|task batch]; [done|].
  set (batch' := task :: batch) in *.
  set (st2 := mkCrawler _ _ _ _ _ _).
  assert (forall u, u ∈ batch'.*1 -> u ∈ pages) as Hpages.
  { intros u Hu. apply Hcov. right. rewrite Hbatch in Hu.
    apply list_elem_of_fmap in Hu as (x & -> & Hx).
    apply list_elem_of_fmap. exists x. split; [done|].
    eapply subseteq_take, Hx. }
  pose proof (run_batch_counts batch' st2 Hpages) as Hcounts.
  pose proof (run_batch_frame cfg crawl_with_requests crawl_with_selenium
                batch' st2) as Hframe.
  cbn zeta in Hcounts.
  destruct (run_batch _ _ _ _ _) as [results st3]. cbn [fst snd] in *.
  destruct Hcounts as (Hc3 & Hf3 & Hclosed);
    [cbn; rewrite Hc1; apply Hok|].
  destruct Hframe as [Hv3 Hq3 Hd3 _ _ _]. cbn in Hv3, Hq3, Hd3, Hc3, Hf3.
  assert (covers pages st3) as Hcov3.
  { intros x. rewrite Hv3, Hq3, Hvisited1, Hqueue1, (Hcov x).
    rewrite <- (take_drop k (url_queue st)) at 1.
    rewrite fmap_app, elem_of_app, elem_of_union, elem_of_list_to_set. tauto. }
  rewrite (enqueue_results_closed results st3 Hcov3 Hclosed).
  split; [exact Hcov3|].
  assert (length batch' = k) as Hk.
  { rewrite Hbatch, length_take. subst k. lia. }
  clearbody k.
  split_and!.
  - rewrite Hd3, length_app, Hd1. subst batch'. cbn [length] in Hk |- *.
    cbn. rewrite ?length_fmap. lia.
  - rewrite Hc1 in Hc3. subst batch'. cbn [length] in Hk, Hc3. lia.
  - rewrite Hc1, Hf1 in Hf3. lia.
Qed.

(** With the budget not exhausted, the links of a page that are not yet
    visited are all queued. *)
Lemma enqueue_links_members d new_links st :
  length (crawled_data st) < max_pages cfg ->
  exhaustive cfg = true \/ d + 1 <= max_depth cfg ->
  let st' := fold_left (enqueue_link cfg d) new_links st in
  visited_urls st' = visited_urls st /\
  crawled_data st' = crawled_data st /\
  dispatched st' = dispatched st /\
  fetched st' = fetched st /\
  forall x, x ∈ (url_queue st').*1 <->
            x ∈ (url_queue st).*1 \/ (x ∈ new_links /\ x ∉ visited_urls st).
Proof.
  clear pages_nodup pages_complete. clear crawl_with_requests crawl_with_selenium pages.
  intros Hroom Hdepth. revert st Hroom.
  induction new_links as [|l new_links IH]; intros st Hroom st'; subst st'.
  - cbn. split_and!; try done. intros x. rewrite elem_of_nil. tauto.
  - cbn [fold_left].
    assert (visited_urls (enqueue_link cfg d st l) = visited_urls st /\
            crawled_data (enqueue_link cfg d st l) = crawled_data st /\
            dispatched (enqueue_link cfg d st l) = dispatched st /\
            fetched (enqueue_link cfg d st l) = fetched st /\
            forall x, x ∈ (url_queue (enqueue_link cfg d st l)).*1 <->
                      x ∈ (url_queue st).*1 \/ (x = l /\ x ∉ visited_urls st))
      as (Hv & Hc & Hd & Hf & Hq).
    { unfold enqueue_link.
      apply Nat.ltb_lt in Hroom. rewrite Hroom, andb_true_r.
      assert (exhaustive cfg || (d + 1 <=? max_depth cfg) = true) as ->.
      { destruct Hdepth as [->|H]; [done|].
        apply Nat.leb_le in H. rewrite H. apply orb_true_r. }
      destruct (decide (l ∈ visited_urls st)) as [Hin|Hnew].
      - rewrite (bool_decide_eq_false_2 (l ∉ visited_urls st)) by auto.
        cbn. split_and!; try done. intros x. split; [auto|].
        intros [?|[-> ?]]; [done|contradiction].
      - rewrite (bool_decide_eq_true_2 (l ∉ visited_urls st)) by auto.
        destruct (decide (l ∈ (url_queue st).*1)) as [Hq|Hq].
        + rewrite (bool_decide_eq_false_2 (l ∉ (url_queue st).*1)) by auto.
          cbn. split_and!; try done. intros x. split; [auto|].
          intros [?|[-> ?]]; done.
        + rewrite (bool_decide_eq_true_2 (l ∉ (url_queue st).*1)) by auto.
          cbn. split_and!; try done. intros x.
          rewrite fmap_app, elem_of_app. cbn.
          rewrite elem_of_cons, elem_of_nil. split.
          * intros [?|[->|[]]]; auto.
          * intros [?|[-> ?]]; auto. }
    destruct (IH (enqueue_link cfg d st l)) as (Hv' & Hc' & Hd' & Hf' & Hq');
      [now rewrite Hc|].
    split_and!; try congruence.
    intros x. rewrite Hq', Hq, Hv, elem_of_cons. tauto.
Qed.

End ClosedCrawl.

Section FirstPass.
Import Crawl.
Variable cfg : config.
Variable crawl_with_requests : string -> nat -> option (page_data * list string).
Variable crawl_with_selenium : string -> nat -> option (page_data * list string).
Variable pages : list string.
Hypothesis pages_complete :
  complete_graph cfg crawl_with_requests crawl_with_selenium pages.

Local Abbreviation step :=
  (crawl_step cfg crawl_with_requests crawl_with_selenium).

(** The first pass fetches the base URL and queues every other page. *)
Lemma first_step base_url :
  base_url ∈ pages -> 2 <= max_pages cfg ->
  exhaustive cfg = true \/ 1 <= max_depth cfg ->
  covers pages (step (initial base_url)).2 /\
  length (dispatched (step (initial base_url)).2) = 1 /\
  length (crawled_data (step (initial base_url)).2) = 1 /\
  length (fetched (step (initial base_url)).2) = 1.
Proof.
  intros Hbase Hbudget Hdepth.
  pose proof (initial_ok cfg base_url) as Hok.
  unfold crawl_step.
  change (Nat.min 3 (length (url_queue (initial base_url)))) with 1.
  pose proof (draw_batch_exact 1 (initial base_url) []
                (frontier_queue_ok cfg _ Hok)) as (Hbatch & Hqueue1 & Hvisited1).
  pose proof (draw_batch_ok 1 (initial base_url) []
                (frontier_queue_ok cfg _ Hok)) as Hdraw.
  rewrite app_nil_r in Hdraw.
  specialize (Hdraw (dispatched_nodup _ _ Hok) (visited_dispatched _ _ Hok)).
  destruct (draw_batch 1 (initial base_url) []) as [batch st1].
  cbn [fst snd] in *.
  destruct Hdraw as (_ & _ & _ & Hc1 & Hd1 & Hf1 & _).
  cbn in Hbatch, Hqueue1, Hvisited1, Hc1, Hd1, Hf1. subst batch.
  cbn [run_batch fmap list_fmap fst].
  destruct (pages_complete base_url 0 Hbase)
    as (page & new_links & Hfetch & Hsub & Hall).
  unfold crawl_single_url. cbn [crawled_data fetched visited_urls url_queue
    all_discovered_links dispatched].
  rewrite Hc1, Hfetch. cbn [length].
  destruct (Nat.leb_spec (max_pages cfg) 0) as [|_]; [lia|].
  destruct (Nat.ltb_spec 0 (max_pages cfg)) as [_|]; [|lia].
  assert (exhaustive cfg || (0 <? max_depth cfg) = true) as ->.
  { destruct Hdepth as [->|H]; [done|].
    apply Nat.ltb_lt in H. rewrite H. apply orb_true_r. }
  cbn [enqueue_results fold_left].
  set (st3 := mkCrawler _ _ _ _ _ _).
  destruct (enqueue_links_members cfg 0 new_links st3)
    as (Hv4 & Hc4 & Hd4 & Hf4 & Hq4).
  { cbn. lia. }
  { destruct Hdepth; [now left|right; cbn; lia]. }
  cbn zeta in Hv4, Hc4, Hd4, Hf4, Hq4.
  cbn [snd]. unfold covers.
  split_and!.
  - intros x. rewrite Hq4, Hv4. subst st3. cbn [visited_urls url_queue].
    rewrite Hvisited1, Hqueue1. cbn.
    rewrite elem_of_nil.
    assert (x ∈ (∅ ∪ list_to_set [base_url] : gset string) <-> x = base_url)
      as -> by set_solver.
    split.
    + intros Hx. destruct (decide (x = base_url)) as [->|Hne]; [now left|].
      right. right. split; [now apply Hall|exact Hne].
    + intros [->|[[]|[Hx _]]]; [exact Hbase|now apply Hsub].
  - rewrite Hd4. subst st3. cbn. rewrite Hd1. done.
  - rewrite Hc4. subst st3. cbn. done.
  - rewrite Hf4. subst st3. cbn. rewrite Hf1. done.
Qed.

End FirstPass.

Section FiveOfTwenty.
Import Crawl.
Variable cfg : config.
Variable crawl_with_requests : string -> nat -> option (page_data * list string).
Variable crawl_with_selenium : string -> nat -> option (page_data * list string).
Variable pages : list string.
Hypothesis pages_nodup : NoDup pages.
Hypothesis pages_twenty : length pages = 20.
Hypothesis pages_complete :
  complete_graph cfg crawl_with_requests crawl_with_selenium pages.
Hypothesis five_pages : max_pages cfg = 5.
Hypothesis depth_allows : exhaustive cfg = true \/ 1 <= max_depth cfg.

Local Abbreviation step :=
  (crawl_step cfg crawl_with_requests crawl_with_selenium).

Lemma continues_true st :
  0 < length (url_queue st) -> length (crawled_data st) < max_pages cfg ->
  continues cfg st = true.
Proof.
  clear. intros Hq Hc. unfold continues.
  apply andb_true_iff. split; [|now apply Nat.ltb_lt].
  apply negb_true_iff, bool_decide_eq_false. intros E. rewrite E in Hq.
  cbn in Hq. lia.
Qed.

(** Three passes: the base URL; three more pages; and a batch of three of
    which only the first still fits the budget. *)
Lemma crawl_five_of_twenty base_url :
  base_url ∈ pages ->
  exists st',
    crawl cfg crawl_with_requests crawl_with_selenium 4 base_url = Some st' /\
    length (crawled_data st') = 5 /\
    length (fetched st') = 5 /\
    length (dispatched st') = 7 /\
    size (visited_urls st') = 7 /\
    (forall u, u ∈ visited_urls st' -> u ∈ pages) /\
    length (url_queue st') = 13.
Proof.
  intros Hbase.
  pose proof (initial_ok cfg base_url) as Hok0.
  set (st0 := initial base_url) in *.
  (* first pass *)
  pose proof (crawl_step_ok cfg crawl_with_requests crawl_with_selenium st0 Hok0)
    as (Hok1 & _).
  destruct (first_step cfg crawl_with_requests crawl_with_selenium pages
              pages_complete base_url Hbase) as (Hcov1 & Hd1 & Hc1 & Hf1);
    [lia|exact depth_allows|].
  fold st0 in Hcov1, Hd1, Hc1, Hf1.
  set (st1 := (step st0).2) in *.
  pose proof (covers_count cfg pages pages_nodup st1 Hok1 Hcov1) as Hn1.
  assert (continues cfg st1 = true) as Hgo1 by (apply continues_true; lia).
  (* second pass *)
  destruct (closed_step cfg crawl_with_requests crawl_with_selenium pages
              pages_complete st1 Hok1 Hcov1 Hgo1)
    as (Hok2 & Hcov2 & Hd2 & Hc2 & Hf2).
  set (st2 := (step st1).2) in *.
  pose proof (covers_count cfg pages pages_nodup st2 Hok2 Hcov2) as Hn2.
  assert (continues cfg st2 = true) as Hgo2 by (apply continues_true; lia).
  (* third pass *)
  destruct (closed_step cfg crawl_with_requests crawl_with_selenium pages
              pages_complete st2 Hok2 Hcov2 Hgo2)
    as (Hok3 & Hcov3 & Hd3 & Hc3 & Hf3).
  set (st3 := (step st2).2) in *.
  pose proof (covers_count cfg pages pages_nodup st3 Hok3 Hcov3) as Hn3.
  assert (continues cfg st3 = false) as Hstop.
  { unfold continues. apply andb_false_iff. right. apply Nat.ltb_ge. lia. }
  exists st3. split_and!; try lia.
  - unfold crawl. fold st0.
    rewrite crawl_loop_unfold by exact Hok0.
    assert (continues cfg st0 = true) as -> by (apply continues_true; cbn; lia).
    fold st1. rewrite crawl_loop_unfold by exact Hok1. rewrite Hgo1.
    fold st2. rewrite crawl_loop_unfold by exact Hok2. rewrite Hgo2.
    fold st3. rewrite crawl_loop_unfold by exact Hok3. now rewrite Hstop.
  - rewrite (visited_dispatched _ _ Hok3), size_list_to_set by apply Hok3. lia.
  - intros u Hu. apply Hcov3. now left.
Qed.

End FiveOfTwenty.


(** Twenty pages, each linking to the nineteen others. *)
Definition twenty_pages : list string :=
  (fun i => "http://example.com/p" +:+ PyStr.str_of_nat i) <$> seq 0 20.

Definition twenty_requests (u : string) (d : nat)
  : option (Crawl.page_data * list string) :=
  if bool_decide (u ∈ twenty_pages)
  then
    let new_links := List.filter (fun l => negb (String.eqb l u)) twenty_pages in
    Some (Crawl.mkPage u "page" d "requests" (length new_links)
            (take 15 new_links), new_links)
  else None.

Definition no_selenium (u : string) (d : nat)
  : option (Crawl.page_data * list string) := None.

Definition exhaustive_five : Crawl.config := Crawl.mkConfig 999 5 true false.

Definition limited_depth_zero : Crawl.config := Crawl.mkConfig 0 5 false false.

Lemma twenty_pages_complete cfg :
  Crawl.dynamic_discovery cfg = false ->
  complete_graph cfg twenty_requests no_selenium twenty_pages.
Proof.
  intros Hstatic u d Hu. unfold Crawl.fetch_page, twenty_requests.
  rewrite (bool_decide_eq_true_2 _ Hu), Hstatic. cbn [andb orb].
  rewrite bool_decide_eq_true_2 by eauto. cbn [negb].
  eexists _, _. split; [reflexivity|].
  split; intros l.
  - rewrite list_elem_of_In, filter_In, <- list_elem_of_In. tauto.
  - intros Hl Hne. rewrite list_elem_of_In, filter_In, <- list_elem_of_In.
    split; [exact Hl|]. apply negb_true_iff, String.eqb_neq. exact Hne.
Qed.



(** ** The crawl loop: depth limit and pages marked but not fetched *)

Section CrawlDepthFacts.
Import Crawl.
Variable cfg : config.
Variable crawl_with_requests : string -> nat -> option (page_data * list string).
Variable crawl_with_selenium : string -> nat -> option (page_data * list string).

Local Abbreviation step :=
  (crawl_step cfg crawl_with_requests crawl_with_selenium).
Local Abbreviation loop :=
  (crawl_loop cfg crawl_with_requests crawl_with_selenium).

(** Whatever every pass of the loop keeps holds when the loop ends. *)
Lemma crawl_loop_invariant (P : crawler -> Prop) :
  (forall st, P st -> continues cfg st = true -> P (step st).2) ->
  forall fuel st st', P st -> loop fuel st = Some st' -> P st'.
Proof.
  intros Hstep fuel. induction fuel as [|fuel IH]; intros st st' HP; [done|].
  cbn [crawl_loop]. destruct (continues cfg st) eqn:Hcont.
  - specialize (Hstep st HP Hcont).
    destruct (crawl_step _ _ _ st) as [again st1]. cbn [snd] in Hstep.
    destruct again; [now apply IH|]. intros [= <-]. exact Hstep.
  - intros [= <-]. exact HP.
Qed.

(** Every queued task lies within the depth limit. *)
Definition within_depth (tasks : list (string * nat)) : Prop :=
  Forall (fun task => task.2 <= max_depth cfg) tasks.

Lemma draw_batch_within n st batch :
  within_depth (url_queue st) -> within_depth batch ->
  within_depth (draw_batch n st batch).1 /\
  within_depth (url_queue (draw_batch n st batch).2).
Proof.
  clear crawl_with_requests crawl_with_selenium.
  unfold within_depth.
  revert st batch. induction n as [|n IH]; intros st batch Hq Hb; [done|].
  cbn [draw_batch]. destruct (url_queue st) as [|[u d] rest] eqn:Hqueue.
  - apply IH; [now rewrite Hqueue|exact Hb].
  - apply Forall_cons in Hq as [Hd Hrest].
    destruct (decide _); apply IH; cbn; try done.
    apply Forall_app. split; [exact Hb|]. now apply Forall_singleton.
Qed.

Lemma enqueue_link_within d st link :
  exhaustive cfg = false ->
  within_depth (url_queue st) ->
  within_depth (url_queue (enqueue_link cfg d st link)).
Proof.
  clear crawl_with_requests crawl_with_selenium.
  intros Hlim Hq. unfold enqueue_link. rewrite Hlim. cbn [orb].
  destruct (_ && _); [|exact Hq].
  destruct (Nat.leb_spec (d + 1) (max_depth cfg)); [|exact Hq].
  cbn. apply Forall_app. split; [exact Hq|]. now apply Forall_singleton.
Qed.

Lemma enqueue_results_within results st :
  exhaustive cfg = false ->
  within_depth (url_queue st) ->
  within_depth (url_queue (enqueue_results cfg results st)).
Proof.
  clear crawl_with_requests crawl_with_selenium.
  intros Hlim. unfold enqueue_results.
  revert st. induction results as [|[d new_links] results IH]; intros st Hq;
    [exact Hq|].
  cbn [fold_left]. apply IH.
  revert st Hq. induction new_links as [|link new_links IHl]; intros st Hq;
    [exact Hq|].
  cbn [fold_left]. apply IHl. now apply enqueue_link_within.
Qed.

Lemma crawl_step_within st :
  exhaustive cfg = false ->
  within_depth (url_queue st) ->
  within_depth
    (draw_batch (Nat.min 3 (length (url_queue st))) st []).1 /\
  within_depth (url_queue (step st).2).
Proof.
  intros Hlim Hq. unfold crawl_step.
  destruct (draw_batch_within (Nat.min 3 (length (url_queue st))) st [] Hq)
    as [Hb Hq1]; [constructor|].
  split; [exact Hb|].
  destruct (draw_batch _ _ _) as [batch st1]. cbn [fst snd] in Hb, Hq1.
  destruct batch as [|task batch]; [exact Hq1|].
  set (st2 := mkCrawler _ _ _ _ _ _).
  pose proof (run_batch_frame cfg crawl_with_requests crawl_with_selenium
                (task :: batch) st2) as Hrun.
  destruct (run_batch _ _ _ _ _) as [results st3]. cbn [snd] in Hrun |- *.
  apply enqueue_results_within; [exact Hlim|].
  now rewrite (frame_queue _ _ _ _ Hrun).
Qed.

(** The URLs a batch hands to the fetchers. *)
Lemma run_batch_fetched batch st :
  let st' := (run_batch cfg crawl_with_requests crawl_with_selenium batch st).2 in
  length (fetched st) <= length (fetched st') /\
  (length (crawled_data st') < max_pages cfg ->
   length (fetched st') = length (fetched st) + length batch) /\
  (length (crawled_data st) < max_pages cfg -> batch <> [] ->
   length (fetched st) < length (fetched st')).
Proof.
  revert st. induction batch as [|[u d] batch IH]; intros st; cbn [run_batch].
  - cbn. split_and!; [lia|lia|done].
  - pose proof (crawl_single_url_frame cfg crawl_with_requests
                  crawl_with_selenium u d st) as Hframe.
    assert (length (crawled_data st) < max_pages cfg ->
            length (fetched
                      (crawl_single_url cfg crawl_with_requests
                         crawl_with_selenium (u, d) st).2)
              = length (fetched st) + 1) as Hone.
    { unfold crawl_single_url.
      destruct (Nat.leb_spec (max_pages cfg) (length (crawled_data st)));
        [lia|].
      intros _. destruct (fetch_page _ _ _ _ _) as [[page new_links]|];
        cbn; rewrite length_app; cbn; lia. }
    destruct (crawl_single_url _ _ _ _ _) as [new_links st1].
    cbn [snd] in Hframe, Hone.
    specialize (IH st1).
    pose proof (run_batch_frame cfg crawl_with_requests crawl_with_selenium
                  batch st1) as Hrest.
    destruct (run_batch _ _ _ _ _) as [results st2]. cbn [snd] in *.
    destruct IH as (Hle & Hall & _).
    destruct Hframe as [_ _ _ (l & Hl & _ & _) Hgrow _].
    assert (length (fetched st) <= length (fetched st1)) as Hle1
      by (rewrite Hl, length_app; lia).
    pose proof (frame_crawled_grows _ _ _ _ Hrest) as Hgrow2.
    split_and!.
    + lia.
    + intros Hroom. rewrite Hall by exact Hroom. rewrite Hone by lia. cbn [length]. lia.
    + intros Hroom _. rewrite Hone in Hle by exact Hroom. lia.
Qed.

Lemma draw_batch_size n st batch :
  length (draw_batch n st batch).1 <= length batch + n.
Proof.
  clear cfg crawl_with_requests crawl_with_selenium.
  revert st batch. induction n as [|n IH]; intros st batch; cbn [draw_batch].
  - cbn. lia.
  - destruct (url_queue st) as [|[u d] rest].
    + etrans; [apply IH|]. lia.
    + destruct (decide _); (etrans; [apply IH|]); rewrite ?length_app; cbn; lia.
Qed.

(** While the budget is not reached every dispatched URL has been handed
    to a fetcher; at most two dispatched URLs are never fetched. *)
Record fetches_ok (st : crawler) : Prop := mkFetchesOk {
  fetches_frontier : frontier_ok cfg st;
  fetches_all : length (crawled_data st) < max_pages cfg ->
                length (fetched st) = length (dispatched st);
  fetches_gap : length (dispatched st) <= length (fetched st) + 2
}.

Lemma initial_fetches_ok base_url : fetches_ok (initial base_url).
Proof.
  clear crawl_with_requests crawl_with_selenium.
  split; [apply initial_ok|done|cbn; lia].
Qed.

Lemma crawl_step_fetches st :
  fetches_ok st -> continues cfg st = true -> fetches_ok (step st).2.
Proof.
  intros [Hok Hall Hgap] Hcont.
  pose proof (crawl_step_ok cfg crawl_with_requests crawl_with_selenium st Hok)
    as (Hok' & _).
  split; [exact Hok'|..]; clear Hok'.
  all: unfold continues in Hcont; apply andb_true_iff in Hcont as [_ Hroom];
    apply Nat.ltb_lt in Hroom; specialize (Hall Hroom).
  all: unfold crawl_step.
  all: pose proof (draw_batch_ok (Nat.min 3 (length (url_queue st))) st []
                (frontier_queue_ok cfg st Hok)) as Hdraw;
    rewrite app_nil_r in Hdraw;
    specialize (Hdraw (dispatched_nodup _ _ Hok) (visited_dispatched _ _ Hok));
    pose proof (draw_batch_size (Nat.min 3 (length (url_queue st))) st [])
      as Hsize.
  all: destruct (draw_batch _ _ _) as [batch st1]; cbn [fst snd] in Hdraw, Hsize;
    destruct Hdraw as (Hq1 & _ & _ & Hc1 & Hd1 & Hf1 & _).
  all: cbn [length] in Hsize.
  all: destruct batch as [|task batch];
    [cbn [snd]; rewrite ?Hc1, ?Hd1, ?Hf1; intros; lia|].
  all: set (batch' := task :: batch) in *;
    set (st2 := mkCrawler _ _ _ _ _ _);
    pose proof (run_batch_fetched batch' st2) as Hfetched;
    pose proof (run_batch_frame cfg crawl_with_requests crawl_with_selenium
                  batch' st2) as Hrun;
    destruct (run_batch _ _ _ _ _) as [results st3]; cbn [fst snd] in *.
  all: assert (queue_ok st3) as Hok3
    by (destruct Hrun as [Hv3 Hq3 _ _ _ _]; cbn in Hv3, Hq3;
        destruct Hq1; split; rewrite Hq3, ?Hv3; done).
  all: destruct (enqueue_results_ok cfg results st3 Hok3)
    as [_ [_ Hc4 Hd4 Hf4 _]].
  all: rewrite ?Hc4, Hd4, Hf4, (frame_dispatched _ _ _ _ Hrun).
  all: destruct Hfetched as (Hle & Hfull & Hsome).
  all: subst st2; cbn [fetched dispatched crawled_data] in *.
  all: rewrite length_app, length_fmap, Hf1, Hd1 in *.
  - intros Hroom'. rewrite Hfull by exact Hroom'. lia.
  - assert (length (fetched st) < length (fetched st3)) as Hlt.
    { apply Hsome; [rewrite Hc1; lia|done]. }
    assert (length batch' <= 3) by lia. lia.
Qed.

End CrawlDepthFacts.

(** The states the loop passes through. *)
Inductive reachable (cfg : Crawl.config)
    (crawl_with_requests crawl_with_selenium :
       string -> nat -> option (Crawl.page_data * list string))
    (base_url : string) : Crawl.crawler -> Prop :=
| reachable_initial :
    reachable cfg crawl_with_requests crawl_with_selenium base_url
      (Crawl.initial base_url)
| reachable_step st :
    reachable cfg crawl_with_requests crawl_with_selenium base_url st ->
    Crawl.continues cfg st = true ->
    reachable cfg crawl_with_requests crawl_with_selenium base_url
      (Crawl.crawl_step cfg crawl_with_requests crawl_with_selenium st).2.

Lemma crawl_result_reachable cfg crawl_with_requests crawl_with_selenium
    base_url fuel st' :
  Crawl.crawl cfg crawl_with_requests crawl_with_selenium fuel base_url
    = Some st' ->
  reachable cfg crawl_with_requests crawl_with_selenium base_url st'.
Proof.
  apply crawl_loop_invariant; [|constructor].
  intros st Hst Hcont. now constructor.
Qed.


Definition limited_depth_one : Crawl.config := Crawl.mkConfig 1 5 false false.



(** ** Numbered pagination: the candidates *)

Section PaginationFacts.
Import Discovery.

Lemma digit_of_code c lo :
  48 <= lo -> lo <= nat_of_ascii c -> nat_of_ascii c <= 57 ->
  c = PyStr.digit_char (nat_of_ascii c - 48) /\ nat_of_ascii c - 48 < 10.
Proof.
  intros Hlo Hge Hle. split; [|lia]. unfold PyStr.digit_char.
  replace (48 + (nat_of_ascii c - 48)) with (nat_of_ascii c) by lia.
  now rewrite ascii_nat_embedding.
Qed.

Lemma str_of_small_nat a b :
  a < 10 -> b < 10 ->
  PyStr.str_of_nat (10 * a + b)
    = if a =? 0 then String (PyStr.digit_char b) EmptyString
      else String (PyStr.digit_char a) (String (PyStr.digit_char b) EmptyString).
Proof.
  intros Ha Hb.
  assert (forallb (fun a => forallb (fun b =>
            String.eqb (PyStr.str_of_nat (10 * a + b))
              (if a =? 0 then String (PyStr.digit_char b) EmptyString
               else String (PyStr.digit_char a)
                      (String (PyStr.digit_char b) EmptyString)))
            (seq 0 10)) (seq 0 10) = true) as Hall by (vm_compute; reflexivity).
  rewrite forallb_forall in Hall.
  specialize (Hall a). rewrite forallb_forall in Hall.
  apply String.eqb_eq, Hall; apply in_seq; lia.
Qed.

Lemma page_number_of_small a b :
  a < 10 -> b < 10 -> 2 <= 10 * a + b ->
  page_number (PyStr.str_of_nat (10 * a + b)) = Some (10 * a + b).
Proof.
  intros Ha Hb Hn.
  assert (forallb (fun a => forallb (fun b =>
            (10 * a + b <? 2) ||
            match page_number (PyStr.str_of_nat (10 * a + b)) with
            | Some m => m =? 10 * a + b
            | None => false
            end)
            (seq 0 10)) (seq 0 10) = true) as Hall by (vm_compute; reflexivity).
  rewrite forallb_forall in Hall.
  specialize (Hall a). rewrite forallb_forall in Hall.
  specialize (Hall ltac:(apply in_seq; lia) b ltac:(apply in_seq; lia)).
  apply orb_true_iff in Hall as [Hlt|Hall]; [apply Nat.ltb_lt in Hlt; lia|].
  destruct (page_number _) as [m|]; [|done].
  apply Nat.eqb_eq in Hall. now subst.
Qed.

Lemma page_number_inv t n :
  page_number t = Some n -> 2 <= n <= 99 /\ t = PyStr.str_of_nat n.
Proof.
  unfold Discovery.page_number. cbv zeta beta.
  destruct t as [|c [|d [|e t]]]; try done.
  + destruct (Nat.leb_spec 50 (nat_of_ascii c)) as [Hge|]; [|done].
    destruct (Nat.leb_spec (nat_of_ascii c) 57) as [Hle|]; [|done].
    cbn [andb]. intros [= <-].
    destruct (digit_of_code c 50) as [Hc Hlt]; [lia..|].
    split; [lia|].
    pose proof (str_of_small_nat 0 (nat_of_ascii c - 48)) as Hs.
    cbn [Nat.mul Nat.add Nat.eqb] in Hs. rewrite Hs by lia. now rewrite <- Hc.
  + destruct (Nat.leb_spec 49 (nat_of_ascii c)) as [Hge|]; [|done].
    destruct (Nat.leb_spec (nat_of_ascii c) 57) as [Hle|]; [|done].
    cbn [andb]. unfold PyStr.is_digit.
    destruct (Nat.leb_spec 48 (nat_of_ascii d)) as [Hge'|]; [|done].
    destruct (Nat.leb_spec (nat_of_ascii d) 57) as [Hle'|]; [|done].
    cbn [andb]. intros [= <-].
    destruct (digit_of_code c 49) as [Hc Hlt]; [lia..|].
    destruct (digit_of_code d 48) as [Hd Hlt']; [lia..|].
    split; [lia|].
    match goal with |- _ = PyStr.str_of_nat ?m =>
      replace m with (10 * (nat_of_ascii c - 48) + (nat_of_ascii d - 48))
        by (cbn [Nat.mul]; lia) end.
    rewrite str_of_small_nat by lia.
    destruct (Nat.eqb_spec (nat_of_ascii c - 48) 0); [lia|].
    now rewrite <- Hc, <- Hd.
Qed.

End PaginationFacts.

(** The page-number test of the pagination script accepts exactly the
    decimal numerals of the numbers 2 to 99: page 1, numbers from 100 on
    and numerals with a leading zero or surrounding text are not
    candidates. *)
Theorem page_number_accepts (t : string) (n : nat) :
  Discovery.page_number t = Some n <->
  2 <= n <= 99 /\ t = PyStr.str_of_nat n.
Proof.
  split.
  - apply page_number_inv.
  - intros [[Hlo Hhi] ->].
    replace n with (10 * (n / 10) + n mod 10) by
      (symmetry; apply Nat.div_mod_eq).
    apply page_number_of_small.
    + apply Nat.Div0.div_lt_upper_bound. lia.
    + apply Nat.mod_upper_bound. lia.
    + rewrite <- Nat.div_mod_eq. lia.
Qed.

Section PaginationScriptFacts.
Import Discovery.

Local Abbreviation by_number :=
  (fun x y : nat * web_element => x.1 <= y.1).

Lemma insert_by_number_perm x l : insert_by_number x l ≡ₚ x :: l.
Proof.
  induction l as [|y l IH]; cbn; [done|].
  destruct (_ <=? _); [|done]. rewrite IH. apply Permutation_swap.
Qed.

Lemma insert_by_number_sorted x l :
  StronglySorted by_number l -> StronglySorted by_number (insert_by_number x l).
Proof.
  induction 1 as [|y l Hl IH Hy]; cbn.
  - constructor; constructor.
  - destruct (Nat.leb_spec y.1 x.1) as [Hle|Hlt].
    + constructor; [exact IH|].
      rewrite insert_by_number_perm. constructor; [exact Hle|exact Hy].
    + constructor; [now constructor|].
      constructor; [lia|]. eapply Forall_impl; [exact Hy|]. cbn. lia.
Qed.

Lemma sort_by_number_spec l :
  sort_by_number l ≡ₚ l /\ StronglySorted by_number (sort_by_number l).
Proof.
  unfold sort_by_number.
  assert (forall acc, StronglySorted by_number acc ->
            fold_left (fun sorted x => insert_by_number x sorted) l acc
              ≡ₚ acc ++ l /\
            StronglySorted by_number
              (fold_left (fun sorted x => insert_by_number x sorted) l acc))
    as Hgen.
  { induction l as [|x l IH]; intros acc Hacc; cbn.
    - now rewrite app_nil_r.
    - destruct (IH (insert_by_number x acc)) as [Hperm Hsorted];
        [now apply insert_by_number_sorted|].
      split; [|exact Hsorted].
      rewrite Hperm, insert_by_number_perm. apply Permutation_middle. }
  apply (Hgen []). constructor.
Qed.

Lemma sorted_take {A} (R : A -> A -> Prop) n (l : list A) :
  StronglySorted R l -> StronglySorted R (take n l).
Proof.
  intros Hl. revert n. induction Hl as [|a l Hl IH Ha]; intros [|n]; cbn;
    try constructor; [apply IH|now apply Forall_take].
Qed.

Lemma sorted_fst (l : list (nat * web_element)) :
  StronglySorted by_number l -> StronglySorted le l.*1.
Proof.
  induction 1 as [|a l Hl IH Ha]; cbn; constructor; [exact IH|].
  now apply Forall_fmap.
Qed.

End PaginationScriptFacts.

(** The numbered-pagination script hands back at most ten texts; each is
    the text of a visible element of the page that passes the pagination
    test and whose text is a page number from 2 to 99; and the texts come
    in ascending order of page number. *)
Theorem pagination_script_candidates (elements : list Discovery.web_element) :
  length (Discovery.pagination_script elements) <= 10 /\
  (forall t, t ∈ Discovery.pagination_script elements ->
     exists e, e ∈ elements /\ Discovery.text_content e = t /\
               Discovery.visible e = true /\ Discovery.is_pagination e = true) /\
  exists numbers,
    Discovery.page_number <$> Discovery.pagination_script elements
      = Some <$> numbers /\
    StronglySorted le numbers /\
    Forall (fun n => 2 <= n <= 99) numbers.
Proof.
  unfold Discovery.pagination_script.
  set (candidates := omap _ elements).
  assert (forall x, x ∈ candidates ->
            x.2 ∈ elements /\ Discovery.page_number (Discovery.text_content x.2) = Some x.1 /\
            Discovery.visible x.2 = true /\ Discovery.is_pagination x.2 = true)
    as Hcand.
  { intros [n e] (e' & He' & Hsome)%list_elem_of_omap.
    destruct (Discovery.page_number (Discovery.text_content e')) as [m|] eqn:Hm;
      [|done].
    destruct (Discovery.is_pagination e') eqn:Hp; [|done].
    destruct (Discovery.visible e') eqn:Hv; [|done].
    cbn in Hsome. injection Hsome as <- <-. done. }
  destruct (sort_by_number_spec candidates) as [Hperm Hsorted].
  set (chosen := take 10 (Discovery.sort_by_number candidates)).
  assert (forall x, x ∈ chosen -> x ∈ candidates) as Hchosen.
  { intros x (i & Hi & _)%elem_of_take. rewrite <- Hperm.
    eapply list_elem_of_lookup_2, Hi. }
  split_and!.
  - rewrite length_fmap. unfold chosen. rewrite length_take. lia.
  - intros t ([n e] & -> & Hx)%list_elem_of_fmap.
    destruct (Hcand _ (Hchosen _ Hx)) as (He & _ & Hv & Hp).
    now exists e.
  - exists chosen.*1. split_and!.
    + rewrite <- !list_fmap_compose. apply list_fmap_ext.
      intros i x Hx%list_elem_of_lookup_2. cbn.
      now destruct (Hcand _ (Hchosen _ Hx)) as (_ & -> & _).
    + apply sorted_fst. now apply sorted_take.
    + apply Forall_fmap, Forall_forall. intros x Hx.
      destruct (Hcand _ (Hchosen _ Hx)) as (_ & Hn & _).
      cbn. now apply page_number_inv in Hn as [Hn _].
Qed.

(** ** Dynamic discovery: the links handed back *)

(** The links of the deltas of a log, in the order they were appended. *)
Definition delta_links (log : list (gset string * gset string)) : list string :=
  flat_map (fun entry => elements entry.2) log.

Section DeltaFacts.

Lemma delta_links_app l1 l2 :
  delta_links (l1 ++ l2) = delta_links l1 ++ delta_links l2.
Proof. apply flat_map_app. Qed.

Lemma delta_links_fresh b log :
  well_attributed b log ->
  NoDup (delta_links log) /\
  (forall u, u ∈ delta_links log -> u ∉ b) /\
  baseline_after b log = b ∪ list_to_set (delta_links log).
Proof.
  revert b. induction log as [|[c n] log IH]; intros b; cbn.
  - intros _. split_and!; [constructor|set_solver|set_solver].
  - intros [-> Hrest]. destruct (IH _ Hrest) as (Hnd & Hfresh & Hbase).
    split_and!.
    + apply NoDup_app. split_and!; [apply NoDup_elements| |exact Hnd].
      intros u Hu%elem_of_elements Hu'. apply (Hfresh u Hu'). set_solver.
    + intros u [Hu%elem_of_elements|Hu]%elem_of_app; [set_solver|].
      specialize (Hfresh u Hu). set_solver.
    + unfold baseline_after in *. cbn. rewrite Hbase.
      rewrite list_to_set_app_L, list_to_set_elements_L. set_solver.
Qed.

Lemma delta_links_shown b log u :
  well_attributed b log -> u ∈ delta_links log ->
  exists entry, entry ∈ log /\ u ∈ entry.1.
Proof.
  revert b. induction log as [|[c n] log IH]; intros b; cbn.
  - intros _ Hu. inversion Hu.
  - intros [-> Hrest] [Hu%elem_of_elements|Hu]%elem_of_app.
    + exists (c, c ∖ b). split; [left|]. set_solver.
    + destruct (IH _ Hrest Hu) as (entry & Hentry & Hin).
      exists entry. split; [now right|exact Hin].
Qed.

End DeltaFacts.

Section CollectFacts.
Variable driver : Type.
Variable extract_links_from_driver : driver -> list string.
Variable query_clickables : driver -> option (list Discovery.web_element).
Variable query_buttons : driver -> option (list Discovery.web_element).
Variable script_click : Discovery.web_element -> driver -> bool * driver.
Variable native_click : Discovery.web_element -> driver -> bool * driver.
Variable back : driver -> bool * driver.
Variable scroll_to_bottom : driver -> bool * driver.
Variable domain : string.

Local Abbreviation state := (Discovery.state driver).

(** From the state [st0] on, the interactions of [log] were carried out:
    the links list grew by their deltas, and so did the set of dynamic
    URLs when the handler records them. *)
Record collected (record_found : bool) (st0 : state)
    (log : list (gset string * gset string))
    (links : list string) (st : state) : Prop := mkCollected {
  collected_log :
    Discovery.attributed driver st = Discovery.attributed driver st0 ++ log;
  collected_deltas : well_attributed (Discovery.initial_links driver st0) log;
  collected_baseline :
    Discovery.initial_links driver st
      = baseline_after (Discovery.initial_links driver st0) log;
  collected_links : links = delta_links log;
  collected_found :
    Discovery.dynamic_urls_found driver st
      = if record_found
        then Discovery.dynamic_urls_found driver st0 ∪ list_to_set (delta_links log)
        else Discovery.dynamic_urls_found driver st0;
  collected_shown :
    forall entry, entry ∈ log ->
      exists d, entry.1 = list_to_set (extract_links_from_driver d)
}.

Lemma collected_refl record_found st : collected record_found st [] [] st.
Proof.
  split; cbn; try done; [now rewrite app_nil_r| |].
  - destruct record_found; set_solver.
  - intros entry Hentry. inversion Hentry.
Qed.

Lemma collected_with_driver record_found st0 log links st d :
  collected record_found st0 log links st ->
  collected record_found st0 log links (Discovery.with_driver driver st d).
Proof. now intros []. Qed.

Lemma collected_attribute record_found st0 log links st :
  collected record_found st0 log links st ->
  exists entry,
    collected record_found st0 (log ++ [entry])
      (Discovery.attribute driver extract_links_from_driver record_found links st).1.2
      (Discovery.attribute driver extract_links_from_driver record_found links st).2 /\
    (Discovery.attribute driver extract_links_from_driver record_found links st).1.1
      = entry.2.
Proof.
  intros [Hlog Hw Hbase Hlinks Hfound Hshown].
  set (current_links :=
         list_to_set (extract_links_from_driver (Discovery.drv driver st))
         : gset string).
  exists (current_links, current_links ∖ Discovery.initial_links driver st).
  unfold Discovery.attribute. fold current_links.
  assert (well_attributed (Discovery.initial_links driver st0)
            (log ++ [(current_links,
                      current_links ∖ Discovery.initial_links driver st)]))
    as Hw'.
  { apply well_attributed_app. split; [exact Hw|]. cbn. now rewrite <- Hbase. }
  assert (forall entry,
            entry ∈ log ++ [(current_links,
                             current_links ∖ Discovery.initial_links driver st)] ->
            exists d, entry.1 = list_to_set (extract_links_from_driver d))
    as Hshown'.
  { intros entry [Hentry|Hentry%list_elem_of_singleton]%elem_of_app;
      [now apply Hshown|].
    subst entry. now exists (Discovery.drv driver st). }
  destruct (decide (current_links ∖ Discovery.initial_links driver st = ∅))
    as [Hempty|Hnew]; cbn [fst snd].
  - split; [|done]. split; cbn.
    + now rewrite Hlog, app_assoc.
    + exact Hw'.
    + rewrite baseline_after_app. cbn. rewrite <- Hbase, Hempty. set_solver.
    + rewrite delta_links_app, Hlinks. cbn. rewrite Hempty, elements_empty.
      now rewrite !app_nil_r.
    + rewrite Hfound, delta_links_app. cbn.
      now rewrite Hempty, elements_empty, !app_nil_r.
    + exact Hshown'.
  - split; [|done]. split; cbn.
    + now rewrite Hlog, app_assoc.
    + exact Hw'.
    + rewrite baseline_after_app. cbn. now rewrite <- Hbase.
    + rewrite delta_links_app, Hlinks. cbn. now rewrite app_nil_r.
    + rewrite delta_links_app. cbn. rewrite app_nil_r, list_to_set_app_L,
        list_to_set_elements_L.
      destruct record_found; rewrite Hfound; set_solver.
    + exact Hshown'.
Qed.

(** One pagination click adds at most one entry. *)
Lemma click_page_collected st0 log acc page_text :
  collected true st0 log acc.1 acc.2 ->
  exists log',
    collected true st0 log'
      (Discovery.click_page driver extract_links_from_driver query_clickables
         script_click native_click back acc page_text).1
      (Discovery.click_page driver extract_links_from_driver query_clickables
         script_click native_click back acc page_text).2 /\
    length log' <= length log + 1.
Proof.
  destruct acc as [links st]. cbn [fst snd]. intros Hc.
  unfold Discovery.click_page.
  destruct (query_clickables _) as [elements|]; [|exists log; split; [done|lia]].
  destruct (List.find _ _) as [element|]; [|exists log; split; [done|lia]].
  destruct (script_click _ _) as [clicked d1].
  assert (forall d, exists log',
            collected true st0 log'
              (let '(_, pagination_links, st) :=
                 Discovery.attribute driver extract_links_from_driver true links
                   (Discovery.with_driver driver st d) in
               let '(_, d2) := back (Discovery.drv driver st) in
               (pagination_links, Discovery.with_driver driver st d2)).1
              (let '(_, pagination_links, st) :=
                 Discovery.attribute driver extract_links_from_driver true links
                   (Discovery.with_driver driver st d) in
               let '(_, d2) := back (Discovery.drv driver st) in
               (pagination_links, Discovery.with_driver driver st d2)).2 /\
            length log' <= length log + 1) as Hclicked.
  { intros d.
    destruct (collected_attribute true st0 log links
                (Discovery.with_driver driver st d))
      as (entry & Hc' & _); [now apply collected_with_driver|].
    destruct (Discovery.attribute _ _ _ _ _) as [[new_links links'] st'].
    cbn [fst snd] in Hc'.
    destruct (back _) as [went d2]. cbn [fst snd].
    exists (log ++ [entry]). split; [now apply collected_with_driver|].
    rewrite length_app. cbn. lia. }
  destruct clicked; [apply Hclicked|].
  destruct (native_click _ _) as [clicked d1'].
  destruct clicked; [apply Hclicked|].
  cbn [fst snd]. exists log. split; [now apply collected_with_driver|lia].
Qed.

Lemma handle_numbered_pagination_collected st :
  exists log,
    collected true st log
      (Discovery.handle_numbered_pagination driver extract_links_from_driver
         query_clickables script_click native_click back st).1
      (Discovery.handle_numbered_pagination driver extract_links_from_driver
         query_clickables script_click native_click back st).2 /\
    length log <= 10.
Proof.
  unfold Discovery.handle_numbered_pagination.
  destruct (query_clickables _) as [elements|];
    [|exists []; split; [apply collected_refl|cbn; lia]].
  assert (length (Discovery.pagination_script elements) <= 10) as Hten.
  { unfold Discovery.pagination_script. rewrite length_fmap, length_take. lia. }
  revert Hten. generalize (Discovery.pagination_script elements).
  intros texts Hten.
  assert (forall acc log,
            collected true st log acc.1 acc.2 ->
            exists log',
              collected true st log'
                (fold_left
                   (Discovery.click_page driver extract_links_from_driver
                      query_clickables script_click native_click back)
                   texts acc).1
                (fold_left
                   (Discovery.click_page driver extract_links_from_driver
                      query_clickables script_click native_click back)
                   texts acc).2 /\
              length log' <= length log + length texts) as Hfold.
  { clear Hten. induction texts as [|t texts IH]; intros acc log Hc.
    - exists log. split; [exact Hc|cbn; lia].
    - cbn [fold_left].
      destruct (click_page_collected st log acc t Hc) as (log1 & Hc1 & Hlen1).
      destruct (IH _ _ Hc1) as (log2 & Hc2 & Hlen2).
      exists log2. split; [exact Hc2|cbn; lia]. }
  destruct (Hfold ([], st) []) as (log & Hc & Hlen); [apply collected_refl|].
  exists log. split; [exact Hc|cbn in Hlen; lia].
Qed.

Lemma collected_links_shown record_found st0 log links st u :
  collected record_found st0 log links st -> u ∈ links ->
  exists d, u ∈ extract_links_from_driver d.
Proof.
  intros [_ Hw _ -> _ Hshown] Hu.
  destruct (delta_links_shown _ _ _ Hw Hu) as (entry & Hentry & Hin).
  destruct (Hshown entry Hentry) as [d Hd]. exists d.
  rewrite Hd in Hin. now apply elem_of_list_to_set in Hin.
Qed.

(** The generic phase counts one interaction for every click it
    attributes, and never goes beyond [max_interactions]. *)
Definition clicks_ok (st0 : state) (log : list (gset string * gset string))
    (acc : list string * nat * state) : Prop :=
  collected false st0 log acc.1.1 acc.2 /\
  acc.1.2 = length log /\ acc.1.2 <= Discovery.max_interactions.

Lemma clicks_ok_attribute st0 log links count st d :
  clicks_ok st0 log (links, count, st) ->
  count < Discovery.max_interactions ->
  exists entry,
    clicks_ok st0 (log ++ [entry])
      ((Discovery.attribute driver extract_links_from_driver false links
          (Discovery.with_driver driver st d)).1.2,
       S count,
       (Discovery.attribute driver extract_links_from_driver false links
          (Discovery.with_driver driver st d)).2).
Proof.
  intros (Hc & Hcount & Hmax) Hlt. cbn [fst snd] in *.
  destruct (collected_attribute false st0 log links
              (Discovery.with_driver driver st d))
    as (entry & Hc' & _); [now apply collected_with_driver|].
  exists entry. split_and!; cbn [fst snd]; [exact Hc'| |lia].
  rewrite length_app. cbn. lia.
Qed.

Lemma repeat_clicks_ok st0 n element log acc :
  clicks_ok st0 log acc ->
  exists log',
    clicks_ok st0 log'
      (Discovery.repeat_clicks driver extract_links_from_driver script_click
         n element acc).
Proof.
  revert log acc. induction n as [|n IH]; intros log [[links count] st] Hok;
    [now exists log|].
  cbn [Discovery.repeat_clicks].
  destruct (Nat.leb_spec Discovery.max_interactions count) as [|Hlt];
    [now exists log|].
  destruct (script_click _ _) as [clicked d1].
  destruct clicked.
  - destruct (clicks_ok_attribute st0 log links count st d1 Hok Hlt)
      as (entry & Hok').
    destruct (Discovery.attribute _ _ _ _ _) as [[new_links links'] st'].
    cbn [fst snd] in Hok'.
    destruct (decide (new_links = ∅)); [now exists (log ++ [entry])|].
    now apply (IH (log ++ [entry])).
  - exists log. destruct Hok as (Hc & ? & ?). split_and!; try done.
    now apply collected_with_driver.
Qed.

Lemma click_element_ok st0 log acc element :
  clicks_ok st0 log acc ->
  exists log',
    clicks_ok st0 log'
      (Discovery.click_element driver extract_links_from_driver script_click
         native_click domain acc element).
Proof.
  destruct acc as [[links count] st]. intros Hok.
  unfold Discovery.click_element.
  destruct (Nat.leb_spec Discovery.max_interactions count) as [|Hlt];
    [now exists log|].
  destruct (Discovery.is_external _ _); [now exists log|].
  assert (forall d, exists log',
            clicks_ok st0 log'
              (let '(new_links, dynamic_links, st) :=
                 Discovery.attribute driver extract_links_from_driver false
                   links (Discovery.with_driver driver st d) in
               if decide (new_links = ∅)
               then (dynamic_links, S count, st)
               else if Discovery.looks_like_pagination
                         (PyStr.take 50
                            (PyStr.strip Components.is_space
                               (Discovery.text element)))
               then Discovery.repeat_clicks driver extract_links_from_driver
                      script_click 3 element (dynamic_links, S count, st)
               else (dynamic_links, S count, st))) as Hclicked.
  { intros d.
    destruct (clicks_ok_attribute st0 log links count st d Hok Hlt)
      as (entry & Hok').
    destruct (Discovery.attribute _ _ _ _ _) as [[new_links links'] st'].
    cbn [fst snd] in Hok'.
    destruct (decide (new_links = ∅)); [now exists (log ++ [entry])|].
    destruct (Discovery.looks_like_pagination _);
      [|now exists (log ++ [entry])].
    now apply (repeat_clicks_ok st0 3 element (log ++ [entry])). }
  destruct (native_click _ _) as [clicked d1].
  destruct clicked; [apply Hclicked|].
  destruct (script_click _ _) as [clicked d1'].
  destruct clicked; [apply Hclicked|].
  exists log. destruct Hok as (Hc & ? & ?). split_and!; try done.
  now apply collected_with_driver.
Qed.

Lemma try_selector_ok st0 log acc selector :
  clicks_ok st0 log acc ->
  exists log',
    clicks_ok st0 log'
      (Discovery.try_selector driver extract_links_from_driver query_buttons
         script_click native_click domain acc selector).
Proof.
  destruct acc as [[links count] st]. intros Hok.
  unfold Discovery.try_selector.
  destruct (_ <=? _); [now exists log|].
  destruct (query_buttons _) as [buttons|]; [|now exists log].
  generalize (Discovery.interactive_script buttons).
  revert Hok. generalize (links, count, st). clear links count st.
  intros acc Hok elements. revert log acc Hok.
  induction elements as [|e elements IH]; intros log acc Hok;
    [now exists log|].
  cbn [fold_left].
  destruct (click_element_ok st0 log acc e Hok) as (log1 & Hok1).
  now apply (IH log1).
Qed.

Lemma try_selectors_ok st0 selectors log acc :
  clicks_ok st0 log acc ->
  exists log',
    clicks_ok st0 log'
      (fold_left
         (Discovery.try_selector driver extract_links_from_driver
            query_buttons script_click native_click domain)
         selectors acc).
Proof.
  revert log acc. induction selectors as [|s selectors IH]; intros log acc Hok;
    [now exists log|].
  cbn [fold_left].
  destruct (try_selector_ok st0 log acc s Hok) as (log1 & Hok1).
  now apply (IH log1).
Qed.

(** The scroll loop adds only links that its own baseline does not hold. *)
Lemma scroll_loop_links n d baseline scroll_links :
  NoDup scroll_links ->
  (forall u, u ∈ scroll_links -> u ∈ baseline) ->
  let r := Discovery.scroll_loop driver extract_links_from_driver
             scroll_to_bottom n d baseline scroll_links in
  NoDup r.1 /\
  exists added, r.1 = scroll_links ++ added /\
                forall u, u ∈ added ->
                  (u ∉ baseline) /\ exists d', u ∈ extract_links_from_driver d'.
Proof.
  clear query_clickables query_buttons script_click native_click back domain.
  revert d baseline scroll_links.
  induction n as [|n IH]; intros d baseline scroll_links Hnd Hsub;
    cbn [Discovery.scroll_loop].
  - cbn. split; [exact Hnd|]. exists []. rewrite app_nil_r. set_solver.
  - destruct (scroll_to_bottom d) as [scrolled d1].
    destruct scrolled;
      [|cbn; split; [exact Hnd|]; exists []; rewrite app_nil_r; set_solver].
    set (new_links := list_to_set (extract_links_from_driver d1) ∖ baseline).
    destruct (decide (new_links = ∅));
      [cbn; split; [exact Hnd|]; exists []; rewrite app_nil_r; set_solver|].
    destruct (IH d1 (baseline ∪ new_links) (scroll_links ++ elements new_links))
      as (Hnd' & added & Hadded & Hfresh).
    + apply NoDup_app. split_and!; [exact Hnd| |apply NoDup_elements].
      intros u Hu Hu'%elem_of_elements. specialize (Hsub u Hu).
      subst new_links. set_solver.
    + intros u [Hu|Hu%elem_of_elements]%elem_of_app; [|set_solver].
      specialize (Hsub u Hu). set_solver.
    + split; [exact Hnd'|]. exists (elements new_links ++ added).
      rewrite Hadded, <- app_assoc. split; [done|].
      intros u [Hu%elem_of_elements|Hu]%elem_of_app.
      * subst new_links. split; [set_solver|]. exists d1.
        apply elem_of_difference in Hu as [Hu _].
        now apply elem_of_list_to_set in Hu.
      * destruct (Hfresh u Hu) as [Hout Hshown]. split; [set_solver|done].
Qed.

End CollectFacts.

(** The links [handle_numbered_pagination] hands back: no link twice, none
    that the shared baseline held when the handler was entered, each read
    from the session after a click; the baseline and the set of dynamic
    URLs grow by exactly these links; and at most ten clicks are
    attributed. *)
Theorem numbered_pagination_returns (driver : Type)
    (extract_links_from_driver : driver -> list string)
    (query_clickables : driver -> option (list Discovery.web_element))
    (script_click native_click : Discovery.web_element -> driver -> bool * driver)
    (back : driver -> bool * driver) (st : Discovery.state driver) :
  let r := Discovery.handle_numbered_pagination driver extract_links_from_driver
             query_clickables script_click native_click back st in
  NoDup r.1 /\
  (forall u, u ∈ r.1 ->
     (u ∉ Discovery.initial_links driver st) /\
     exists d, u ∈ extract_links_from_driver d) /\
  Discovery.initial_links driver r.2
    = Discovery.initial_links driver st ∪ list_to_set r.1 /\
  Discovery.dynamic_urls_found driver r.2
    = Discovery.dynamic_urls_found driver st ∪ list_to_set r.1 /\
  length (Discovery.attributed driver r.2)
    <= length (Discovery.attributed driver st) + 10.
Proof.
  intros r.
  destruct (handle_numbered_pagination_collected driver
              extract_links_from_driver query_clickables script_click
              native_click back st) as (log & Hc & Hlen).
  fold r in Hc.
  pose proof (fun u => collected_links_shown _ _ _ _ _ _ _ u Hc) as Hshown.
  destruct Hc as [Hlog Hw Hbase Hlinks Hfound _].
  destruct (delta_links_fresh _ _ Hw) as (Hnd & Hfresh & Hafter).
  rewrite Hlinks in *. split_and!.
  - exact Hnd.
  - intros u Hu. split; [now apply Hfresh|now apply Hshown].
  - now rewrite Hbase.
  - exact Hfound.
  - rewrite Hlog, length_app. lia.
Qed.

(** The generic phase attributes at most [max_interactions] clicks and
    leaves the set of dynamic URLs alone; the list it hands back holds no
    link twice, holds every link its clicks added to the shared baseline,
    and holds only links read from the session. *)
Theorem other_interactions_bounded (driver : Type)
    (extract_links_from_driver : driver -> list string)
    (query_buttons : driver -> option (list Discovery.web_element))
    (script_click native_click : Discovery.web_element -> driver -> bool * driver)
    (scroll_to_bottom : driver -> bool * driver) (domain : string)
    (st : Discovery.state driver) :
  let r := Discovery.handle_other_interactions driver extract_links_from_driver
             query_buttons script_click native_click scroll_to_bottom domain
             st in
  length (Discovery.attributed driver r.2)
    <= length (Discovery.attributed driver st) + Discovery.max_interactions /\
  Discovery.dynamic_urls_found driver r.2 = Discovery.dynamic_urls_found driver st /\
  NoDup r.1 /\
  (forall u, u ∈ Discovery.initial_links driver r.2 ->
             u ∉ Discovery.initial_links driver st -> u ∈ r.1) /\
  (forall u, u ∈ r.1 -> exists d, u ∈ extract_links_from_driver d).
Proof.
  intros r. subst r. unfold Discovery.handle_other_interactions.
  destruct (try_selectors_ok driver extract_links_from_driver query_buttons
              script_click native_click domain st
              Discovery.interactive_selectors [] ([], 0, st))
    as (log & Hc & Hcount & Hmax).
  { split_and!; cbn; [apply collected_refl|done|unfold Discovery.max_interactions; lia]. }
  destruct (fold_left _ _ _) as [[dynamic_links count] st1].
  cbn [fst snd] in Hc, Hcount, Hmax.
  pose proof (fun u => collected_links_shown _ _ _ _ _ _ _ u Hc) as Hshown.
  destruct Hc as [Hlog Hw Hbase Hlinks Hfound _].
  destruct (delta_links_fresh _ _ Hw) as (_ & _ & Hafter).
  unfold Discovery.handle_infinite_scroll.
  pose proof (scroll_loop_links driver extract_links_from_driver
                scroll_to_bottom 5 (Discovery.drv driver st1)
                (list_to_set (extract_links_from_driver (Discovery.drv driver st1)))
                [] (NoDup_nil_2 (A:=string))) as Hscroll.
  destruct (Discovery.scroll_loop _ _ _ _ _ _ _) as [scroll_links d].
  cbn [fst snd] in *.
  destruct Hscroll as (_ & added & -> & Hadded); [set_solver|].
  unfold Discovery.with_driver.
  cbn [Discovery.attributed Discovery.dynamic_urls_found
       Discovery.initial_links fst snd].
  split_and!.
  - rewrite Hlog, length_app. lia.
  - exact Hfound.
  - apply NoDup_elements.
  - intros u Hu Hnew. apply elem_of_elements, elem_of_list_to_set, elem_of_app.
    left. rewrite Hbase, Hafter, <- Hlinks in Hu. set_solver.
  - intros u [Hu|Hu]%elem_of_elements%elem_of_list_to_set%elem_of_app.
    + now apply Hshown.
    + now destruct (Hadded u Hu).
Qed.

(** The links [handle_infinite_scroll] hands back: no link twice, none
    that the page showed before the first scroll, each read from the
    session after a scroll. *)
Theorem infinite_scroll_links (driver : Type)
    (extract_links_from_driver : driver -> list string)
    (scroll_to_bottom : driver -> bool * driver) (d : driver) :
  let r := Discovery.handle_infinite_scroll driver extract_links_from_driver
             scroll_to_bottom d in
  NoDup r.1 /\
  forall u, u ∈ r.1 ->
    (u ∉ extract_links_from_driver d) /\
    exists d', u ∈ extract_links_from_driver d'.
Proof.
  intros r. subst r. unfold Discovery.handle_infinite_scroll.
  destruct (scroll_loop_links driver extract_links_from_driver
              scroll_to_bottom 5 d
              (list_to_set (extract_links_from_driver d)) [] (NoDup_nil_2 (A:=string)))
    as (Hnd & added & Hadded & Hfresh); [set_solver|].
  split; [exact Hnd|]. intros u Hu. rewrite Hadded in Hu. cbn in Hu.
  destruct (Hfresh u Hu) as [Hout Hshown]. split; [|exact Hshown].
  intros Hin. apply Hout. now apply elem_of_list_to_set.
Qed.

(** ** The component extractors: identifiers and previews *)

(** Reading a decimal numeral back: [int(s)] for a string of digits. *)
Definition decimal_value (s : string) : nat :=
  fold_left (fun v c => 10 * v + (nat_of_ascii c - 48)) (list_ascii_of_string s) 0.

Section ComponentIdFacts.

Local Abbreviation read :=
  (fun v s => fold_left (fun v c => 10 * v + (nat_of_ascii c - 48))
                (list_ascii_of_string s) v).

Lemma digit_char_value d : d < 10 -> nat_of_ascii (PyStr.digit_char d) - 48 = d.
Proof.
  intros Hd. unfold PyStr.digit_char. rewrite nat_ascii_embedding by lia. lia.
Qed.

Lemma str_of_nat_aux_value fuel n acc :
  n < fuel ->
  exists k, forall v,
    read v (PyStr.str_of_nat_aux fuel n acc) = read (v * 10 ^ k + n) acc.
Proof.
  revert n acc. induction fuel as [|fuel IH]; intros n acc Hn; [lia|].
  cbn [PyStr.str_of_nat_aux].
  pose proof (Nat.mod_upper_bound n 10 ltac:(lia)) as Hmod.
  destruct (Nat.ltb_spec n 10) as [Hsmall|Hbig].
  - exists 1. intros v. cbn [list_ascii_of_string fold_left].
    rewrite digit_char_value, Nat.mod_small by lia. f_equal. cbn. lia.
  - destruct (IH (n / 10) (String (PyStr.digit_char (n mod 10)) acc)) as [k Hk].
    { assert (n / 10 < n) by (apply Nat.div_lt; lia). lia. }
    exists (S k). intros v. rewrite Hk. cbn [list_ascii_of_string fold_left].
    rewrite digit_char_value by lia. f_equal.
    pose proof (Nat.div_mod_eq n 10). cbn [Nat.pow]. nia.
Qed.

Lemma decimal_value_str_of_nat n : decimal_value (PyStr.str_of_nat n) = n.
Proof.
  unfold decimal_value, PyStr.str_of_nat.
  destruct (str_of_nat_aux_value (S n) n EmptyString) as [k Hk]; [lia|].
  rewrite Hk. cbn. lia.
Qed.

Lemma str_app_inv_head (a b c : string) : a +:+ b = a +:+ c -> b = c.
Proof. induction a as [|x a IH]; cbn; [done|]. intros [= H]. now apply IH. Qed.

Lemma seq_id_inj prefix i j :
  Components.seq_id prefix i = Components.seq_id prefix j -> i = j.
Proof.
  unfold Components.seq_id. intros H.
  apply str_app_inv_head, str_app_inv_head in H.
  apply (f_equal decimal_value) in H.
  rewrite !decimal_value_str_of_nat in H. lia.
Qed.

Lemma seq_ids_nodup prefix n :
  NoDup ((fun i => Some (Components.VStr (Components.seq_id prefix i)))
           <$> seq 0 n).
Proof.
  apply NoDup_fmap_2; [|apply NoDup_seq].
  intros i j [= H]. now apply seq_id_inj in H.
Qed.

Lemma Forall_imap_intro {A B} (P : B -> Prop) (f : nat -> A -> B) (l : list A) :
  (forall i x, P (f i x)) -> Forall P (imap f l).
Proof.
  intros Hf. revert f Hf. induction l as [|x l IH]; intros f Hf; cbn;
    constructor; [apply Hf|]. apply IH. intros i y. apply Hf.
Qed.

End ComponentIdFacts.

(** The identifiers of a list of components are [prefix_1], [prefix_2], ...
    in list order. *)
Definition numbered (prefix : string) (cs : list Components.component) : Prop :=
  Components.field "id" <$> cs
  = (fun i => Some (Components.VStr (Components.seq_id prefix i)))
      <$> seq 0 (length cs).

(** Every component carries a text preview of at most [limit] characters. *)
Definition preview_within (limit : nat) (cs : list Components.component) : Prop :=
  Forall (fun c => exists s,
            Components.field "text_content" c = Some (Components.VStr s) /\
            String.length s <= limit) cs.

Section ComponentShapeFacts.

Lemma numbered_imap {A} prefix (rest : nat -> A -> Components.component) l :
  numbered prefix
    (imap (fun i x => ("id", Components.VStr (Components.seq_id prefix i))
                        :: rest i x) l).
Proof. unfold numbered. now rewrite capped_ids, length_imap. Qed.

End ComponentShapeFacts.

(** For each of the fourteen component types, the records of a page are
    numbered [type_1], [type_2], ... in document order, and no two records
    of a type share an identifier, so each record is saved to a file of its
    own. *)
Theorem component_ids_distinct (soup : Soup.node) :
  (numbered "header" (Components.extract_header_components soup) /\
   numbered "navigation" (Components.extract_navigation_components soup) /\
   numbered "main_content" (Components.extract_main_content_components soup) /\
   numbered "article" (Components.extract_article_components soup) /\
   numbered "card" (Components.extract_card_components soup) /\
   numbered "form" (Components.extract_form_components soup) /\
   numbered "table" (Components.extract_table_components soup) /\
   numbered "list" (Components.extract_list_components soup) /\
   numbered "media" (Components.extract_media_components soup) /\
   numbered "footer" (Components.extract_footer_components soup) /\
   numbered "sidebar" (Components.extract_sidebar_components soup) /\
   numbered "modal" (Components.extract_modal_components soup) /\
   numbered "button" (Components.extract_button_components soup) /\
   numbered "breadcrumb" (Components.extract_breadcrumb_components soup)) /\
  (forall extraction,
     extraction ∈ Components.component_extractions ->
     NoDup (Components.field "id" <$> extraction.2 soup)).
Proof.
  assert (numbered "header" (Components.extract_header_components soup) /\
   numbered "navigation" (Components.extract_navigation_components soup) /\
   numbered "main_content" (Components.extract_main_content_components soup) /\
   numbered "article" (Components.extract_article_components soup) /\
   numbered "card" (Components.extract_card_components soup) /\
   numbered "form" (Components.extract_form_components soup) /\
   numbered "table" (Components.extract_table_components soup) /\
   numbered "list" (Components.extract_list_components soup) /\
   numbered "media" (Components.extract_media_components soup) /\
   numbered "footer" (Components.extract_footer_components soup) /\
   numbered "sidebar" (Components.extract_sidebar_components soup) /\
   numbered "modal" (Components.extract_modal_components soup) /\
   numbered "button" (Components.extract_button_components soup) /\
   numbered "breadcrumb" (Components.extract_breadcrumb_components soup))
    as Hnum by (split_and!; apply numbered_imap).
  split; [exact Hnum|].
  intros [name f] Hin. cbn [snd].
  unfold Components.component_extractions in Hin.
  repeat (apply elem_of_cons in Hin as [[= -> ->]|Hin]).
  all: try (inversion Hin).
  all: destruct Hnum as
    (H1 & H2 & H3 & H4 & H5 & H6 & H7 & H8 & H9 & H10 & H11 & H12 & H13 & H14).
  all: unfold numbered in *.
  all: first [rewrite H1|rewrite H2|rewrite H3|rewrite H4|rewrite H5|rewrite H6
             |rewrite H7|rewrite H8|rewrite H9|rewrite H10|rewrite H11
             |rewrite H12|rewrite H13|rewrite H14].
  all: apply seq_ids_nodup.
Qed.

(** Every record carries a text preview cut to the limit of its type:
    50 characters for buttons, 100 for media and breadcrumbs, 500 for main
    content, 300 for articles, tables and footers, 200 for the others. *)
Theorem component_previews_bounded (soup : Soup.node) :
  preview_within 200 (Components.extract_header_components soup) /\
  preview_within 200 (Components.extract_navigation_components soup) /\
  preview_within 500 (Components.extract_main_content_components soup) /\
  preview_within 300 (Components.extract_article_components soup) /\
  preview_within 200 (Components.extract_card_components soup) /\
  preview_within 200 (Components.extract_form_components soup) /\
  preview_within 300 (Components.extract_table_components soup) /\
  preview_within 200 (Components.extract_list_components soup) /\
  preview_within 100 (Components.extract_media_components soup) /\
  preview_within 300 (Components.extract_footer_components soup) /\
  preview_within 200 (Components.extract_sidebar_components soup) /\
  preview_within 200 (Components.extract_modal_components soup) /\
  preview_within 50 (Components.extract_button_components soup) /\
  preview_within 100 (Components.extract_breadcrumb_components soup).
Proof.
  split_and!; apply Forall_imap_intro; intros i x;
    (eexists; split; [reflexivity|apply str_take_length]).
Qed.

(** ** The extraction pipeline: what a run leaves behind *)

(** Nothing was removed between two trees: what existed still exists, and
    directories are still directories. *)
Definition keeps (fs fs' : gmap Sys.path Sys.entry) : Prop :=
  (forall p, is_Some (fs !! p) -> is_Some (fs' !! p)) /\
  (forall p, Sys.is_dir fs p = true -> Sys.is_dir fs' p = true).

(** A computation that only saves files: whatever it returns, it removes
    nothing and makes no request. *)
Definition only_saves {X : Type} (m : Sys.M X) : Prop :=
  forall w, keeps (Sys.files w) (Sys.files (m w).2) /\
            Sys.fetch_log (m w).2 = Sys.fetch_log w.

Section SavingFacts.
Import Sys.

Lemma keeps_refl fs : keeps fs fs.
Proof. now split. Qed.

Lemma keeps_trans fs1 fs2 fs3 : keeps fs1 fs2 -> keeps fs2 fs3 -> keeps fs1 fs3.
Proof. intros [H1 H2] [H3 H4]. split; auto. Qed.

Lemma keeps_insert_file (fs : gmap path entry) p c :
  is_dir fs p = false -> keeps fs (<[p := File c]> fs).
Proof.
  intros Hp. split.
  - intros q Hq. destruct (decide (q = p)) as [->|Hne].
    + rewrite lookup_insert_eq. eauto.
    + now rewrite lookup_insert_ne.
  - intros q Hq. destruct (decide (q = p)) as [->|Hne]; [congruence|].
    now rewrite is_dir_insert_other.
Qed.

Lemma keeps_insert_dir (fs : gmap path entry) p :
  fs !! p = None -> keeps fs (<[p := Dir]> fs).
Proof.
  intros Hp. split.
  - intros q Hq. destruct (decide (q = p)) as [->|Hne].
    + rewrite lookup_insert_eq. eauto.
    + now rewrite lookup_insert_ne.
  - intros q Hq. destruct (decide (q = p)) as [->|Hne].
    + unfold is_dir. rewrite lookup_insert_eq. now destruct p.
    + now rewrite is_dir_insert_other.
Qed.

Lemma only_saves_ret {X} (x : X) : only_saves (mret x).
Proof. intros w. split; [apply keeps_refl|reflexivity]. Qed.

Lemma only_saves_raise {X} msg : only_saves (raise (X := X) msg).
Proof. intros w. split; [apply keeps_refl|reflexivity]. Qed.

Lemma only_saves_bind {X Y} (m : M X) (k : X -> M Y) :
  only_saves m -> (forall x, only_saves (k x)) -> only_saves (m ≫= k).
Proof.
  intros Hm Hk w. unfold mbind, M_bind.
  destruct (Hm w) as [Hkeep Hlog]. destruct (m w) as [[x|e] w1]; cbn in *.
  - destruct (Hk x w1) as [Hkeep' Hlog'].
    split; [eapply keeps_trans; eauto|congruence].
  - now split.
Qed.

Lemma only_saves_try {X} (body : M X) (handler : string -> M X) :
  only_saves body -> (forall e, only_saves (handler e)) ->
  only_saves (try_except body handler).
Proof.
  intros Hm Hk w. unfold try_except.
  destruct (Hm w) as [Hkeep Hlog]. destruct (body w) as [[x|e] w1]; cbn in *.
  - now split.
  - destruct (Hk e w1) as [Hkeep' Hlog'].
    split; [eapply keeps_trans; eauto|congruence].
Qed.

Lemma only_saves_for_each {A} (l : list A) (body : A -> M unit) :
  (forall x, only_saves (body x)) -> only_saves (for_each l body).
Proof.
  intros Hbody. induction l as [|x l IH]; cbn [for_each].
  - apply only_saves_ret.
  - apply only_saves_bind; [apply Hbody|]. intros _. exact IH.
Qed.

Lemma only_saves_path_exists p : only_saves (path_exists p).
Proof. intros w. split; [apply keeps_refl|reflexivity]. Qed.

Lemma only_saves_iterdir dir : only_saves (iterdir dir).
Proof.
  intros w. unfold iterdir.
  destruct (is_dir _ _); split; try apply keeps_refl; reflexivity.
Qed.

Lemma only_saves_mkdir p : only_saves (mkdir_exist_ok p).
Proof.
  intros w. unfold mkdir_exist_ok.
  destruct (is_dir (files w) p); [split; [apply keeps_refl|reflexivity]|].
  destruct (files w !! p) eqn:Hp; [split; [apply keeps_refl|reflexivity]|].
  destruct (is_dir (files w) (parent p));
    (split; [|reflexivity]); [now apply keeps_insert_dir|apply keeps_refl].
Qed.

Lemma only_saves_write_file p c : only_saves (write_file p c).
Proof.
  intros w. unfold write_file.
  destruct (is_dir (files w) p) eqn:Hp; [split; [apply keeps_refl|reflexivity]|].
  destruct (is_dir (files w) (parent p));
    (split; [|reflexivity]); [now apply keeps_insert_file|apply keeps_refl].
Qed.

(** After a successful [mkdir] the directory is there; after a successful
    write the file is. *)
Lemma mkdir_ok_is_dir (p : path) w w' :
  mkdir_exist_ok p w = (Ok tt, w') -> is_dir (files w') p = true.
Proof.
  unfold mkdir_exist_ok.
  destruct (is_dir (files w) p) eqn:Hp; [now intros [= <-]|].
  destruct (files w !! p); [done|].
  destruct (is_dir (files w) (parent p)); [|done].
  intros [= <-]. cbn. unfold is_dir. rewrite lookup_insert_eq. now destruct p.
Qed.

Lemma write_file_ok_exists (p : path) c w w' :
  write_file p c w = (Ok tt, w') -> files w' !! p = Some (File c).
Proof.
  unfold write_file.
  destruct (is_dir (files w) p); [done|].
  destruct (is_dir (files w) (parent p)); [|done].
  intros [= <-]. cbn. apply lookup_insert_eq.
Qed.

Lemma path_exists_true (p : path) w :
  p <> [] -> is_Some (files w !! p) -> path_exists p w = (Ok true, w).
Proof.
  intros Hp [e He]. unfold path_exists. destruct p; [done|]. now rewrite He.
Qed.

Lemma path_exists_false (p : path) w :
  p <> [] -> files w !! p = None -> path_exists p w = (Ok false, w).
Proof.
  intros Hp He. unfold path_exists. destruct p; [done|]. now rewrite He.
Qed.

End SavingFacts.

Section HTMLExtractorRuns.
Import Sys.
Variable urlparse : string -> option UrlParse.ParseResult.
Variable http_get : string -> option response.
Variable parse_html : string -> Soup.node.
Variable to_markup : Soup.node -> string.
Variable prettify : Soup.node -> string.
Variable now : string.
Variable output_dir : path.

Local Abbreviation extract_single_url :=
  (HTMLExtractor.extract_single_url urlparse http_get parse_html to_markup
     prettify now output_dir).

Lemma save_components_only_saves components page_dir :
  only_saves (HTMLExtractor.save_components components page_dir).
Proof.
  clear. unfold HTMLExtractor.save_components.
  apply only_saves_try; [|intros; apply only_saves_ret].
  apply only_saves_for_each. intros [component_type value].
  destruct (HTMLExtractor.is_falsy value); [apply only_saves_ret|].
  destruct value; apply only_saves_write_file.
Qed.

Lemma extract_components_only_saves soup page_dir :
  only_saves (HTMLExtractor.extract_components to_markup soup page_dir).
Proof.
  clear urlparse http_get parse_html prettify now output_dir.
  unfold HTMLExtractor.extract_components.
  apply only_saves_try; [|intros; apply only_saves_ret].
  apply save_components_only_saves.
Qed.

(** The page file of [url], when its identifier can be computed. *)
Definition page_file (page_id : string) : path :=
  join (join output_dir page_id) "page.html".

Lemma page_file_app page_id :
  page_file page_id = join output_dir page_id ++ ["page.html"].
Proof. reflexivity. Qed.

(** What a call of [extract_single_url] does: it returns without raising;
    it fails before any request, or skips the page, or makes the one
    request. *)
Inductive run_of (url : string) (w : world) : bool -> world -> Prop :=
| run_rejected :
    run_of url w false w
| run_skipped page_id w1 :
    PageId.create_page_identifier urlparse url = Some page_id ->
    mkdir_exist_ok (join output_dir page_id) w = (Ok tt, w1) ->
    is_Some (files w1 !! page_file page_id) ->
    run_of url w true w1
| run_fetch_failed page_id w1 :
    PageId.create_page_identifier urlparse url = Some page_id ->
    mkdir_exist_ok (join output_dir page_id) w = (Ok tt, w1) ->
    files w1 !! page_file page_id = None ->
    http_get url = None ->
    run_of url w false (mkWorld (files w1) (fetch_log w1 ++ [url]))
| run_fetched page_id w1 r b w' :
    PageId.create_page_identifier urlparse url = Some page_id ->
    mkdir_exist_ok (join output_dir page_id) w = (Ok tt, w1) ->
    files w1 !! page_file page_id = None ->
    http_get url = Some r ->
    keeps (files w1) (files w') ->
    fetch_log w' = fetch_log w1 ++ [url] ->
    (b = true -> is_Some (files w' !! page_file page_id)) ->
    run_of url w b w'.

Lemma extract_single_url_run url w :
  exists b w', extract_single_url url w = (Ok b, w') /\ run_of url w b w'.
Proof.
  unfold HTMLExtractor.extract_single_url, try_except, mbind, M_bind,
    HTMLExtractor.create_page_identifier.
  destruct (PageId.create_page_identifier urlparse url) as [page_id|] eqn:Hid;
    [|exists false, w; split; [reflexivity|constructor]].
  unfold mret at 1, M_ret at 1.
  destruct (mkdir_exist_ok (join output_dir page_id) w) as [[[]|e] w1] eqn:Hmk.
  2:{ exists false, w1. split; [reflexivity|].
      assert (w1 = w) as ->; [|constructor].
      revert Hmk. unfold mkdir_exist_ok.
      destruct (is_dir _ _); [done|]. destruct (_ !! _); [now intros [= <-]|].
      destruct (is_dir _ _); [done|now intros [= <-]]. }
  cbv beta iota. fold (page_file page_id).
  assert (page_file page_id <> []) as Hne
    by (rewrite page_file_app; now destruct (join output_dir page_id)).
  destruct (files w1 !! page_file page_id) as [e|] eqn:Hhtml.
  { rewrite (path_exists_true _ w1 Hne) by eauto. cbv beta iota.
    exists true, w1. split; [reflexivity|].
    eapply run_skipped; eauto. }
  rewrite (path_exists_false _ w1 Hne Hhtml). cbv beta iota.
  unfold HTMLExtractor.session_get at 1.
  destruct (http_get url) as [r|] eqn:Hget.
  2:{ eexists false, _. split; [reflexivity|].
      eapply run_fetch_failed; eauto. }
  set (w2 := mkWorld (files w1) (fetch_log w1 ++ [url])).
  destruct (write_file (page_file page_id)
              (Text (prettify (parse_html (body r)))) w2)
    as [[[]|e] w3] eqn:Hwrite.
  2:{ exists false, w3. split; [reflexivity|].
      destruct (only_saves_write_file (page_file page_id)
                  (Text (prettify (parse_html (body r)))) w2) as [Hk Hl].
      rewrite Hwrite in Hk, Hl. cbn in Hk, Hl.
      eapply run_fetched; eauto. done. }
  cbv beta iota.
  pose proof (write_file_ok_exists _ _ _ _ Hwrite) as Hfile.
  destruct (only_saves_write_file (page_file page_id)
              (Text (prettify (parse_html (body r)))) w2) as [Hk3 Hl3].
  rewrite Hwrite in Hk3, Hl3. cbn in Hk3, Hl3.
  match goal with
  | |- context [write_file ?p ?c w3] =>
      destruct (only_saves_write_file p c w3) as [Hk4 Hl4];
      destruct (write_file p c w3) as [[[]|e] w4] eqn:Hinfo
  end; cbn in Hk4, Hl4.
  2:{ exists false, w4. split; [reflexivity|].
      eapply run_fetched; eauto; [|congruence|done].
      eapply keeps_trans; eauto. }
  destruct (extract_components_only_saves (parse_html (body r))
              (join output_dir page_id) w4) as [Hk5 Hl5].
  destruct (HTMLExtractor.extract_components _ _ _ w4) as [[[]|e] w5] eqn:Hcomp;
    cbn in Hk5, Hl5.
  2:{ exists false, w5. split; [reflexivity|].
      eapply run_fetched; eauto; [|congruence|done].
      eapply keeps_trans; [|exact Hk5]. eapply keeps_trans; eauto. }
  exists true, w5. split; [reflexivity|].
  eapply run_fetched; eauto; [|congruence|].
  - eapply keeps_trans; [|exact Hk5]. eapply keeps_trans; eauto.
  - intros _. apply Hk5, Hk4. rewrite Hfile. eauto.
Qed.

Lemma extract_single_url_effects url w :
  exists b w',
    extract_single_url url w = (Ok b, w') /\
    keeps (files w) (files w') /\
    (fetch_log w' = fetch_log w \/ fetch_log w' = fetch_log w ++ [url]).
Proof.
  destruct (extract_single_url_run url w) as (b & w' & Hrun & Hof).
  exists b, w'. split; [exact Hrun|].
  destruct Hof as [|page_id w1 _ Hmk _|page_id w1 _ Hmk _ _
                  |page_id w1 r b w' _ Hmk _ _ Hkeep Hlog _].
  - split; [apply keeps_refl|now left].
  - destruct (only_saves_mkdir (join output_dir page_id) w) as [Hk Hl].
    rewrite Hmk in Hk, Hl. split; [exact Hk|now left].
  - destruct (only_saves_mkdir (join output_dir page_id) w) as [Hk Hl].
    rewrite Hmk in Hk, Hl. cbn in *. split; [exact Hk|right; congruence].
  - destruct (only_saves_mkdir (join output_dir page_id) w) as [Hk Hl].
    rewrite Hmk in Hk, Hl. cbn in *.
    split; [eapply keeps_trans; eauto|right; congruence].
Qed.

(** The URLs of a list: every call is counted once, and the requests made
    are requests for URLs of the list, in list order. *)
Lemma extract_urls_effects urls success failed w :
  exists success' failed' w',
    HTMLExtractor.extract_urls urlparse http_get parse_html to_markup prettify
      now output_dir urls success failed w = (Ok (success', failed'), w') /\
    success' + failed' = success + failed + length urls /\
    keeps (files w) (files w') /\
    exists l, fetch_log w' = fetch_log w ++ l /\ sublist l urls.
Proof.
  revert success failed w.
  induction urls as [|url urls IH]; intros success failed w;
    cbn [HTMLExtractor.extract_urls].
  - exists success, failed, w. split_and!; [reflexivity|cbn; lia|apply keeps_refl|].
    exists []. now rewrite app_nil_r.
  - unfold mbind, M_bind at 1.
    destruct (extract_single_url_effects url w) as (b & w1 & -> & Hk & Hlog).
    assert (exists l1, fetch_log w1 = fetch_log w ++ l1 /\ sublist l1 [url])
      as (l1 & Hl1 & Hs1).
    { destruct Hlog as [->| ->]; [exists []|exists [url]];
        rewrite ?app_nil_r; split; try done. apply sublist_nil_l. }
    destruct b.
    + destruct (IH (S success) failed w1)
        as (s' & f' & w' & -> & Hsum & Hk' & l & Hl & Hs).
      exists s', f', w'. split_and!; [reflexivity|cbn; lia|eapply keeps_trans; eauto|].
      exists (l1 ++ l). rewrite Hl, Hl1, app_assoc. split; [done|].
      now apply (sublist_app l1 [url] l urls).
    + destruct (IH success (S failed) w1)
        as (s' & f' & w' & -> & Hsum & Hk' & l & Hl & Hs).
      exists s', f', w'. split_and!; [reflexivity|cbn; lia|eapply keeps_trans; eauto|].
      exists (l1 ++ l). rewrite Hl, Hl1, app_assoc. split; [done|].
      now apply (sublist_app l1 [url] l urls).
Qed.

Lemma mkdir_other (p q : path) w r w1 :
  mkdir_exist_ok p w = (r, w1) -> q <> p ->
  files w1 !! q = files w !! q /\ fetch_log w1 = fetch_log w.
Proof.
  clear. unfold mkdir_exist_ok. intros Hmk Hne.
  destruct (is_dir _ _); [now injection Hmk as <- <-|].
  destruct (_ !! _); [now injection Hmk as <- <-|].
  destruct (is_dir _ _); injection Hmk as <- <-; [|done].
  cbn. now rewrite lookup_insert_ne.
Qed.

Lemma page_file_not_dir page_id : page_file page_id <> join output_dir page_id.
Proof.
  rewrite page_file_app. intros H. apply (f_equal length) in H.
  rewrite length_app in H. cbn in H. lia.
Qed.

(** With the page directory and the page file in place, the call is a
    skip. *)
Lemma extract_single_url_again url page_id w :
  PageId.create_page_identifier urlparse url = Some page_id ->
  is_dir (files w) (join output_dir page_id) = true ->
  is_Some (files w !! page_file page_id) ->
  extract_single_url url w = (Ok true, w).
Proof.
  intros Hid Hdir Hfile.
  unfold HTMLExtractor.extract_single_url, try_except, mbind, M_bind,
    HTMLExtractor.create_page_identifier.
  rewrite Hid. unfold mret at 1, M_ret at 1.
  rewrite (mkdir_existing _ _ Hdir). cbv beta iota.
  fold (page_file page_id).
  rewrite (path_exists_true (page_file page_id) w); [reflexivity| |exact Hfile].
  rewrite page_file_app. now destruct (join output_dir page_id).
Qed.

End HTMLExtractorRuns.

(** A call of [extract_single_url] returns a flag and never raises; it
    removes nothing from the output tree; and it makes at most one request,
    for the URL it was given. *)
Theorem extract_single_url_contained
    (urlparse : string -> option UrlParse.ParseResult)
    (http_get : string -> option Sys.response)
    (parse_html : string -> Soup.node) (to_markup prettify : Soup.node -> string)
    (now : string) (output_dir : Sys.path) (url : string) (w : Sys.world) :
  exists b w',
    HTMLExtractor.extract_single_url urlparse http_get parse_html to_markup
      prettify now output_dir url w = (Sys.Ok b, w') /\
    keeps (Sys.files w) (Sys.files w') /\
    (Sys.fetch_log w' = Sys.fetch_log w \/
     Sys.fetch_log w' = Sys.fetch_log w ++ [url]).
Proof. apply extract_single_url_effects. Qed.

(** After a call of [extract_single_url] that returned [True], a second
    call for the same URL returns [True] at once: it makes no request and
    changes nothing. *)
Theorem extract_then_resume
    (urlparse : string -> option UrlParse.ParseResult)
    (http_get : string -> option Sys.response)
    (parse_html : string -> Soup.node) (to_markup prettify : Soup.node -> string)
    (now : string) (output_dir : Sys.path) (url : string) (w w' : Sys.world) :
  HTMLExtractor.extract_single_url urlparse http_get parse_html to_markup
    prettify now output_dir url w = (Sys.Ok true, w') ->
  HTMLExtractor.extract_single_url urlparse http_get parse_html to_markup
    prettify now output_dir url w' = (Sys.Ok true, w').
Proof.
  intros Hfirst.
  destruct (extract_single_url_run urlparse http_get parse_html to_markup
              prettify now output_dir url w) as (b & w1 & Hrun & Hof).
  rewrite Hfirst in Hrun. injection Hrun as <- <-.
  inversion Hof as [|page_id w1 Hid Hmk Hfile|
                   |page_id w1 r b w2 Hid Hmk _ _ Hkeep _ Hfile]; subst.
  - eapply extract_single_url_again; eauto.
    now apply mkdir_ok_is_dir in Hmk.
  - eapply extract_single_url_again; eauto.
    apply Hkeep. now apply mkdir_ok_is_dir in Hmk.
Qed.

(** When the request for a page that has not been saved fails, the call
    returns [False] and the page file is still absent afterwards, so a
    later run tries the URL again. *)
Theorem failed_fetch_is_retried
    (urlparse : string -> option UrlParse.ParseResult)
    (http_get : string -> option Sys.response)
    (parse_html : string -> Soup.node) (to_markup prettify : Soup.node -> string)
    (now : string) (output_dir : Sys.path) (url page_id : string)
    (w : Sys.world) :
  http_get url = None ->
  PageId.create_page_identifier urlparse url = Some page_id ->
  Sys.files w !! page_file output_dir page_id = None ->
  exists w',
    HTMLExtractor.extract_single_url urlparse http_get parse_html to_markup
      prettify now output_dir url w = (Sys.Ok false, w') /\
    Sys.files w' !! page_file output_dir page_id = None.
Proof.
  intros Hget Hid Habsent.
  destruct (extract_single_url_run urlparse http_get parse_html to_markup
              prettify now output_dir url w) as (b & w' & Hrun & Hof).
  assert (forall r w1,
            Sys.mkdir_exist_ok (Sys.join output_dir page_id) w = (r, w1) ->
            Sys.files w1 !! page_file output_dir page_id = None) as Hsame.
  { intros r w1 Hmk.
    destruct (mkdir_other _ (page_file output_dir page_id) _ _ _ Hmk) as [-> _];
      [apply page_file_not_dir|exact Habsent]. }
  destruct Hof as [|page_id' w1 Hid' Hmk Hfile|page_id' w1 Hid' Hmk Hfile _
                  |page_id' w1 r b w' _ _ _ Hget' _ _ _].
  - exists w. split; [exact Hrun|exact Habsent].
  - exfalso. rewrite Hid in Hid'. injection Hid' as <-.
    rewrite (Hsame _ _ Hmk) in Hfile. now destruct Hfile.
  - eexists. split; [exact Hrun|]. cbn.
    rewrite Hid in Hid'. injection Hid' as <-. exact Hfile.
  - congruence.
Qed.

(** An output directory with nothing in it yet. *)
Definition fresh_world : Sys.world :=
  Sys.mkWorld (<[ ["extracted_html"] := Sys.Dir ]> ∅) [].

Lemma extract_then_resume_witness :
  let run :=
    HTMLExtractor.extract_single_url UrlParse.urlparse_ref
      (fun _ => Some (Sys.mkResponse 200 "text/html" "<p>intro</p>"))
      (fun _ => Soup.Element "p" None [] [Soup.Text "intro"])
      (fun _ => "<p>intro</p>") (fun _ => "<p>intro</p>")
      "2025-01-01 00:00:00" ["extracted_html"]
      "http://example.com/docs/intro.html" in
  run (run fresh_world).2 = (Sys.Ok true, (run fresh_world).2) /\
  Sys.fetch_log (run fresh_world).2 = ["http://example.com/docs/intro.html"].
Proof.
  intros run. split.
  - apply (extract_then_resume _ _ _ _ _ _ _ _ fresh_world).
    rewrite (surjective_pairing (run fresh_world)).
    f_equal; vm_compute; reflexivity.
  - vm_compute. reflexivity.
Defined.

Lemma failed_fetch_is_retried_witness :
  exists w',
    HTMLExtractor.extract_single_url UrlParse.urlparse_ref (fun _ => None)
      (fun _ => Soup.Text "") (fun _ => "") (fun _ => "")
      "2025-01-01 00:00:00" ["extracted_html"]
      "http://example.com/docs/intro.html" fresh_world = (Sys.Ok false, w') /\
    Sys.files w' !! page_file ["extracted_html"] "docs_intro" = None.
Proof.
  apply (failed_fetch_is_retried UrlParse.urlparse_ref (fun _ => None)).
  - reflexivity.
  - vm_compute. reflexivity.
  - vm_compute. reflexivity.
Defined.


(** ** The analysis pipeline: what a run leaves behind *)

Section AnalyzerRuns.
Import Sys.
Variable urlparse : string -> option UrlParse.ParseResult.
Variable http_get : string -> option response.
Variable parse_html : string -> Soup.node.
Variable to_markup : Soup.node -> string.
Variable prettify : Soup.node -> string.
Variable now : string.
Variable output_dir : path.
Variable the_strategies : AdvancedComponentAnalyzer.strategies.

Local Abbreviation analyze :=
  (AdvancedComponentAnalyzer.extract_and_analyze_single_url urlparse http_get
     parse_html to_markup prettify now output_dir the_strategies).

Lemma save_component_html_only_saves components component_type components_dir :
  only_saves (AdvancedComponentAnalyzer.save_component_html to_markup
                components component_type components_dir).
Proof.
  clear urlparse http_get parse_html prettify now output_dir the_strategies.
  unfold AdvancedComponentAnalyzer.save_component_html.
  destruct components as [|c components]; [apply only_saves_ret|].
  apply only_saves_bind; [apply only_saves_mkdir|]. intros _.
  apply only_saves_bind; [|intros _; apply only_saves_write_file].
  apply only_saves_for_each. intros component. apply only_saves_write_file.
Qed.

Lemma create_component_index_only_saves components_dir page_dir :
  only_saves (AdvancedComponentAnalyzer.create_component_index now
                components_dir page_dir).
Proof.
  clear urlparse http_get parse_html to_markup prettify output_dir
    the_strategies.
  unfold AdvancedComponentAnalyzer.create_component_index.
  apply only_saves_bind; [apply only_saves_iterdir|]. intros entries.
  apply only_saves_bind.
  - induction entries as [|[component_type [|c]] entries IH].
    + apply only_saves_ret.
    + apply only_saves_bind; [apply only_saves_iterdir|]. intros below.
      apply only_saves_bind; [exact IH|]. intros rest. apply only_saves_ret.
    + exact IH.
  - intros types.
    apply only_saves_bind; [apply only_saves_write_file|]. intros _.
    apply only_saves_write_file.
Qed.

Lemma extract_and_save_html_components_only_saves soup page_dir :
  only_saves (AdvancedComponentAnalyzer.extract_and_save_html_components
                to_markup now soup page_dir).
Proof.
  clear urlparse http_get parse_html prettify output_dir the_strategies.
  unfold AdvancedComponentAnalyzer.extract_and_save_html_components.
  apply only_saves_try; [|intros; apply only_saves_ret].
  apply only_saves_bind; [apply only_saves_mkdir|]. intros _.
  apply only_saves_bind; [|intros _; apply create_component_index_only_saves].
  apply only_saves_for_each. intros [component_type extraction_func].
  apply only_saves_try; [|intros; apply only_saves_ret].
  apply save_component_html_only_saves.
Qed.

Lemma run_strategies_only_saves table soup url page_dir :
  only_saves (AdvancedComponentAnalyzer.run_strategies table soup url page_dir).
Proof.
  clear. induction table as [|[strategy_name strategy_func] table IH];
    cbn [AdvancedComponentAnalyzer.run_strategies].
  - apply only_saves_ret.
  - apply only_saves_bind.
    + apply only_saves_try; [|intros; apply only_saves_ret].
      destruct (strategy_func soup url); [|apply only_saves_raise].
      apply only_saves_bind; [apply only_saves_write_file|].
      intros _. apply only_saves_ret.
    + intros entry. apply only_saves_bind; [exact IH|].
      intros rest. apply only_saves_ret.
Qed.

(** The analysis file of a page. *)
Definition analysis_file (page_id : string) : path :=
  join (join output_dir page_id) "comprehensive_analysis.json".

Lemma analysis_file_app page_id :
  analysis_file page_id
  = join output_dir page_id ++ ["comprehensive_analysis.json"].
Proof. reflexivity. Qed.

Lemma analysis_file_not_empty page_id : analysis_file page_id <> [].
Proof.
  rewrite analysis_file_app. now destruct (join output_dir page_id).
Qed.

(** What a call of [extract_and_analyze_single_url] does. *)
Inductive analysis_of (url : string) (w : world) : bool -> world -> Prop :=
| analysis_rejected :
    PageId.create_page_identifier urlparse url = None \/
    (exists page_id e,
       PageId.create_page_identifier urlparse url = Some page_id /\
       mkdir_exist_ok (join output_dir page_id) w = (Exn e, w)) ->
    analysis_of url w false w
| analysis_skipped page_id w1 :
    PageId.create_page_identifier urlparse url = Some page_id ->
    mkdir_exist_ok (join output_dir page_id) w = (Ok tt, w1) ->
    is_Some (files w1 !! analysis_file page_id) ->
    analysis_of url w true w1
| analysis_requested page_id w1 b w' :
    PageId.create_page_identifier urlparse url = Some page_id ->
    mkdir_exist_ok (join output_dir page_id) w = (Ok tt, w1) ->
    files w1 !! analysis_file page_id = None ->
    keeps (files w1) (files w') ->
    fetch_log w' = fetch_log w1 ++ [url] ->
    (b = true -> is_Some (files w' !! analysis_file page_id)) ->
    analysis_of url w b w'.

Local Ltac failed Hid Hmk Hfile :=
  eexists false, _; split; [reflexivity|];
  eapply analysis_requested; [exact Hid|exact Hmk|exact Hfile| | |done];
  [repeat (first [eassumption|eapply keeps_trans; [|eassumption]])
  |congruence].

Lemma analyze_run url is_dynamic w :
  exists b w', analyze url is_dynamic w = (Ok b, w') /\ analysis_of url w b w'.
Proof.
  unfold AdvancedComponentAnalyzer.extract_and_analyze_single_url, try_except,
    mbind, M_bind, AdvancedComponentAnalyzer.create_page_identifier.
  destruct (PageId.create_page_identifier urlparse url) as [page_id|] eqn:Hid;
    [|exists false, w; split; [reflexivity|constructor; now left]].
  unfold mret at 1, M_ret at 1.
  destruct (mkdir_exist_ok (join output_dir page_id) w) as [[[]|e] w1] eqn:Hmk.
  2:{ exists false, w1. split; [reflexivity|].
      assert (w1 = w) as ->; [|constructor; right; eauto].
      revert Hmk. unfold mkdir_exist_ok.
      destruct (is_dir _ _); [done|]. destruct (_ !! _); [now intros [= <-]|].
      destruct (is_dir _ _); [done|now intros [= <-]]. }
  cbv beta iota. fold (analysis_file page_id).
  pose proof (analysis_file_not_empty page_id) as Hne.
  destruct (files w1 !! analysis_file page_id) as [e|] eqn:Hfile.
  { rewrite (path_exists_true _ w1 Hne) by eauto. cbv beta iota.
    exists true, w1. split; [reflexivity|].
    eapply analysis_skipped; eauto. }
  rewrite (path_exists_false _ w1 Hne Hfile). cbv beta iota.
  unfold AdvancedComponentAnalyzer.session_get at 1.
  destruct (http_get url) as [r|] eqn:Hget.
  2:{ eexists false, _. split; [reflexivity|].
      eapply analysis_requested; eauto; [apply keeps_refl|done]. }
  set (w2 := mkWorld (files w1) (fetch_log w1 ++ [url])).
  assert (keeps (files w1) (files w2)) as Hk2 by apply keeps_refl.
  assert (fetch_log w2 = fetch_log w1 ++ [url]) as Hl2 by reflexivity.
  clearbody w2.
  (* page.html *)
  match goal with
  | |- context [write_file ?p ?c w2] =>
      destruct (only_saves_write_file p c w2) as [Hk3 Hl3];
      destruct (write_file p c w2) as [[[]|e] w3]; cbn [fst snd] in Hk3, Hl3;
      cbv beta iota; [|failed Hid Hmk Hfile]
  end.
  (* the components *)
  match goal with
  | |- context [AdvancedComponentAnalyzer.extract_and_save_html_components
                  ?a ?b ?c ?d w3] =>
      destruct (extract_and_save_html_components_only_saves c d w3)
        as [Hk4 Hl4];
      destruct (AdvancedComponentAnalyzer.extract_and_save_html_components
                  a b c d w3) as [[[]|e] w4]; cbn [fst snd] in Hk4, Hl4;
      cbv beta iota; [|failed Hid Hmk Hfile]
  end.
  (* url_info.json *)
  match goal with
  | |- context [write_file ?p ?c w4] =>
      destruct (only_saves_write_file p c w4) as [Hk5 Hl5];
      destruct (write_file p c w4) as [[[]|e] w5]; cbn [fst snd] in Hk5, Hl5;
      cbv beta iota; [|failed Hid Hmk Hfile]
  end.
  (* the strategies *)
  match goal with
  | |- context [AdvancedComponentAnalyzer.run_strategies ?a ?b ?c ?d w5] =>
      destruct (run_strategies_only_saves a b c d w5) as [Hk6 Hl6];
      destruct (AdvancedComponentAnalyzer.run_strategies a b c d w5)
        as [[entries|e] w6]; cbn [fst snd] in Hk6, Hl6;
      cbv beta iota; [|failed Hid Hmk Hfile]
  end.
  (* comprehensive_analysis.json *)
  match goal with
  | |- context [write_file ?p ?c w6] =>
      destruct (only_saves_write_file p c w6) as [Hk7 Hl7];
      destruct (write_file p c w6) as [[[]|e] w7] eqn:Hwrite;
      cbn [fst snd] in Hk7, Hl7;
      cbv beta iota; [|failed Hid Hmk Hfile]
  end.
  exists true, w7. split; [reflexivity|].
  eapply analysis_requested; [exact Hid|exact Hmk|exact Hfile| | |].
  - repeat (first [eassumption|eapply keeps_trans; [|eassumption]]).
  - congruence.
  - intros _. apply write_file_ok_exists in Hwrite.
    rewrite Hwrite. eauto.
Qed.

Lemma analyze_again url is_dynamic page_id w :
  PageId.create_page_identifier urlparse url = Some page_id ->
  is_dir (files w) (join output_dir page_id) = true ->
  is_Some (files w !! analysis_file page_id) ->
  analyze url is_dynamic w = (Ok true, w).
Proof.
  intros Hid Hdir Hfile.
  unfold AdvancedComponentAnalyzer.extract_and_analyze_single_url, try_except,
    mbind, M_bind, AdvancedComponentAnalyzer.create_page_identifier.
  rewrite Hid. unfold mret at 1, M_ret at 1.
  rewrite (mkdir_existing _ _ Hdir). cbv beta iota.
  fold (analysis_file page_id).
  now rewrite (path_exists_true (analysis_file page_id) w
                 (analysis_file_not_empty page_id) Hfile).
Qed.

End AnalyzerRuns.

(** After a call of [extract_and_analyze_single_url] that returned [True],
    a second call for the same URL, dynamic or not, returns [True] at
    once: it makes no request and changes nothing. *)
Theorem analyze_then_resume
    (urlparse : string -> option UrlParse.ParseResult)
    (http_get : string -> option Sys.response)
    (parse_html : string -> Soup.node) (to_markup prettify : Soup.node -> string)
    (now : string) (output_dir : Sys.path)
    (the_strategies : AdvancedComponentAnalyzer.strategies)
    (url : string) (is_dynamic is_dynamic' : bool) (w w' : Sys.world) :
  AdvancedComponentAnalyzer.extract_and_analyze_single_url urlparse http_get
    parse_html to_markup prettify now output_dir the_strategies url is_dynamic w
    = (Sys.Ok true, w') ->
  AdvancedComponentAnalyzer.extract_and_analyze_single_url urlparse http_get
    parse_html to_markup prettify now output_dir the_strategies url is_dynamic' w'
    = (Sys.Ok true, w').
Proof.
  intros Hfirst.
  destruct (analyze_run urlparse http_get parse_html to_markup prettify now
              output_dir the_strategies url is_dynamic w)
    as (b & w1 & Hrun & Hof).
  rewrite Hfirst in Hrun. injection Hrun as <- <-.
  inversion Hof as [|page_id w1 Hid Hmk Hfile
                   |page_id w1 b w2 Hid Hmk _ Hkeep _ Hfile]; subst.
  - eapply analyze_again; eauto. now apply mkdir_ok_is_dir in Hmk.
  - eapply analyze_again; eauto.
    apply Hkeep. now apply mkdir_ok_is_dir in Hmk.
Qed.

(** Only [comprehensive_analysis.json] marks a page as done.  When the
    page directory exists and that file is absent, the call requests the
    URL, once, whatever else an earlier run left in the directory; it
    returns a flag and removes nothing. *)
Theorem analysis_requested_when_absent
    (urlparse : string -> option UrlParse.ParseResult)
    (http_get : string -> option Sys.response)
    (parse_html : string -> Soup.node) (to_markup prettify : Soup.node -> string)
    (now : string) (output_dir : Sys.path)
    (the_strategies : AdvancedComponentAnalyzer.strategies)
    (url page_id : string) (is_dynamic : bool) (w : Sys.world) :
  PageId.create_page_identifier urlparse url = Some page_id ->
  Sys.is_dir (Sys.files w) (Sys.join output_dir page_id) = true ->
  Sys.files w !! analysis_file output_dir page_id = None ->
  exists b w',
    AdvancedComponentAnalyzer.extract_and_analyze_single_url urlparse http_get
      parse_html to_markup prettify now output_dir the_strategies url
      is_dynamic w = (Sys.Ok b, w') /\
    Sys.fetch_log w' = Sys.fetch_log w ++ [url] /\
    keeps (Sys.files w) (Sys.files w').
Proof.
  intros Hid Hdir Habsent.
  destruct (analyze_run urlparse http_get parse_html to_markup prettify now
              output_dir the_strategies url is_dynamic w)
    as (b & w' & Hrun & Hof).
  exists b, w'. split; [exact Hrun|].
  pose proof (mkdir_existing w _ Hdir) as Hmk.
  destruct Hof as [[Hnone|(page_id' & e & Hid' & Hfail)]
                  |page_id' w1 Hid' Hmk' Hfile
                  |page_id' w1 b w' Hid' Hmk' _ Hkeep Hlog _].
  - congruence.
  - rewrite Hid in Hid'. injection Hid' as <-. congruence.
  - rewrite Hid in Hid'. injection Hid' as <-.
    rewrite Hmk in Hmk'. injection Hmk' as <-.
    rewrite Habsent in Hfile. now destruct Hfile.
  - rewrite Hid in Hid'. injection Hid' as <-.
    rewrite Hmk in Hmk'. injection Hmk' as <-. now split.
Qed.

Lemma analyze_then_resume_witness :
  let run :=
    AdvancedComponentAnalyzer.extract_and_analyze_single_url
      UrlParse.urlparse_ref
      (fun _ => Some (Sys.mkResponse 200 "text/html" "<p>intro</p>"))
      (fun _ => Soup.Element "p" None [] [Soup.Text "intro"])
      (fun _ => "<p>intro</p>") (fun _ => "<p>intro</p>")
      "2025-01-01 00:00:00" ["advanced_extracted_html"] seo_raises
      "http://example.com/" in
  run true (run false analysis_world).2
    = (Sys.Ok true, (run false analysis_world).2) /\
  Sys.fetch_log (run false analysis_world).2 = ["http://example.com/"].
Proof.
  intros run. split.
  - apply (analyze_then_resume _ _ _ _ _ _ _ _ _ false true analysis_world).
    rewrite (surjective_pairing (run false analysis_world)).
    f_equal; vm_compute; reflexivity.
  - vm_compute. reflexivity.
Defined.

(** A page directory in which an interrupted run left [page.html]. *)
Definition interrupted_world : Sys.world :=
  Sys.mkWorld
    (<[ ["advanced_extracted_html"; "homepage"; "page.html"]
          := Sys.File (Sys.Text "<p>intro</p>") ]> (Sys.files analysis_world))
    [].

Lemma analysis_requested_when_absent_witness :
  exists b w',
    AdvancedComponentAnalyzer.extract_and_analyze_single_url
      UrlParse.urlparse_ref
      (fun _ => Some (Sys.mkResponse 200 "text/html" "<p>intro</p>"))
      (fun _ => Soup.Element "p" None [] [Soup.Text "intro"])
      (fun _ => "<p>intro</p>") (fun _ => "<p>intro</p>")
      "2025-01-01 00:00:00" ["advanced_extracted_html"] seo_raises
      "http://example.com/" false interrupted_world = (Sys.Ok b, w') /\
    Sys.fetch_log w' = Sys.fetch_log interrupted_world ++ ["http://example.com/"] /\
    keeps (Sys.files interrupted_world) (Sys.files w').
Proof.
  apply (analysis_requested_when_absent UrlParse.urlparse_ref _ _ _ _ _
           ["advanced_extracted_html"] seo_raises "http://example.com/"
           "homepage" false interrupted_world).
  - vm_compute. reflexivity.
  - vm_compute. reflexivity.
  - vm_compute. reflexivity.
Defined.

(** ** The classifiers compared *)

(** The five classifiers compared on one URL: [EnhancedWebCrawler] and
    [DynamicWebCrawler] decide alike; what [UltraFastCrawler] accepts they
    accept, and they differ from it only on URLs ending in [.xls] or
    [.xlsx]; and whatever the three of them or [FastWebCrawler] accept,
    [WebCrawler], which checks the domain alone, accepts. *)
Theorem classifier_hierarchy
    (urlparse : string -> option UrlParse.ParseResult) (domain url : string) :
  EnhancedWebCrawler.is_valid_url urlparse domain url
    = DynamicWebCrawler.is_valid_url urlparse domain url /\
  (UltraFastCrawler.is_valid_url urlparse domain url = true ->
   DynamicWebCrawler.is_valid_url urlparse domain url = true) /\
  (DynamicWebCrawler.is_valid_url urlparse domain url = true ->
   UltraFastCrawler.is_valid_url urlparse domain url = false ->
   PyStr.endswith (PyStr.lower url) ".xls" = true \/
   PyStr.endswith (PyStr.lower url) ".xlsx" = true) /\
  (DynamicWebCrawler.is_valid_url urlparse domain url = true ->
   WebCrawler.is_valid_url urlparse domain url = true) /\
  (FastWebCrawler.is_valid_url urlparse domain url = true ->
   WebCrawler.is_valid_url urlparse domain url = true).
Proof.
  split; [reflexivity|].
  unfold UltraFastCrawler.is_valid_url, DynamicWebCrawler.is_valid_url,
    Classifier.is_valid_url_with, WebCrawler.is_valid_url,
    FastWebCrawler.is_valid_url.
  destruct (urlparse url) as [parsed|]; [|split_and!; intros; done].
  change UltraFastCrawler.skip_extensions
    with (DynamicWebCrawler.skip_extensions ++ [".xls"; ".xlsx"]).
  rewrite existsb_app. cbn [existsb].
  destruct (String.eqb (UrlParse.netloc parsed) "");
    destruct (String.eqb (UrlParse.netloc parsed) domain);
    destruct (existsb _ DynamicWebCrawler.skip_extensions);
    destruct (existsb _ Classifier.skip_paths);
    destruct (existsb _ FastWebCrawler.skip_extensions);
    destruct (PyStr.endswith (PyStr.lower url) ".xls");
    destruct (PyStr.endswith (PyStr.lower url) ".xlsx");
    cbn [negb andb orb]; split_and!; intros; auto; done.
Qed.

(** [FastWebCrawler] rejects a URL that holds one of its five extensions
    anywhere, in any letter case: in the path, in the query or in the
    fragment. *)
Theorem fast_classifier_rejects_anywhere
    (urlparse : string -> option UrlParse.ParseResult)
    (domain url ext pre post : string) :
  ext ∈ FastWebCrawler.skip_extensions ->
  PyStr.lower url = pre +:+ ext +:+ post ->
  FastWebCrawler.is_valid_url urlparse domain url = false.
Proof.
  intros Hext Hlower. unfold FastWebCrawler.is_valid_url.
  destruct (urlparse url) as [parsed|]; [|done].
  apply andb_false_iff. right. apply negb_false_iff, existsb_exists.
  exists ext. split; [now apply list_elem_of_In|].
  rewrite Hlower. apply contains_app.
Qed.

Lemma fast_classifier_rejects_anywhere_witness :
  FastWebCrawler.is_valid_url UrlParse.urlparse_ref "example.com"
    "http://example.com/report.PDF?v=2" = false /\
  DynamicWebCrawler.is_valid_url UrlParse.urlparse_ref "example.com"
    "http://example.com/report.PDF?v=2" = true.
Proof.
  split; [|vm_compute; reflexivity].
  apply (fast_classifier_rejects_anywhere UrlParse.urlparse_ref "example.com"
           _ ".pdf" "http://example.com/report" "?v=2").
  - set_solver.
  - reflexivity.
Defined.

(** ** The crawl loop: where the URLs come from *)

Section CrawlLinkFacts.
Import Crawl.
Variable cfg : config.
Variable crawl_with_requests : string -> nat -> option (page_data * list string).
Variable crawl_with_selenium : string -> nat -> option (page_data * list string).
Variable P : string -> Prop.
Variable base_url : string.
Hypothesis requests_links :
  forall u d page links,
    crawl_with_requests u d = Some (page, links) -> Forall P links.
Hypothesis selenium_links :
  forall u d page links,
    crawl_with_selenium u d = Some (page, links) -> Forall P links.

(** Every URL the crawler knows is the base URL or satisfies [P]. *)
Definition known (st : crawler) : Prop :=
  forall u, u ∈ visited_urls st \/ u ∈ (url_queue st).*1 ->
            u = base_url \/ P u.

Lemma crawl_single_url_links_ok task st :
  Forall P (crawl_single_url cfg crawl_with_requests crawl_with_selenium task st).1.
Proof.
  destruct task as [u d]. unfold crawl_single_url.
  destruct (_ <=? _); [constructor|].
  destruct (fetch_page _ _ _ _ _) as [[page new_links]|] eqn:Hfetch;
    [|constructor].
  cbn [fst]. destruct (_ || _); [|constructor].
  revert Hfetch. unfold fetch_page.
  destruct (_ || _); [apply selenium_links|apply requests_links].
Qed.

Lemma run_batch_links_ok batch st :
  Forall (fun result => Forall P result.2)
    (run_batch cfg crawl_with_requests crawl_with_selenium batch st).1.
Proof.
  revert st. induction batch as [|[u d] batch IH]; intros st; cbn [run_batch];
    [constructor|].
  pose proof (crawl_single_url_links_ok (u, d) st) as Hlinks.
  destruct (crawl_single_url _ _ _ _ _) as [new_links st1].
  specialize (IH st1). destruct (run_batch _ _ _ _ _) as [results st2].
  cbn [fst] in *. now constructor.
Qed.

Lemma draw_batch_known n st batch :
  forall u,
    u ∈ visited_urls (draw_batch n st batch).2 \/
    u ∈ (url_queue (draw_batch n st batch).2).*1 ->
    u ∈ visited_urls st \/ u ∈ (url_queue st).*1.
Proof.
  clear. revert st batch. induction n as [|n IH]; intros st batch u; [done|].
  cbn [draw_batch]. destruct (url_queue st) as [|[x d] rest] eqn:Hq.
  - intros H%IH. now rewrite Hq in H.
  - destruct (decide _); intros H%IH; cbn in H |- *; set_solver.
Qed.

Lemma enqueue_link_known d st link :
  P link -> known st -> known (enqueue_link cfg d st link).
Proof.
  clear requests_links selenium_links.
  intros Hlink Hknown. unfold enqueue_link.
  destruct (_ && _); [|exact Hknown]. destruct (_ || _); [|exact Hknown].
  intros u. cbn. rewrite fmap_app, elem_of_app. cbn.
  intros [Hu|[Hu|Hu%list_elem_of_singleton]]; [apply Hknown; auto..|].
  subst. now right.
Qed.

Lemma enqueue_results_known results st :
  Forall (fun result => Forall P result.2) results ->
  known st -> known (enqueue_results cfg results st).
Proof.
  clear requests_links selenium_links.
  unfold enqueue_results. intros Hall. revert st.
  induction Hall as [|[d new_links] results Hlinks _ IH]; intros st Hknown;
    [exact Hknown|].
  cbn [fold_left]. apply IH. cbn [snd] in Hlinks.
  revert st Hknown. induction Hlinks as [|link new_links Hlink _ IHl];
    intros st Hknown; [exact Hknown|].
  cbn [fold_left]. apply IHl. now apply enqueue_link_known.
Qed.

Lemma crawl_step_known st :
  known st ->
  known (crawl_step cfg crawl_with_requests crawl_with_selenium st).2.
Proof.
  intros Hknown. unfold crawl_step.
  pose proof (draw_batch_known (Nat.min 3 (length (url_queue st))) st [])
    as Hdraw.
  destruct (draw_batch _ _ _) as [batch st1]. cbn [snd] in Hdraw.
  assert (known st1) as Hknown1 by (intros u Hu; apply Hknown, Hdraw, Hu).
  destruct batch as [|task batch]; [exact Hknown1|].
  set (st2 := mkCrawler _ _ _ _ _ _).
  pose proof (run_batch_links_ok (task :: batch) st2) as Hlinks.
  pose proof (run_batch_frame cfg crawl_with_requests crawl_with_selenium
                (task :: batch) st2) as Hframe.
  destruct (run_batch _ _ _ _ _) as [results st3]. cbn [fst snd] in *.
  apply enqueue_results_known; [exact Hlinks|].
  intros u. rewrite (frame_visited _ _ _ _ Hframe), (frame_queue _ _ _ _ Hframe).
  apply Hknown1.
Qed.

Lemma reachable_known st :
  reachable cfg crawl_with_requests crawl_with_selenium base_url st -> known st.
Proof.
  induction 1 as [|st Hreach IH Hcont]; [|now apply crawl_step_known].
  intros u [Hu|Hu]; cbn in Hu; set_solver.
Qed.

End CrawlLinkFacts.

(** ** The page fetchers: the links they hand to the crawl loop *)

Section FetchFacts.
Variable urlparse : string -> option UrlParse.ParseResult.
Variable urljoin : string -> string -> option string.
Variable http_get : string -> option string.
Variable parse_html : string -> Soup.node.
Variable domain : string.

Local Abbreviation eligible :=
  (fun u => DynamicWebCrawler.is_valid_url urlparse domain u = true).

Lemma resolve_links_valid base_url hrefs links :
  Forall eligible links ->
  Forall eligible (Fetch.resolve_links urlparse urljoin domain base_url hrefs links).1.
Proof.
  clear http_get parse_html.
  revert links. induction hrefs as [|href hrefs IH]; intros links Hlinks;
    cbn [Fetch.resolve_links]; [exact Hlinks|].
  destruct (String.eqb href ""); [now apply IH|].
  destruct (urljoin base_url href) as [absolute_url|]; [|exact Hlinks].
  apply IH. destruct (Fetch.is_valid_url _ _ absolute_url) eqn:Hvalid;
    [|exact Hlinks].
  apply Forall_app. split; [exact Hlinks|]. now apply Forall_singleton.
Qed.

Lemma crawl_with_requests_inv url depth p links :
  Fetch.crawl_with_requests urlparse urljoin http_get parse_html domain url depth
    = Some (p, links) ->
  exists content title,
    http_get url = Some content /\
    Fetch.resolve_links urlparse urljoin domain url
      (Fetch.anchors_with_href (parse_html content)) [] = (links, true) /\
    Fetch.page_title (parse_html content) = Some title /\
    p = Fetch.mkRequestsPage
          (Crawl.mkPage url title depth "requests" (length links)
             (take 15 (elements (list_to_set (C := gset string) links))))
          (Fetch.detect_pagination (parse_html content))
          (Fetch.detect_dynamic_content (parse_html content)).
Proof.
  unfold Fetch.crawl_with_requests.
  destruct (http_get url) as [content|]; [|done].
  destruct (Fetch.resolve_links _ _ _ _ _ _) as [links' [|]] eqn:Hlinks; [|done].
  destruct (Fetch.page_title _) as [title|] eqn:Htitle; [|done].
  intros [= Hp Hl]. subst. exists content, title. now split_and!.
Qed.

Section DriverFacts.
Variable driver : Type.
Variable open_page : string -> option driver.
Variable read_hrefs : driver -> list string.
Variable driver_title : driver -> option string.
Variable query_clickables : driver -> option (list Discovery.web_element).
Variable query_buttons : driver -> option (list Discovery.web_element).
Variable script_click : Discovery.web_element -> driver -> bool * driver.
Variable native_click : Discovery.web_element -> driver -> bool * driver.
Variable back : driver -> bool * driver.
Variable scroll_to_bottom : driver -> bool * driver.
Variable dynamic_discovery : bool.

Lemma extract_links_from_driver_valid base_url d :
  Forall eligible
    (Fetch.extract_links_from_driver urlparse urljoin domain driver read_hrefs
       base_url d).
Proof.
  clear. unfold Fetch.extract_links_from_driver.
  apply resolve_links_valid. constructor.
Qed.

End DriverFacts.

End FetchFacts.

Section DiscoverFacts.
Variable driver : Type.
Variable extract_links_from_driver : driver -> list string.
Variable query_clickables : driver -> option (list Discovery.web_element).
Variable query_buttons : driver -> option (list Discovery.web_element).
Variable script_click : Discovery.web_element -> driver -> bool * driver.
Variable native_click : Discovery.web_element -> driver -> bool * driver.
Variable back : driver -> bool * driver.
Variable scroll_to_bottom : driver -> bool * driver.
Variable domain : string.

(** Every link of a discovery pass was read from the session, and the
    pass only adds to the set of dynamic URLs. *)
Lemma discover_dynamic_content_shown d found :
  let r := Discovery.discover_dynamic_content driver extract_links_from_driver
             query_clickables query_buttons script_click native_click back
             scroll_to_bottom domain d found in
  NoDup r.1 /\
  (forall u, u ∈ r.1 -> exists d', u ∈ extract_links_from_driver d') /\
  found ⊆ Discovery.dynamic_urls_found driver r.2.
Proof.
  intros r. subst r. unfold Discovery.discover_dynamic_content.
  set (st0 := Discovery.mkState driver d _ found []).
  destruct (handle_numbered_pagination_collected driver
              extract_links_from_driver query_clickables script_click
              native_click back st0) as (log1 & Hc1 & _).
  destruct (Discovery.handle_numbered_pagination _ _ _ _ _ _ st0)
    as [numbered st1]. cbn [fst snd] in Hc1.
  pose proof (fun u => collected_links_shown _ _ _ _ _ _ _ u Hc1) as Hshown1.
  pose proof (collected_found _ _ _ _ _ _ _ Hc1) as Hfound1. cbn in Hfound1.
  unfold Discovery.handle_other_interactions.
  destruct (try_selectors_ok driver extract_links_from_driver query_buttons
              script_click native_click domain st1
              Discovery.interactive_selectors [] ([], 0, st1))
    as (log2 & Hc2 & _ & _).
  { split_and!; cbn; [apply collected_refl|done|unfold Discovery.max_interactions; lia]. }
  destruct (fold_left _ _ _) as [[dynamic_links count] st2].
  cbn [fst snd] in Hc2.
  pose proof (fun u => collected_links_shown _ _ _ _ _ _ _ u Hc2) as Hshown2.
  pose proof (collected_found _ _ _ _ _ _ _ Hc2) as Hfound2. cbn in Hfound2.
  unfold Discovery.handle_infinite_scroll.
  pose proof (scroll_loop_links driver extract_links_from_driver
                scroll_to_bottom 5 (Discovery.drv driver st2)
                (list_to_set (extract_links_from_driver (Discovery.drv driver st2)))
                [] (NoDup_nil_2 (A:=string))) as Hscroll.
  destruct (Discovery.scroll_loop _ _ _ _ _ _ _) as [scroll_links d3].
  cbn [fst snd] in *.
  destruct Hscroll as (_ & added & -> & Hadded); [set_solver|].
  split_and!.
  - apply NoDup_elements.
  - intros u [Hu|Hu]%elem_of_elements%elem_of_list_to_set%elem_of_app;
      [now apply Hshown1|].
    apply elem_of_elements, elem_of_list_to_set, elem_of_app in Hu as [Hu|Hu];
      [now apply Hshown2|now destruct (Hadded u Hu)].
  - unfold Discovery.with_driver. cbn. rewrite Hfound2, Hfound1. set_solver.
Qed.

End DiscoverFacts.

(** The fetchers as the crawl loop uses them: the page record and the
    links.  [found] gives [self.dynamic_urls_found] at the time of a
    call. *)
Definition requests_fetcher (urlparse : string -> option UrlParse.ParseResult)
    (urljoin : string -> string -> option string)
    (http_get : string -> option string) (parse_html : string -> Soup.node)
    (domain : string) (u : string) (d : nat)
  : option (Crawl.page_data * list string) :=
  (fun r => (Fetch.page r.1, r.2))
    <$> Fetch.crawl_with_requests urlparse urljoin http_get parse_html domain u d.

Definition selenium_fetcher (urlparse : string -> option UrlParse.ParseResult)
    (urljoin : string -> string -> option string) (domain : string)
    (driver : Type) (open_page : string -> option driver)
    (read_hrefs : driver -> list string) (driver_title : driver -> option string)
    (query_clickables query_buttons : driver -> option (list Discovery.web_element))
    (script_click native_click : Discovery.web_element -> driver -> bool * driver)
    (back scroll_to_bottom : driver -> bool * driver)
    (dynamic_discovery : bool) (found : string -> nat -> gset string)
    (u : string) (d : nat) : option (Crawl.page_data * list string) :=
  (fun r => (Fetch.rendered r.1, r.2))
    <$> (Fetch.crawl_with_selenium urlparse urljoin domain driver open_page
           read_hrefs driver_title query_clickables query_buttons script_click
           native_click back scroll_to_bottom dynamic_discovery (found u d)
           u d).1.

Section FetcherFacts.
Variable urlparse : string -> option UrlParse.ParseResult.
Variable urljoin : string -> string -> option string.
Variable domain : string.
Variable driver : Type.
Variable open_page : string -> option driver.
Variable read_hrefs : driver -> list string.
Variable driver_title : driver -> option string.
Variable query_clickables : driver -> option (list Discovery.web_element).
Variable query_buttons : driver -> option (list Discovery.web_element).
Variable script_click : Discovery.web_element -> driver -> bool * driver.
Variable native_click : Discovery.web_element -> driver -> bool * driver.
Variable back : driver -> bool * driver.
Variable scroll_to_bottom : driver -> bool * driver.
Variable dynamic_discovery : bool.

Local Abbreviation eligible :=
  (fun u => DynamicWebCrawler.is_valid_url urlparse domain u = true).

Lemma crawl_with_selenium_inv found url depth :
  let r := Fetch.crawl_with_selenium urlparse urljoin domain driver open_page
             read_hrefs driver_title query_clickables query_buttons
             script_click native_click back scroll_to_bottom
             dynamic_discovery found url depth in
  found ⊆ r.2 /\
  forall p links,
    r.1 = Some (p, links) ->
    exists initial dynamic title,
      Forall eligible initial /\ Forall eligible dynamic /\
      links = elements (list_to_set (C := gset string) (initial ++ dynamic)) /\
      p = Fetch.mkSeleniumPage
            (Crawl.mkPage url title depth
               (match dynamic with [] => "selenium" | _ => "selenium_dynamic" end)
               (length links) (take 20 links))
            (length initial) (length dynamic).
Proof.
  intros r. subst r. unfold Fetch.crawl_with_selenium.
  destruct (open_page url) as [d|]; [|split; [done|discriminate]].
  set (initial := Fetch.extract_links_from_driver _ _ _ _ _ url d).
  pose proof (extract_links_from_driver_valid urlparse urljoin domain driver
                read_hrefs url d) as Hinitial. fold initial in Hinitial.
  assert (exists dynamic d' found',
            (if dynamic_discovery
             then
               let '(links, st) :=
                 Discovery.discover_dynamic_content driver
                   (Fetch.extract_links_from_driver urlparse urljoin domain
                      driver read_hrefs url)
                   query_clickables query_buttons script_click native_click
                   back scroll_to_bottom domain d found in
               (links, Discovery.drv driver st,
                Discovery.dynamic_urls_found driver st)
             else ([], d, found)) = (dynamic, d', found') /\
            Forall eligible dynamic /\ found ⊆ found')
    as (dynamic & d' & found' & -> & Hdynamic & Hfound).
  { destruct dynamic_discovery; [|now exists [], d, found].
    pose proof (discover_dynamic_content_shown driver
                  (Fetch.extract_links_from_driver urlparse urljoin domain
                     driver read_hrefs url)
                  query_clickables query_buttons script_click native_click
                  back scroll_to_bottom domain d found) as (_ & Hshown & Hsub).
    destruct (Discovery.discover_dynamic_content _ _ _ _ _ _ _ _ _ _ _)
      as [links st]. cbn [fst snd] in *.
    eexists _, _, _. split; [reflexivity|]. split; [|exact Hsub].
    apply Forall_forall. intros u Hu. destruct (Hshown u Hu) as [d' Hd'].
    pose proof (extract_links_from_driver_valid urlparse urljoin domain driver
                  read_hrefs url d') as Hvalid.
    rewrite Forall_forall in Hvalid. now apply Hvalid. }
  destruct (driver_title d') as [title|]; cbn [fst snd];
    [|split; [exact Hfound|discriminate]].
  split; [set_solver|].
  intros p links [= <- <-]. now exists initial, dynamic, title.
Qed.

End FetcherFacts.

(** The links [crawl_with_requests] hands to the crawl loop all passed
    [is_valid_url]; the record counts them with repetitions
    ([links_found]) and lists at most fifteen of them, none twice. *)
Theorem crawl_with_requests_links
    (urlparse : string -> option UrlParse.ParseResult)
    (urljoin : string -> string -> option string)
    (http_get : string -> option string) (parse_html : string -> Soup.node)
    (domain url : string) (depth : nat) (p : Fetch.requests_page)
    (links : list string) :
  Fetch.crawl_with_requests urlparse urljoin http_get parse_html domain
    url depth = Some (p, links) ->
  Forall (fun u => DynamicWebCrawler.is_valid_url urlparse domain u = true) links /\
  Crawl.url (Fetch.page p) = url /\
  Crawl.depth (Fetch.page p) = depth /\
  Crawl.links_found (Fetch.page p) = length links /\
  NoDup (Crawl.links (Fetch.page p)) /\
  length (Crawl.links (Fetch.page p)) <= 15 /\
  (forall u, u ∈ Crawl.links (Fetch.page p) -> u ∈ links).
Proof.
  intros (content & title & _ & Hlinks & _ & ->)%crawl_with_requests_inv.
  cbn. split_and!; try done.
  - pose proof (resolve_links_valid urlparse urljoin domain url
                  (Fetch.anchors_with_href (parse_html content)) []
                  (Forall_nil_2 _)) as Hvalid.
    now rewrite Hlinks in Hvalid.
  - eapply sublist_NoDup; [|apply sublist_take]. apply NoDup_elements.
  - rewrite length_take. lia.
  - intros u (i & Hu%list_elem_of_lookup_2 & _)%elem_of_take.
    now apply elem_of_elements, elem_of_list_to_set in Hu.
Qed.

(** A page with five anchors: a link of the site given twice, a link to
    another site, a link to a document, and an anchor with an empty
    [href]. *)
Definition anchor (href : string) : Soup.node :=
  Soup.Element "a" None [("href", href)] [Soup.Text "link"].

Definition home_page : Soup.node :=
  Soup.Element "[document]" None []
    [Soup.Element "html" None []
       [Soup.Element "head" None []
          [Soup.Element "title" None [] [Soup.Text " Home "]];
        Soup.Element "body" None []
          [anchor "http://example.com/a";
           anchor "http://other.org/x";
           anchor "http://example.com/file.pdf";
           anchor "http://example.com/a";
           anchor ""]]].

(** On pages whose [href] values are absolute URLs, [urljoin] gives the
    [href] back. *)
Definition absolute_hrefs (base_url href : string) : option string := Some href.

Lemma crawl_with_requests_links_witness :
  exists p,
    Fetch.crawl_with_requests UrlParse.urlparse_ref absolute_hrefs
      (fun _ => Some "<html>") (fun _ => home_page) "example.com"
      "http://example.com/" 0
    = Some (p, ["http://example.com/a"; "http://example.com/a"]) /\
    Crawl.title (Fetch.page p) = "Home" /\
    Crawl.links (Fetch.page p) = ["http://example.com/a"] /\
    Crawl.links_found (Fetch.page p) = 2 /\
    Forall (fun u => DynamicWebCrawler.is_valid_url UrlParse.urlparse_ref
                       "example.com" u = true)
      ["http://example.com/a"; "http://example.com/a"].
Proof.
  eexists. split; [vm_compute; reflexivity|].
  split; [reflexivity|]. split; [vm_compute; reflexivity|].
  split; [reflexivity|].
  refine (proj1 (crawl_with_requests_links UrlParse.urlparse_ref absolute_hrefs
                   (fun _ => Some "<html>") (fun _ => home_page) "example.com"
                   "http://example.com/" 0 _ _ _)).
  vm_compute. reflexivity.
Defined.

(** The links [crawl_with_selenium] hands to the crawl loop all passed
    [is_valid_url] and hold no link twice; the record counts them, lists
    at most twenty, and is marked [selenium_dynamic] exactly when the
    discovery pass found a link; the set of dynamic URLs only grows. *)
Theorem crawl_with_selenium_links
    (urlparse : string -> option UrlParse.ParseResult)
    (urljoin : string -> string -> option string) (domain : string)
    (driver : Type) (open_page : string -> option driver)
    (read_hrefs : driver -> list string) (driver_title : driver -> option string)
    (query_clickables query_buttons : driver -> option (list Discovery.web_element))
    (script_click native_click : Discovery.web_element -> driver -> bool * driver)
    (back scroll_to_bottom : driver -> bool * driver)
    (dynamic_discovery : bool) (found : gset string) (url : string)
    (depth : nat) :
  let r := Fetch.crawl_with_selenium urlparse urljoin domain driver open_page
             read_hrefs driver_title query_clickables query_buttons
             script_click native_click back scroll_to_bottom
             dynamic_discovery found url depth in
  found ⊆ r.2 /\
  forall p links,
    r.1 = Some (p, links) ->
    Forall (fun u => DynamicWebCrawler.is_valid_url urlparse domain u = true) links /\
    NoDup links /\
    Crawl.links_found (Fetch.rendered p) = length links /\
    length (Crawl.links (Fetch.rendered p)) <= 20 /\
    (Crawl.method (Fetch.rendered p) = "selenium_dynamic" <->
     Fetch.dynamic_links p <> 0) /\
    (dynamic_discovery = false -> Fetch.dynamic_links p = 0).
Proof.
  intros r.
  destruct (crawl_with_selenium_inv urlparse urljoin domain driver open_page
              read_hrefs driver_title query_clickables query_buttons
              script_click native_click back scroll_to_bottom
              dynamic_discovery found url depth) as [Hfound Hinv].
  split; [exact Hfound|]. intros p links Hr.
  destruct (Hinv p links Hr) as (initial & dynamic & title & Hi & Hd & -> & ->).
  cbn. split_and!.
  - apply Forall_forall.
    intros u [Hu|Hu]%elem_of_elements%elem_of_list_to_set%elem_of_app;
      [rewrite Forall_forall in Hi; now apply Hi
      |rewrite Forall_forall in Hd; now apply Hd].
  - apply NoDup_elements.
  - reflexivity.
  - rewrite length_take. lia.
  - destruct dynamic; cbn; split; intros; done.
  - intros ->. subst r. revert Hr. unfold Fetch.crawl_with_selenium.
    destruct (open_page url); [|done]. cbn.
    destruct (driver_title _); [|done]. now intros [= <- _].
Qed.



(** A page whose [title] element does not hold exactly one string makes
    [crawl_with_requests] fail, whatever else the page holds: the
    [AttributeError] of [soup.title.string.strip()] is swallowed with the
    page, and [crawl_single_url] turns to the rendered fetch. *)
Theorem untitled_page_fails_fast_fetch (cfg : Crawl.config)
    (urlparse : string -> option UrlParse.ParseResult)
    (urljoin : string -> string -> option string)
    (http_get : string -> option string) (parse_html : string -> Soup.node)
    (domain url content : string) (depth : nat) (t : Soup.node)
    (crawl_with_selenium : string -> nat -> option (Crawl.page_data * list string)) :
  http_get url = Some content ->
  head (Soup.find_all ["title"] (parse_html content)) = Some t ->
  Soup.string_of t = None ->
  Fetch.crawl_with_requests urlparse urljoin http_get parse_html domain
    url depth = None /\
  Crawl.fetch_page cfg
    (requests_fetcher urlparse urljoin http_get parse_html domain)
    crawl_with_selenium url depth
  = crawl_with_selenium url depth.
Proof.
  intros Hget Htitle Hstring.
  assert (Fetch.crawl_with_requests urlparse urljoin http_get parse_html domain
            url depth = None) as Hnone.
  { unfold Fetch.crawl_with_requests, Fetch.page_title.
    rewrite Hget, Htitle, Hstring.
    now destruct (Fetch.resolve_links _ _ _ _ _ _) as [links [|]]. }
  split; [exact Hnone|].
  unfold Crawl.fetch_page, requests_fetcher. now rewrite Hnone.
Qed.

Lemma untitled_page_fails_fast_fetch_witness :
  Fetch.crawl_with_requests UrlParse.urlparse_ref absolute_hrefs
    (fun _ => Some "<title></title>")
    (fun _ => Soup.Element "[document]" None []
                [Soup.Element "title" None [] [];
                 anchor "http://example.com/a"])
    "example.com" "http://example.com/" 0 = None.
Proof.
  refine (proj1 (untitled_page_fails_fast_fetch exhaustive_five
                   UrlParse.urlparse_ref absolute_hrefs
                   (fun _ => Some "<title></title>") _ "example.com"
                   "http://example.com/" "<title></title>" 0
                   (Soup.Element "title" None [] []) no_selenium
                   eq_refl _ eq_refl)).
  reflexivity.
Defined.

(** ** The URL file: what the crawler saves is what the pipelines load *)

Section SortingFacts.

Lemma ascii_compare_eq a b : (a ?= b)%char = Eq -> a = b.
Proof.
  unfold Ascii.compare. intros H%N.compare_eq.
  rewrite <- (ascii_N_embedding a), <- (ascii_N_embedding b). now rewrite H.
Qed.

Lemma string_leb_trans a b c :
  String.leb a b = true -> String.leb b c = true -> String.leb a c = true.
Proof.
  unfold String.leb. revert b c.
  induction a as [|x a IH]; intros [|y b] [|z c]; cbn; try done.
  unfold Ascii.compare.
  destruct (N.compare_spec (N_of_ascii x) (N_of_ascii y)) as [Hxy|Hxy|Hxy];
    destruct (N.compare_spec (N_of_ascii y) (N_of_ascii z)) as [Hyz|Hyz|Hyz];
    destruct (N.compare_spec (N_of_ascii x) (N_of_ascii z)) as [Hxz|Hxz|Hxz];
    try done; try lia.
  apply IH.
Qed.

Lemma string_leb_flip a b : String.leb a b = false -> String.leb b a = true.
Proof.
  intros H. destruct (String.leb_total a b) as [H'|H']; congruence.
Qed.

Local Abbreviation ordered := (fun a b : string => String.leb a b = true).

Lemma insert_sorted_perm x l : UrlsFile.insert_sorted x l ≡ₚ x :: l.
Proof.
  induction l as [|y l IH]; cbn; [done|].
  destruct (String.leb x y); [done|]. rewrite IH. apply Permutation_swap.
Qed.

Lemma insert_sorted_sorted x l :
  StronglySorted ordered l -> StronglySorted ordered (UrlsFile.insert_sorted x l).
Proof.
  induction 1 as [|y l Hl IH Hy]; cbn.
  - constructor; constructor.
  - destruct (String.leb x y) eqn:Hxy.
    + constructor; [now constructor|].
      constructor; [exact Hxy|].
      eapply Forall_impl; [exact Hy|]. cbn. intros z. now apply string_leb_trans.
    + constructor; [exact IH|].
      rewrite insert_sorted_perm. constructor; [|exact Hy].
      now apply string_leb_flip.
Qed.

Lemma sorted_spec l :
  UrlsFile.sorted l ≡ₚ l /\ StronglySorted ordered (UrlsFile.sorted l).
Proof.
  unfold UrlsFile.sorted. induction l as [|x l [IHp IHs]]; cbn.
  - split; [done|constructor].
  - split; [now rewrite insert_sorted_perm, IHp|now apply insert_sorted_sorted].
Qed.

Lemma sorted_filter (P : string -> bool) l :
  StronglySorted ordered l -> StronglySorted ordered (List.filter P l).
Proof.
  induction 1 as [|y l Hl IH Hy]; cbn; [constructor|].
  destruct (P y); [|exact IH]. constructor; [exact IH|].
  apply Forall_forall. intros z Hz%list_elem_of_In%filter_In.
  rewrite Forall_forall in Hy. apply Hy, list_elem_of_In, Hz.
Qed.

Lemma mapM_strings l :
  mapM (fun item => match item with Sys.JStr s => Some s | _ => None end)
    (Sys.JStr <$> l) = Some l.
Proof. induction l as [|s l IH]; cbn; [done|]. now rewrite IH. Qed.

End SortingFacts.

(** [load_urls] reads back what [save_urls_only] wrote: the visited URLs
    that start with [http://] or [https://], each once, in ascending
    order; the analyzer's variant also gets the sorted dynamic URLs. *)
Theorem saved_urls_load_back (json_loads : string -> option Sys.json)
    (render : string -> Sys.json -> string) (base_url : string)
    (visited_urls dynamic_urls_found : gset string) (now : string)
    (filename : Sys.path) (w w' : Sys.world) :
  UrlsFile.save_urls_only base_url visited_urls dynamic_urls_found now filename w
    = (Sys.Ok tt, w') ->
  exists urls,
    UrlsFile.load_urls json_loads render filename w' = (Sys.Ok urls, w') /\
    UrlsFile.load_urls_and_dynamic json_loads render filename w'
      = (Sys.Ok (urls, Sys.JList (Sys.JStr <$> UrlsFile.sorted
                                    (elements dynamic_urls_found))), w') /\
    (forall u, u ∈ urls <-> u ∈ visited_urls /\ HTMLExtractor.is_http u = true) /\
    NoDup urls /\
    StronglySorted (fun a b => String.leb a b = true) urls.
Proof.
  intros Hsave. unfold UrlsFile.save_urls_only in Hsave.
  pose proof (write_file_ok_exists _ _ _ _ Hsave) as Hfile.
  assert (filename <> []) as Hne.
  { intros ->. revert Hsave. unfold Sys.write_file. now cbn. }
  destruct (sorted_spec (elements visited_urls)) as [Hperm Hsorted].
  exists (List.filter HTMLExtractor.is_http
            (UrlsFile.sorted (elements visited_urls))).
  assert (UrlsFile.read_json json_loads render filename w'
          = (Sys.Ok (Sys.JDict
               [("base_url", Sys.JStr base_url);
                ("total_urls_found", Sys.JNum (size visited_urls));
                ("dynamic_urls_found", Sys.JNum (size dynamic_urls_found));
                ("crawl_timestamp", Sys.JStr now);
                ("unique_urls",
                 Sys.JList (Sys.JStr <$> UrlsFile.sorted (elements visited_urls)));
                ("dynamic_urls",
                 Sys.JList (Sys.JStr <$> UrlsFile.sorted
                              (elements dynamic_urls_found)))]), w')) as Hread.
  { unfold UrlsFile.read_json. destruct filename; [done|]. now rewrite Hfile. }
  split_and!.
  - unfold UrlsFile.load_urls, UrlsFile.read_urls, Sys.try_except, mbind,
      Sys.M_bind. rewrite Hread. cbn [UrlsFile.lookup String.eqb Ascii.eqb
      Bool.eqb UrlsFile.tested_strings]. cbn. now rewrite mapM_strings.
  - unfold UrlsFile.load_urls_and_dynamic, UrlsFile.read_urls, Sys.try_except,
      mbind, Sys.M_bind. rewrite Hread. cbn. now rewrite mapM_strings.
  - intros u. rewrite list_elem_of_In, filter_In, <- list_elem_of_In, Hperm.
    now rewrite elem_of_elements.
  - apply NoDup_ListNoDup, Stdlib.Lists.List.NoDup_filter, NoDup_ListNoDup.
    rewrite Hperm. apply NoDup_elements.
  - now apply sorted_filter.
Qed.

Definition two_visited : gset string :=
  {[ "http://example.com/b"; "http://example.com/a"; "mailto:info@example.com" ]}.

Lemma saved_urls_load_back_witness :
  let w' := (UrlsFile.save_urls_only "http://example.com/" two_visited ∅
               "2025-01-01 00:00:00" ["crawled_urls.json"]
               (Sys.mkWorld ∅ [])).2 in
  UrlsFile.load_urls (fun _ => None) (fun _ _ => "") ["crawled_urls.json"] w'
  = (Sys.Ok ["http://example.com/a"; "http://example.com/b"], w').
Proof.
  intros w'.
  destruct (saved_urls_load_back (fun _ => None) (fun _ _ => "")
              "http://example.com/" two_visited ∅ "2025-01-01 00:00:00"
              ["crawled_urls.json"] (Sys.mkWorld ∅ []) w')
    as (urls & Hload & _).
  { subst w'. now rewrite (surjective_pairing (UrlsFile.save_urls_only _ _ _ _ _ _)). }
  rewrite Hload. f_equal. f_equal.
  apply (f_equal fst) in Hload. cbn in Hload.
  revert Hload. vm_compute. now intros [= <-].
Defined.

(** [load_urls] never raises and changes nothing; it returns only strings
    that start with [http://] or [https://]; and when the file is missing,
    is not a JSON object, or has no [unique_urls] entry, it returns the
    empty list. *)
Theorem load_urls_total (json_loads : string -> option Sys.json)
    (render : string -> Sys.json -> string) (filename : Sys.path)
    (w : Sys.world) :
  (exists urls,
     UrlsFile.load_urls json_loads render filename w = (Sys.Ok urls, w) /\
     Forall (fun u => HTMLExtractor.is_http u = true) urls) /\
  (Sys.files w !! filename = None ->
   UrlsFile.load_urls json_loads render filename w = (Sys.Ok [], w)) /\
  (forall d,
     Sys.files w !! filename = Some (Sys.File (Sys.Json (Sys.JDict d))) ->
     UrlsFile.lookup "unique_urls" d = None ->
     UrlsFile.load_urls json_loads render filename w = (Sys.Ok [], w)) /\
  (forall l,
     Sys.files w !! filename = Some (Sys.File (Sys.Json (Sys.JList l))) ->
     UrlsFile.load_urls json_loads render filename w = (Sys.Ok [], w)).
Proof.
  assert (forall r, UrlsFile.read_json json_loads render filename w = r ->
                    r.2 = w) as Hsame.
  { intros r <-. unfold UrlsFile.read_json. destruct filename; [done|].
    destruct (Sys.files w !! _) as [[|[]]|]; try done;
      now destruct (json_loads _). }
  split_and!.
  - unfold UrlsFile.load_urls, UrlsFile.read_urls, Sys.try_except, mbind,
      Sys.M_bind.
    specialize (Hsame _ eq_refl).
    destruct (UrlsFile.read_json _ _ _ _) as [[data|e] w1]; cbn in Hsame;
      subst w1; [|now exists []].
    destruct data as [| | | | |d]; try (now exists []).
    destruct (UrlsFile.lookup "unique_urls" d) as [x|]; [|now exists []].
    destruct (UrlsFile.tested_strings x) as [strings|]; [|now exists []].
    eexists. split; [reflexivity|].
    apply Forall_forall. intros u Hu%list_elem_of_In%filter_In. apply Hu.
  - intros Hnone. unfold UrlsFile.load_urls, UrlsFile.read_urls,
      Sys.try_except, mbind, Sys.M_bind, UrlsFile.read_json.
    destruct filename; [done|]. now rewrite Hnone.
  - intros d Hfile Hkey. unfold UrlsFile.load_urls, UrlsFile.read_urls,
      Sys.try_except, mbind, Sys.M_bind, UrlsFile.read_json.
    destruct filename; [done|]. now rewrite Hfile, Hkey.
  - intros l Hfile. unfold UrlsFile.load_urls, UrlsFile.read_urls,
      Sys.try_except, mbind, Sys.M_bind, UrlsFile.read_json.
    destruct filename; [done|]. now rewrite Hfile.
Qed.

(** ** The crawl summary *)

(** The number of pages of [crawled_data] fetched by [method]. *)
Definition pages_by (method : string) (crawled_data : list Summary.page_record)
  : nat :=
  length (List.filter
            (fun p => String.eqb (Crawl.method (Summary.data p)) method)
            crawled_data).

(** [methods.get(method, 0)] *)
Fixpoint method_count (method : string) (methods : list (string * nat)) : nat :=
  match methods with
  | [] => 0
  | (m, n) :: rest =>
      if String.eqb m method then n else method_count method rest
  end.

Section SummaryFacts.

Lemma count_method_keys method methods :
  NoDup methods.*1 -> NoDup (Summary.count_method method methods).*1.
Proof.
  assert (forall k, k ∈ (Summary.count_method method methods).*1 ->
                    k = method \/ k ∈ methods.*1) as Hkeys.
  { induction methods as [|[m n] rest IH]; cbn; intros k Hk.
    - apply list_elem_of_singleton in Hk. now left.
    - destruct (String.eqb m method); cbn in Hk; [now right|].
      apply elem_of_cons in Hk as [->|Hk]; [right; left|].
      destruct (IH _ Hk) as [->|Hin]; [now left|right; now right]. }
  clear Hkeys.
  induction methods as [|[m n] rest IH]; cbn; intros Hnd.
  - apply NoDup_singleton.
  - apply NoDup_cons in Hnd as [Hm Hrest].
    destruct (String.eqb m method) eqn:Heq; cbn.
    + now apply NoDup_cons.
    + apply NoDup_cons. split; [|now apply IH].
      intros Hin. apply Hm. clear IH Hrest Hm.
      induction rest as [|[m' n'] rest IH]; cbn in Hin.
      * apply list_elem_of_singleton in Hin. subst.
        now rewrite String.eqb_refl in Heq.
      * destruct (String.eqb m' method); cbn in Hin; [exact Hin|].
        apply elem_of_cons in Hin as [->|Hin]; [left|right; now apply IH].
Qed.

Lemma count_method_count method methods m :
  method_count m (Summary.count_method method methods)
  = method_count m methods + (if String.eqb method m then 1 else 0).
Proof.
  induction methods as [|[k n] rest IH]; cbn.
  - destruct (String.eqb method m); lia.
  - destruct (String.eqb k method) eqn:Hk; cbn.
    + apply String.eqb_eq in Hk. subst k.
      destruct (String.eqb method m); lia.
    + destruct (String.eqb k m) eqn:Hkm; [|exact IH].
      apply String.eqb_eq in Hkm. subst k. rewrite String.eqb_sym, Hk. lia.
Qed.

Lemma count_method_total method methods :
  list_sum (Summary.count_method method methods).*2 = list_sum methods.*2 + 1.
Proof.
  unfold list_sum. induction methods as [|[k n] rest IH]; cbn; [done|].
  destruct (String.eqb k method); cbn in *; lia.
Qed.

Lemma count_method_positive method methods :
  Forall (fun e => 0 < e.2) methods ->
  Forall (fun e => 0 < e.2) (Summary.count_method method methods).
Proof.
  induction 1 as [|[k n] rest Hn Hrest IH]; cbn.
  - repeat constructor.
  - destruct (String.eqb k method); constructor; cbn in *; auto; lia.
Qed.

Lemma methods_used_spec crawled_data methods :
  let result :=
    fold_left (fun methods p =>
                 Summary.count_method (Crawl.method (Summary.data p)) methods)
              crawled_data methods in
  (NoDup methods.*1 -> NoDup result.*1) /\
  (forall m, method_count m result
             = method_count m methods + pages_by m crawled_data) /\
  list_sum result.*2 = list_sum methods.*2 + length crawled_data /\
  (Forall (fun e => 0 < e.2) methods -> Forall (fun e => 0 < e.2) result).
Proof.
  revert methods.
  induction crawled_data as [|p l IH]; intros methods; cbn [fold_left length].
  - split_and!; auto; intros m; unfold pages_by; cbn; lia.
  - destruct (IH (Summary.count_method (Crawl.method (Summary.data p)) methods))
      as (Hnd & Hcount & Hsum & Hpos).
    split_and!.
    + intros H. now apply Hnd, count_method_keys.
    + intros m. rewrite Hcount, count_method_count. unfold pages_by.
      cbn [List.filter]. destruct (String.eqb _ m); cbn [length]; lia.
    + rewrite Hsum, count_method_total. lia.
    + intros H. now apply Hpos, count_method_positive.
Qed.

Lemma method_count_lookup m n methods :
  NoDup methods.*1 -> (m, n) ∈ methods -> method_count m methods = n.
Proof.
  induction methods as [|[k v] rest IH]; cbn; intros Hnd Hin.
  - now apply elem_of_nil in Hin.
  - apply NoDup_cons in Hnd as [Hk Hrest].
    apply elem_of_cons in Hin as [[= -> ->]|Hin].
    + now rewrite String.eqb_refl.
    + destruct (String.eqb k m) eqn:Hkm; [|now apply IH].
      apply String.eqb_eq in Hkm. subst k. exfalso. apply Hk.
      apply list_elem_of_fmap. now exists (m, n).
Qed.

Lemma max_depth_spec (crawled_data : list Summary.page_record) :
  let deepest :=
    foldr (fun p acc => Nat.max (Crawl.depth (Summary.data p)) acc) 0
      crawled_data in
  Forall (fun p => Crawl.depth (Summary.data p) <= deepest) crawled_data /\
  (crawled_data <> [] ->
   exists p, p ∈ crawled_data /\ Crawl.depth (Summary.data p) = deepest).
Proof.
  induction crawled_data as [|p l [IHle IHex]]; cbn.
  - split; [constructor|done].
  - split.
    + constructor; [lia|]. eapply Forall_impl; [exact IHle|]. cbn. lia.
    + intros _. destruct l as [|q l'].
      * exists p. split; [left|]. cbn. lia.
      * destruct IHex as (r & Hr & Hdepth); [done|].
        destruct (Nat.max_spec (Crawl.depth (Summary.data p))
                    (foldr (fun p acc => Nat.max (Crawl.depth (Summary.data p)) acc)
                       0 (q :: l'))) as [[_ Hmax]|[_ Hmax]].
        -- exists r. split; [now right|]. cbn in *. lia.
        -- exists p. split; [left|]. cbn in *. lia.
Qed.

End SummaryFacts.

(** The summary of a crawl: [methods_used] has one entry per fetch method
    that occurs, holding the number of pages fetched that way, and the
    counts add up to [total_pages_crawled]; [pages_with_dynamic_content]
    is at most that total; [max_depth_reached] is the depth of some page
    and no page is deeper. *)
Theorem summary_accounts (crawled_data : list Summary.page_record)
    (visited_urls dynamic_urls_found : gset string) (s : Summary.summary) :
  Summary.get_summary crawled_data visited_urls dynamic_urls_found = Some s ->
  Summary.total_pages_crawled s = length crawled_data /\
  NoDup (Summary.methods_used s).*1 /\
  (forall m n, (m, n) ∈ Summary.methods_used s ->
               0 < n /\ n = pages_by m crawled_data) /\
  (forall p, p ∈ crawled_data ->
             Crawl.method (Summary.data p) ∈ (Summary.methods_used s).*1) /\
  list_sum (Summary.methods_used s).*2 = Summary.total_pages_crawled s /\
  Summary.pages_with_dynamic_content s <= Summary.total_pages_crawled s /\
  Forall (fun p => Crawl.depth (Summary.data p) <= Summary.max_depth_reached s)
    crawled_data /\
  (exists p, p ∈ crawled_data /\
             Crawl.depth (Summary.data p) = Summary.max_depth_reached s).
Proof.
  unfold Summary.get_summary. intros Hs.
  assert (crawled_data <> []) as Hne by (now destruct crawled_data).
  assert (s = Summary.mkSummary
              (length crawled_data)
              (foldr (fun p acc => Crawl.links_found (Summary.data p) + acc) 0
                 crawled_data)
              (size dynamic_urls_found)
              (length (List.filter (fun p => 0 <? Summary.dynamic_links p)
                         crawled_data))
              (foldr (fun p acc => Nat.max (Crawl.depth (Summary.data p)) acc) 0
                 crawled_data)
              (size visited_urls)
              (fold_left (fun methods p =>
                            Summary.count_method (Crawl.method (Summary.data p))
                              methods) crawled_data [])) as ->.
  { destruct crawled_data; [done|]. now injection Hs as <-. }
  clear Hs. cbn [Summary.total_pages_crawled Summary.methods_used
                 Summary.pages_with_dynamic_content Summary.max_depth_reached].
  destruct (methods_used_spec crawled_data []) as (Hnd & Hcount & Hsum & Hpos).
  cbn in Hnd, Hcount, Hsum, Hpos.
  specialize (Hnd (NoDup_nil_2 (A:=string))). specialize (Hpos (Forall_nil_2 _)).
  destruct (max_depth_spec crawled_data) as [Hle Hex].
  split_and!; auto.
  - intros m n Hin. split.
    + rewrite Forall_forall in Hpos. apply (Hpos (m, n) Hin).
    + rewrite <- (Hcount m). symmetry. now apply method_count_lookup.
  - intros p Hp.
    set (result := fold_left _ crawled_data []) in *.
    assert (0 < method_count (Crawl.method (Summary.data p)) result) as Hc.
    { rewrite Hcount. unfold pages_by.
      assert (p ∈ List.filter
                (fun q => String.eqb (Crawl.method (Summary.data q))
                            (Crawl.method (Summary.data p))) crawled_data) as Hf.
      { apply list_elem_of_In, filter_In. split; [now apply list_elem_of_In|].
        apply String.eqb_refl. }
      destruct (List.filter _ crawled_data); [now apply elem_of_nil in Hf|].
      cbn. lia. }
    clear -Hc. induction result as [|[k v] rest IH]; cbn in *; [lia|].
    destruct (String.eqb k _) eqn:Hk.
    + apply String.eqb_eq in Hk. subst k. left.
    + right. now apply IH.
  - etransitivity; [apply filter_length_le|]. done.
Qed.

Definition two_pages : list Summary.page_record :=
  [inl (Fetch.mkRequestsPage
          (Crawl.mkPage "http://example.com/" "Home" 0 "requests" 2
             ["http://example.com/a"; "http://example.com/b"]) false false);
   inr (Fetch.mkSeleniumPage
          (Crawl.mkPage "http://example.com/a" "A" 1 "selenium" 1
             ["http://example.com/b"]) 0 1);
   inl (Fetch.mkRequestsPage
          (Crawl.mkPage "http://example.com/b" "B" 1 "requests" 0 []) true false)].

Lemma summary_accounts_witness :
  Summary.methods_used
    (default (Summary.mkSummary 0 0 0 0 0 0 [])
       (Summary.get_summary two_pages ∅ ∅))
  = [("requests", 2); ("selenium", 1)] /\
  forall m n, (m, n) ∈ [("requests", 2); ("selenium", 1)] ->
              0 < n /\ n = pages_by m two_pages.
Proof.
  split; [reflexivity|].
  exact (proj1 (proj2 (proj2
    (summary_accounts two_pages ∅ ∅
       (Summary.mkSummary 3 3 0 1 1 0 [("requests", 2); ("selenium", 1)])
       eq_refl)))).
Defined.

(** ** The fast crawler: what holds whatever the pool's timing *)

Section FastCrawlFacts.
Import FastCrawl.
Variable urlparse : string -> option UrlParse.ParseResult.
Variable urljoin : string -> string -> option string.
Variable parse_html : string -> Soup.node.
Variable browse : string -> browsed.
Variable domain : string.
Variable max_depth : nat.
Variable max_pages : nat.

Local Abbreviation valid :=
  (fun u => FastWebCrawler.is_valid_url urlparse domain u = true).
Local Abbreviation crawl_single_page :=
  (FastCrawl.crawl_single_page urlparse urljoin parse_html browse domain
     max_depth max_pages).
Local Abbreviation run_batch :=
  (FastCrawl.run_batch urlparse urljoin parse_html browse domain max_depth
     max_pages).
Local Abbreviation crawl_step :=
  (FastCrawl.crawl_step urlparse urljoin parse_html browse domain max_depth
     max_pages).
Local Abbreviation crawl_loop :=
  (FastCrawl.crawl_loop urlparse urljoin parse_html browse domain max_depth
     max_pages).

Lemma permute_perm {A} picks (l : list A) : permute picks l ≡ₚ l.
Proof.
  revert l. induction picks as [|k picks IH]; intros l; cbn; [done|].
  destruct (l !! (k mod length l)) as [x|] eqn:Hx; [|done].
  rewrite IH. symmetry. now apply delete_Permutation.
Qed.

Lemma fast_resolve_links_valid base_url hrefs links :
  Forall valid links ->
  Forall valid
    (FastCrawl.resolve_links urlparse urljoin domain base_url hrefs links).1.
Proof.
  clear parse_html browse max_depth max_pages.
  revert links. induction hrefs as [|href hrefs IH]; intros links Hlinks;
    cbn [FastCrawl.resolve_links]; [exact Hlinks|].
  destruct (String.eqb href ""); [now apply IH|].
  destruct (urljoin base_url href) as [absolute_url|]; [|exact Hlinks].
  apply IH. destruct (FastCrawl.is_valid_url _ _ absolute_url) eqn:Hvalid;
    [|exact Hlinks].
  apply Forall_app. split; [exact Hlinks|]. now apply Forall_singleton.
Qed.

Lemma extract_essential_data_inv rendered u d page new_links :
  FastCrawl.extract_essential_data urlparse urljoin parse_html domain rendered
    u d = Some (page, new_links) ->
  url page = u /\ depth page = d /\ links_found page = length new_links /\
  links page = take 10 new_links /\ Forall valid new_links.
Proof.
  clear browse max_depth max_pages.
  unfold FastCrawl.extract_essential_data.
  destruct rendered as [[page_source driver_title]|]; [|done].
  pose proof (fast_resolve_links_valid u
                (Fetch.anchors_with_href (parse_html page_source)) []
                (Forall_nil_2 _)) as Hvalid.
  destruct (FastCrawl.resolve_links _ _ _ _ _ _) as [found [|]]; [|done].
  intros [= <- <-]. now cbn.
Qed.

(** What one task leaves: at most one more page, its own, and links only
    when it is above the depth limit. *)
Lemma crawl_single_page_spec late u d crawled :
  exists pages,
    (crawl_single_page late (u, d) crawled).2 = crawled ++ pages /\
    (pages = [] \/
     exists page, pages = [page] /\ url page = u /\ depth page = d /\
                  length crawled < max_pages) /\
    match (crawl_single_page late (u, d) crawled).1 with
    | Raised => True
    | Returned new_links =>
        new_links = [] \/ (d < max_depth /\ Forall valid new_links)
    end.
Proof.
  unfold FastCrawl.crawl_single_page.
  destruct (late && (max_pages <=? length crawled)).
  { exists []. rewrite app_nil_r. cbn. auto. }
  destruct (browse u) as [|rendered quit_ok].
  { exists []. rewrite app_nil_r. cbn. auto. }
  destruct (FastCrawl.extract_essential_data _ _ _ _ _ _ _)
    as [[page new_links]|] eqn:Hdata.
  - apply extract_essential_data_inv in Hdata as (Hu & Hd & _ & _ & Hvalid).
    assert (match (if quit_ok then
                     Returned (if d <? max_depth then new_links else [])
                   else Raised) with
            | Raised => True
            | Returned new_links =>
                new_links = [] \/ (d < max_depth /\ Forall valid new_links)
            end) as Hlinks.
    { destruct quit_ok; [|done].
      destruct (d <? max_depth) eqn:Hdepth; [|now left].
      apply Nat.ltb_lt in Hdepth. now right. }
    destruct (length crawled <? max_pages) eqn:Hroom.
    + apply Nat.ltb_lt in Hroom. exists [page]. cbn [fst snd].
      split_and!; [done| |exact Hlinks].
      right. now exists page.
    + exists []. rewrite app_nil_r. cbn [fst snd].
      split_and!; [done|now left|exact Hlinks].
  - exists []. rewrite app_nil_r. cbn [fst snd]. split_and!; [done|now left|].
    destruct quit_ok; [now left|done].
Qed.

(** The links a result carries come from a task above the depth limit. *)
Definition links_from (tasks : list (string * nat)) (o : outcome) : Prop :=
  match o with
  | Raised => True
  | Returned new_links =>
      new_links = [] \/
      ((exists task, task ∈ tasks /\ task.2 < max_depth) /\
       Forall valid new_links)
  end.

Lemma run_batch_spec late tasks crawled :
  exists pages,
    (run_batch late tasks crawled).2 = crawled ++ pages /\
    (length crawled <= max_pages -> length (crawled ++ pages) <= max_pages) /\
    (exists kept, kept `sublist_of` tasks /\
                  (fun p => (url p, depth p)) <$> pages = kept) /\
    Forall (links_from tasks) (run_batch late tasks crawled).1.
Proof.
  revert crawled. induction tasks as [|[u d] tasks IH]; intros crawled;
    cbn [FastCrawl.run_batch].
  { exists []. rewrite app_nil_r. cbn. split_and!; auto.
    exists []. split; [constructor|done]. }
  destruct (crawl_single_page_spec (late u) u d crawled)
    as (first & Hfirst & Hpage & Hlinks).
  cbn [fst]. destruct (crawl_single_page (late u) (u, d) crawled)
    as [result crawled1]. cbn [fst snd] in Hfirst, Hlinks. subst crawled1.
  destruct (IH (crawled ++ first)) as (pages & Hpages & Hroom & Hkept & Hall).
  destruct (run_batch late tasks (crawled ++ first)) as [results crawled2].
  cbn [fst snd] in *. subst crawled2.
  exists (first ++ pages). rewrite <- app_assoc. split_and!; [done| | |].
  - intros Hle. rewrite app_assoc. apply Hroom.
    destruct Hpage as [->|(page & -> & _ & _ & Hlt)];
      rewrite length_app; cbn; lia.
  - destruct Hkept as (kept & Hsub & Hkept).
    destruct Hpage as [->|(page & -> & Hu & Hd & _)].
    + exists kept. split; [now apply sublist_cons|done].
    + exists ((u, d) :: kept). split; [now apply sublist_skip|].
      cbn. now rewrite Hu, Hd, Hkept.
  - constructor.
    + destruct result as [|new_links]; [done|]. cbn.
      destruct Hlinks as [->|[Hd Hvalid]]; [now left|right].
      split; [|done]. exists (u, d). split; [left|done].
    + eapply Forall_impl; [exact Hall|].
      intros [|new_links]; [done|]. cbn.
      intros [->|[(task & Hin & Hd) Hvalid]]; [now left|right].
      split; [|done]. exists task. split; [now right|done].
Qed.

(** What the drawing of a batch does to the queue and the visited set. *)
Lemma draw_batch_spec n st batch :
  exists popped new,
    (draw_batch n st batch).1 = batch ++ new /\
    url_queue st = popped ++ url_queue (draw_batch n st batch).2 /\
    new `sublist_of` popped /\
    crawled_data (draw_batch n st batch).2 = crawled_data st /\
    visited_urls (draw_batch n st batch).2
      = list_to_set new.*1 ∪ visited_urls st /\
    NoDup new.*1 /\
    (forall u, u ∈ new.*1 -> u ∉ visited_urls st).
Proof.
  revert st batch. induction n as [|n IH]; intros st batch;
    cbn [FastCrawl.draw_batch].
  { exists [], []. rewrite app_nil_r. cbn.
    split_and!; auto; [set_solver|constructor|set_solver]. }
  destruct (url_queue st) as [|[u d] rest] eqn:Hqueue.
  { destruct (IH st batch) as (popped & new & H1 & H2 & H3 & H4 & H5 & H6 & H7).
    exists popped, new. rewrite <- Hqueue. split_and!; auto. }
  destruct (decide (u ∈ visited_urls st)) as [Hseen|Hnew].
  - destruct (IH (mkCrawler (visited_urls st) (crawled_data st) rest) batch)
      as (popped & new & H1 & H2 & H3 & H4 & H5 & H6 & H7).
    cbn in H2, H4, H5, H7.
    exists ((u, d) :: popped), new. split_and!; auto.
    + cbn. now rewrite <- H2.
    + now apply sublist_cons.
  - destruct (IH (mkCrawler ({[u]} ∪ visited_urls st) (crawled_data st) rest)
                (batch ++ [(u, d)]))
      as (popped & new & H1 & H2 & H3 & H4 & H5 & H6 & H7).
    cbn in H2, H4, H5, H7.
    exists ((u, d) :: popped), ((u, d) :: new). split_and!; auto.
    + now rewrite H1, <- app_assoc.
    + cbn. now rewrite <- H2.
    + now apply sublist_skip.
    + rewrite H5. cbn. set_solver.
    + cbn. apply NoDup_cons. split; [|done].
      intros Hin. apply (H7 u Hin). set_solver.
    + cbn. intros v [->|Hv]%elem_of_cons; [done|].
      specialize (H7 v Hv). set_solver.
Qed.

(** The queue of a breadth-first traversal: depths ascend, differ by at
    most one, and stay within the limit. *)
Definition levelled (queue : list (string * nat)) : Prop :=
  StronglySorted (fun a b : string * nat => a.2 <= b.2) queue /\
  (forall a b, a ∈ queue -> b ∈ queue -> b.2 <= a.2 + 1) /\
  Forall (fun a => a.2 <= max_depth) queue.

Definition eligible (base_url u : string) : Prop :=
  u = base_url \/ FastWebCrawler.is_valid_url urlparse domain u = true.

Record fast_ok (base_url : string) (st : crawler) : Prop := mkFastOk {
  ok_pages : length (crawled_data st) <= max_pages;
  ok_queue : length (url_queue st) <= 100;
  ok_levelled : levelled (url_queue st);
  ok_depth : Forall (fun p => depth p <= max_depth) (crawled_data st);
  ok_distinct : NoDup (url <$> crawled_data st);
  ok_visited : forall p, p ∈ crawled_data st -> url p ∈ visited_urls st;
  ok_eligible : forall u, u ∈ visited_urls st -> eligible base_url u;
  ok_queued : forall a, a ∈ url_queue st -> eligible base_url a.1
}.

Lemma initial_fast_ok base_url : fast_ok base_url (initial base_url).
Proof.
  clear. split; cbn.
  - lia.
  - lia.
  - split_and!.
    + repeat constructor.
    + intros a b ->%list_elem_of_singleton ->%list_elem_of_singleton. cbn. lia.
    + repeat constructor. cbn. lia.
  - constructor.
  - constructor.
  - intros p Hp. now apply elem_of_nil in Hp.
  - intros u Hu. now apply elem_of_empty in Hu.
  - intros a ->%list_elem_of_singleton. now left.
Qed.

Lemma levelled_suffix popped queue :
  levelled (popped ++ queue) -> levelled queue.
Proof.
  intros (Hsorted & Hspan & Hdepth). split_and!.
  - clear -Hsorted. induction popped as [|a popped IH]; [done|].
    cbn in Hsorted. apply StronglySorted_inv in Hsorted as [Hsorted _].
    now apply IH.
  - intros a b Ha Hb. apply Hspan; apply elem_of_app; now right.
  - now apply Forall_app in Hdepth as [_ Hdepth].
Qed.

Lemma levelled_snoc queue u d :
  levelled queue -> d <= max_depth ->
  (forall a, a ∈ queue -> a.2 <= d /\ d <= a.2 + 1) ->
  levelled (queue ++ [(u, d)]).
Proof.
  intros (Hsorted & Hspan & Hdepth) Hd Hqueue. split_and!.
  - clear Hspan Hdepth. induction Hsorted as [|a queue Hs IH Ha]; cbn.
    + repeat constructor.
    + constructor.
      * apply IH. intros b Hb. apply Hqueue. now right.
      * apply Forall_app. split; [exact Ha|].
        apply Forall_singleton. cbn. apply Hqueue. left.
  - intros a b [Ha| ->%list_elem_of_singleton]%elem_of_app
               [Hb| ->%list_elem_of_singleton]%elem_of_app; cbn.
    + now apply Hspan.
    + now apply Hqueue.
    + destruct (Hqueue b Hb). lia.
    + lia.
  - apply Forall_app. split; [done|]. now apply Forall_singleton.
Qed.

(** The queue while the results of a batch are consumed: it holds the
    entries left by the drawing, of depth [d] or [d + 1], followed by new
    entries of depth [d + 1]. *)
Record filling (base_url : string) (d : nat) (st : crawler) : Prop := mkFilling {
  filling_queue : length (url_queue st) <= 100;
  filling_levelled : levelled (url_queue st);
  filling_range : forall a, a ∈ url_queue st -> d <= a.2 /\ a.2 <= d + 1;
  filling_queued : forall a, a ∈ url_queue st -> eligible base_url a.1
}.

Lemma enqueue_link_filling base_url d st link :
  d + 1 <= max_depth -> valid link ->
  filling base_url d st -> filling base_url d (enqueue_link d st link).
Proof.
  intros Hd Hvalid [Hlen Hlev Hrange Hqueued]. unfold enqueue_link.
  destruct (bool_decide (link ∉ visited_urls st)); cbn [andb]; [|now split].
  destruct (length (url_queue st) <? 100) eqn:Hroom; [|now split].
  apply Nat.ltb_lt in Hroom. split; cbn.
  - rewrite length_app. cbn. lia.
  - apply levelled_snoc; [done|done|].
    intros a Ha. destruct (Hrange a Ha). lia.
  - intros a [Ha| ->%list_elem_of_singleton]%elem_of_app; [now apply Hrange|].
    cbn. lia.
  - intros a [Ha| ->%list_elem_of_singleton]%elem_of_app; [now apply Hqueued|].
    now right.
Qed.

Lemma enqueue_link_same d st link :
  visited_urls (enqueue_link d st link) = visited_urls st /\
  crawled_data (enqueue_link d st link) = crawled_data st.
Proof.
  clear. unfold enqueue_link.
  now destruct (bool_decide _ && _).
Qed.

Lemma enqueue_links_filling base_url d new_links st :
  d + 1 <= max_depth -> Forall valid new_links ->
  filling base_url d st ->
  filling base_url d (fold_left (enqueue_link d) new_links st) /\
  visited_urls (fold_left (enqueue_link d) new_links st) = visited_urls st /\
  crawled_data (fold_left (enqueue_link d) new_links st) = crawled_data st.
Proof.
  intros Hd Hvalid. revert st.
  induction Hvalid as [|link new_links Hlink Hvalid IH]; intros st Hst;
    cbn [fold_left]; [done|].
  destruct (IH (enqueue_link d st link)) as (H1 & H2 & H3);
    [now apply enqueue_link_filling|].
  destruct (enqueue_link_same d st link) as [Hv Hc].
  split_and!; [done|now rewrite H2|now rewrite H3].
Qed.

Lemma consume_filling base_url d tasks results st :
  (forall task, task ∈ tasks -> d <= task.2) ->
  Forall (links_from tasks) results ->
  filling base_url d st ->
  filling base_url d (consume d results st).2 /\
  visited_urls (consume d results st).2 = visited_urls st /\
  crawled_data (consume d results st).2 = crawled_data st.
Proof.
  intros Hfirst Hall. revert st.
  induction Hall as [|result results Hresult Hall IH]; intros st Hst;
    cbn [consume]; [done|].
  destruct result as [|new_links]; [done|].
  destruct Hresult as [->|[(task & Hin & Hdepth) Hvalid]]; [now apply IH|].
  specialize (Hfirst task Hin).
  destruct (enqueue_links_filling base_url d new_links st) as (H1 & H2 & H3);
    [lia|done|done|].
  destruct (IH _ H1) as (H4 & H5 & H6).
  split_and!; [done|now rewrite H5|now rewrite H6].
Qed.

Lemma sorted_sublist (queue kept : list (string * nat)) :
  StronglySorted (fun a b : string * nat => a.2 <= b.2) queue ->
  kept `sublist_of` queue ->
  StronglySorted (fun a b : string * nat => a.2 <= b.2) kept.
Proof.
  clear. intros Hsorted Hsub. induction Hsub as [|a k q Hsub IH|a k q Hsub IH].
  - constructor.
  - apply StronglySorted_inv in Hsorted as [Hq Ha]. constructor; [now apply IH|].
    rewrite Forall_forall in Ha. apply Forall_forall. intros b Hb.
    apply Ha. eapply elem_of_sublist; [exact Hb|exact Hsub].
  - apply StronglySorted_inv in Hsorted as [Hq _]. now apply IH.
Qed.

Lemma state_of_pass base_url s st :
  fast_ok base_url st ->
  fast_ok base_url
    match crawl_step s st with Again st' | Break st' | Raises st' => st' end.
Proof.
  intros [Hpages Hqueue Hlev Hdepth Hdistinct Hvisited Heligible Hqueued].
  unfold FastCrawl.crawl_step.
  destruct (draw_batch_spec (Nat.min 3 (length (url_queue st))) st [])
    as (popped & new & Hbatch & Hpopped & Hsub & Hcrawled & Hseen & Hnd & Hfresh).
  destruct (draw_batch _ st []) as [current_batch st1].
  cbn [fst snd app] in Hbatch, Hpopped, Hcrawled, Hseen. subst current_batch.
  assert (levelled (url_queue st1)) as Hlev1.
  { rewrite Hpopped in Hlev. now apply levelled_suffix in Hlev. }
  assert (forall a, a ∈ new -> a ∈ url_queue st) as Hnew_queue.
  { intros a Ha. rewrite Hpopped. apply elem_of_app. left.
    eapply elem_of_sublist; [|exact Hsub]. done. }
  assert (fast_ok base_url st1) as Hok1.
  { split.
    - now rewrite Hcrawled.
    - rewrite Hpopped, length_app in Hqueue. lia.
    - done.
    - now rewrite Hcrawled.
    - now rewrite Hcrawled.
    - rewrite Hcrawled, Hseen. intros p Hp. specialize (Hvisited p Hp).
      set_solver.
    - rewrite Hseen. intros u [Hu|Hu]%elem_of_union; [|now apply Heligible].
      apply elem_of_list_to_set, list_elem_of_fmap in Hu as (a & -> & Ha).
      now apply Hqueued, Hnew_queue.
    - intros a Ha. apply Hqueued. rewrite Hpopped. apply elem_of_app.
      now right. }
  destruct new as [|[u0 d0] new']; [exact Hok1|].
  set (batch := (u0, d0) :: new') in *.
  set (tasks := permute (lock_order s) batch).
  assert (tasks ≡ₚ batch) as Htasks by apply permute_perm.
  destruct (run_batch_spec (late_test s) tasks (crawled_data st1))
    as (pages & Hpagesq & Hroom & (kept & Hkept & Hpairs) & Hall).
  destruct (run_batch (late_test s) tasks (crawled_data st1))
    as [results crawled]. cbn [fst snd] in Hpagesq, Hall. subst crawled.
  assert (StronglySorted (fun a b : string * nat => a.2 <= b.2)
            (batch ++ url_queue st1)) as Hsorted.
  { destruct Hlev as (Hsorted & _ & _). rewrite Hpopped in Hsorted.
    clear -Hsorted Hsub.
    eapply sorted_sublist; [exact Hsorted|].
    now apply sublist_app. }
  assert (forall a, a ∈ batch ++ url_queue st1 -> d0 <= a.2) as Hfirst.
  { unfold batch in Hsorted. cbn in Hsorted.
    apply StronglySorted_inv in Hsorted as [_ Hsorted].
    rewrite Forall_forall in Hsorted.
    intros a [->|Ha]%elem_of_cons; [done|].
    exact (Hsorted a Ha). }
  assert (forall task, task ∈ tasks -> task ∈ batch) as Hin_batch.
  { intros task Hin. now rewrite <- Htasks. }
  assert (filling base_url d0
            (mkCrawler (visited_urls st1) (crawled_data st1 ++ pages)
               (url_queue st1))) as Hfill.
  { destruct Hok1 as [_ Hq1 _ _ _ _ _ Hqueued1]. split; cbn; [done|done| |done].
    intros a Ha. split; [apply Hfirst, elem_of_app; now right|].
    destruct Hlev as (_ & Hspan & _).
    apply (Hspan (u0, d0) a).
    - apply Hnew_queue. left.
    - rewrite Hpopped. apply elem_of_app. now right. }
  destruct (consume_filling base_url d0 tasks
              (permute (completion_order s) results) _
              (fun task Hin => Hfirst task
                 (proj2 (elem_of_app _ _ _) (or_introl (Hin_batch task Hin))))
              (proj2 (Forall_forall _ _)
                 (fun o Ho => proj1 (Forall_forall _ _) Hall o
                    (proj1 (elem_of_Permutation_proper _ _ _
                              (permute_perm (completion_order s) results)) Ho)))
              Hfill)
    as ([Hq2 Hlev2 _ Hqueued2] & Hvisited2 & Hcrawled2).
  cbn in Hvisited2, Hcrawled2.
  assert (fast_ok base_url
            (consume d0 (permute (completion_order s) results)
               (mkCrawler (visited_urls st1) (crawled_data st1 ++ pages)
                  (url_queue st1))).2) as Hok2.
  { destruct Hok1 as [Hp1 _ _ Hd1 Hdist1 Hvis1 Helig1 _].
    assert (forall p, p ∈ pages -> (url p, depth p) ∈ batch) as Hpage_task.
    { intros p Hp. apply Hin_batch.
      eapply elem_of_sublist; [|exact Hkept]. rewrite <- Hpairs.
      apply list_elem_of_fmap. now exists p. }
    split; rewrite ?Hvisited2, ?Hcrawled2; auto.
    - apply Forall_app. split; [done|]. apply Forall_forall. intros p Hp.
      destruct Hlev as (_ & _ & Hmax). rewrite Forall_forall in Hmax.
      apply (Hmax (url p, depth p)), Hnew_queue, Hpage_task, Hp.
    - rewrite fmap_app. apply NoDup_app. split_and!; [done| |].
      + intros v Hold Hnew.
        apply list_elem_of_fmap in Hold as (p & -> & Hp).
        apply list_elem_of_fmap in Hnew as (q & Hq & Hq').
        apply (Hfresh (url q)).
        * apply list_elem_of_fmap. exists (url q, depth q).
          split; [done|]. now apply Hpage_task.
        * rewrite <- Hq. apply Hvisited. now rewrite <- Hcrawled.
      + assert (NoDup kept.*1) as Hndk.
        { eapply sublist_NoDup; [|apply fmap_sublist, Hkept].
          unfold tasks. rewrite permute_perm. exact Hnd. }
        rewrite <- Hpairs, <- list_fmap_compose in Hndk. exact Hndk.
    - intros p [Hp|Hp]%elem_of_app; [now apply Hvis1|].
      rewrite Hseen. apply elem_of_union. left.
      apply elem_of_list_to_set, list_elem_of_fmap.
      exists (url p, depth p). split; [done|]. now apply Hpage_task. }
  destruct (consume d0 _ _) as [[|] st2]; exact Hok2.
Qed.

Lemma crawl_loop_fast_ok base_url schedules st :
  fast_ok base_url st -> fast_ok base_url (state (crawl_loop schedules st)).
Proof.
  revert st. induction schedules as [|s schedules IH]; intros st Hok;
    cbn [FastCrawl.crawl_loop].
  - now destruct (FastCrawl.continues _ _).
  - destruct (FastCrawl.continues _ _); [|done].
    pose proof (state_of_pass base_url s st Hok) as Hstep.
    destruct (crawl_step s st) as [st'|st'|st']; cbn [state]; auto.
Qed.

End FastCrawlFacts.

(** Whatever the timing of the thread pool, and whether [crawl] returns,
    raises or is still running: [crawled_data] holds at most [max_pages]
    pages, at most one per URL, each of a URL that is marked visited and
    is the base URL or passed [is_valid_url]; and the queue holds at most
    100 entries. *)
Theorem fast_crawl_pages (urlparse : string -> option UrlParse.ParseResult)
    (urljoin : string -> string -> option string)
    (parse_html : string -> Soup.node)
    (browse : string -> FastCrawl.browsed) (domain : string)
    (max_depth max_pages : nat) (schedules : list FastCrawl.schedule)
    (base_url : string) :
  let st := FastCrawl.state
              (FastCrawl.crawl urlparse urljoin parse_html browse domain
                 max_depth max_pages schedules base_url) in
  length (FastCrawl.crawled_data st) <= max_pages /\
  NoDup (FastCrawl.url <$> FastCrawl.crawled_data st) /\
  (forall p, p ∈ FastCrawl.crawled_data st ->
     FastCrawl.url p ∈ FastCrawl.visited_urls st /\
     (FastCrawl.url p = base_url \/
      FastWebCrawler.is_valid_url urlparse domain (FastCrawl.url p) = true)) /\
  length (FastCrawl.url_queue st) <= 100.
Proof.
  intros st.
  destruct (crawl_loop_fast_ok urlparse urljoin parse_html browse domain
              max_depth max_pages base_url schedules
              (FastCrawl.initial base_url)
              (initial_fast_ok urlparse domain max_depth max_pages base_url))
    as [Hpages Hqueue _ _ Hdistinct Hvisited Heligible _].
  split_and!; [exact Hpages|exact Hdistinct| |exact Hqueue].
  intros p Hp. split; [now apply Hvisited|]. now apply Heligible, Hvisited.
Qed.

(** Whatever the timing of the thread pool: no page is recorded, and no
    URL is queued, with a depth above [max_depth], although a link is
    queued with the depth of the batch's first URL plus one and not with
    that of the page it was found on; the depths in the queue ascend and
    differ by at most one. *)
Theorem fast_crawl_depth (urlparse : string -> option UrlParse.ParseResult)
    (urljoin : string -> string -> option string)
    (parse_html : string -> Soup.node)
    (browse : string -> FastCrawl.browsed) (domain : string)
    (max_depth max_pages : nat) (schedules : list FastCrawl.schedule)
    (base_url : string) :
  let st := FastCrawl.state
              (FastCrawl.crawl urlparse urljoin parse_html browse domain
                 max_depth max_pages schedules base_url) in
  Forall (fun p => FastCrawl.depth p <= max_depth) (FastCrawl.crawled_data st) /\
  Forall (fun a : string * nat => a.2 <= max_depth) (FastCrawl.url_queue st) /\
  StronglySorted (fun a b : string * nat => a.2 <= b.2) (FastCrawl.url_queue st) /\
  (forall a b, a ∈ FastCrawl.url_queue st -> b ∈ FastCrawl.url_queue st ->
               b.2 <= a.2 + 1).
Proof.
  intros st.
  destruct (crawl_loop_fast_ok urlparse urljoin parse_html browse domain
              max_depth max_pages base_url schedules
              (FastCrawl.initial base_url)
              (initial_fast_ok urlparse domain max_depth max_pages base_url))
    as [_ _ (Hsorted & Hspan & Hmax) Hdepth _ _ _ _].
  now split_and!.
Qed.

(** ** The recursive crawler: the pages form a tree *)

(** [p] was reached from a recorded page one level above it. *)
Definition linked_from (crawled_data : list WebCrawl.page_data)
    (u : string) (d : nat) : Prop :=
  exists q, q ∈ crawled_data /\ d = WebCrawl.depth q + 1 /\
            u ∈ WebCrawl.link_url <$> WebCrawl.links q.

Section WebCrawlFacts.
Import WebCrawl.
Variable urlparse : string -> option UrlParse.ParseResult.
Variable urljoin : string -> string -> option string.
Variable parse_html : string -> Soup.node.
Variable render : string -> option rendered.
Variable domain : string.
Variable max_depth : nat.
Variable max_pages : nat.
Variable base_url : string.

Local Abbreviation crawl_page :=
  (WebCrawl.crawl_page urlparse urljoin parse_html render domain max_depth
     max_pages).
Local Abbreviation valid :=
  (fun u => WebCrawler.is_valid_url urlparse domain u = true).

(** A call the traversal makes: the first one, or one for a valid link of
    a recorded page. *)
Definition called (crawled_data : list page_data) (u : string) (d : nat)
  : Prop :=
  (u = base_url /\ d = 0) \/ (linked_from crawled_data u d /\ valid u).

Record web_ok (st : crawler) : Prop := mkWebOk {
  web_pages : length (crawled_data st) <= max_pages;
  web_depth : Forall (fun p => depth p <= max_depth) (crawled_data st);
  web_distinct : NoDup (url <$> crawled_data st);
  web_visited : forall p, p ∈ crawled_data st -> url p ∈ visited_urls st;
  web_tree : forall p, p ∈ crawled_data st ->
                       called (crawled_data st) (url p) (depth p)
}.

(** The state only grows. *)
Definition grows (st st' : crawler) : Prop :=
  visited_urls st ⊆ visited_urls st' /\
  crawled_data st `prefix_of` crawled_data st'.

Lemma grows_refl st : grows st st.
Proof. clear. split; [done|]. done. Qed.

Lemma grows_trans st1 st2 st3 : grows st1 st2 -> grows st2 st3 -> grows st1 st3.
Proof.
  clear. intros [Hv1 Hc1] [Hv2 Hc2]. split; [set_solver|].
  now transitivity (crawled_data st2).
Qed.

Lemma called_mono crawled crawled' u d :
  crawled `prefix_of` crawled' -> called crawled u d -> called crawled' u d.
Proof.
  clear. intros [more ->] [Hbase|[(q & Hq & Hd & Hu) Hvalid]]; [now left|right].
  split; [|done]. exists q. split_and!; [|done|done].
  apply elem_of_app. now left.
Qed.

Lemma page_of_inv u d r page :
  WebCrawl.page_of urlparse urljoin parse_html domain u d r = Some page ->
  url page = u /\ depth page = d /\ title page = driver_title r /\
  links page
  = WebCrawl.extract_all_links urlparse urljoin domain (current_url r)
      (anchors r) [].
Proof.
  clear. unfold WebCrawl.page_of.
  destruct (WebCrawl.images_of _ _ _) as [found|]; [|done].
  now intros [= <-].
Qed.

Lemma follow_links_ok visit page links st :
  (forall u st1, grows st st1 -> web_ok st1 -> called (crawled_data st1) u (depth page + 1) ->
     exists st2, visit u st1 = Some st2 /\ web_ok st2 /\ grows st1 st2) ->
  (forall link, link ∈ links -> link ∈ WebCrawl.links page) ->
  page ∈ crawled_data st -> web_ok st ->
  exists st', WebCrawl.follow_links urlparse domain visit links st = Some st' /\
              web_ok st' /\ grows st st'.
Proof.
  intros Hvisit. revert st Hvisit.
  induction links as [|link rest IH]; intros st Hvisit Hlinks Hpage Hok;
    cbn [WebCrawl.follow_links].
  { exists st. split_and!; [done|done|apply grows_refl]. }
  assert (forall l, l ∈ rest -> l ∈ WebCrawl.links page) as Hrest.
  { intros l Hl. apply Hlinks. now right. }
  destruct (bool_decide (link_url link ∉ visited_urls st)
            && WebCrawl.is_valid_url urlparse domain (link_url link)) eqn:Htest.
  - apply andb_prop in Htest as [_ Hvalid].
    destruct (Hvisit (link_url link) st (grows_refl st) Hok)
      as (st2 & -> & Hok2 & Hgrow2).
    { right. split; [|exact Hvalid]. exists page. split_and!; [done|done|].
      apply list_elem_of_fmap. exists link. split; [done|]. apply Hlinks. left. }
    destruct (IH st2) as (st' & Hfollow & Hok' & Hgrow'); [|done| |done|].
    + intros u st1 Hg. apply Hvisit. now apply (grows_trans st st2 st1).
    + destruct Hgrow2 as [_ [more ->]]. apply elem_of_app. now left.
    + exists st'. split_and!; [done|done|].
      now apply (grows_trans st st2 st').
  - now apply IH.
Qed.

Lemma crawl_page_ok fuel u d st :
  max_depth + 1 <= fuel + d -> web_ok st -> called (crawled_data st) u d ->
  exists st', crawl_page fuel u d st = Some st' /\ web_ok st' /\ grows st st'.
Proof.
  revert u d st. induction fuel as [|fuel IH]; intros u d st Hfuel Hok Hcall;
    cbn [WebCrawl.crawl_page].
  - destruct ((max_depth <? d) || bool_decide (u ∈ visited_urls st)
              || (max_pages <=? length (crawled_data st))) eqn:Hstop.
    + exists st. split_and!; [done|done|apply grows_refl].
    + apply orb_false_elim in Hstop as [Hstop _].
      apply orb_false_elim in Hstop as [Hdepth _].
      apply Nat.ltb_ge in Hdepth. lia.
  - destruct ((max_depth <? d) || bool_decide (u ∈ visited_urls st)
              || (max_pages <=? length (crawled_data st))) eqn:Hstop.
    { exists st. split_and!; [done|done|apply grows_refl]. }
    apply orb_false_elim in Hstop as [Hstop Hroom].
    apply orb_false_elim in Hstop as [Hdepth Hnew].
    apply Nat.ltb_ge in Hdepth. apply Nat.leb_gt in Hroom.
    apply bool_decide_eq_false in Hnew.
    destruct Hok as [Hpages Hdepths Hdistinct Hvisited Htree].
    set (st1 := mkCrawler ({[u]} ∪ visited_urls st) (crawled_data st)).
    assert (web_ok st1) as Hok1.
    { split; cbn; auto. intros p Hp. specialize (Hvisited p Hp). set_solver. }
    assert (grows st st1) as Hgrow1.
    { split; cbn; [set_solver|done]. }
    destruct (render u) as [r|]; [|now exists st1].
    destruct (WebCrawl.page_of _ _ _ _ u d r) as [page|] eqn:Hpage;
      [|now exists st1].
    apply page_of_inv in Hpage as (Hu & Hd & _ & _).
    set (st2 := mkCrawler (visited_urls st1) (crawled_data st1 ++ [page])).
    assert (web_ok st2) as Hok2.
    { split; cbn.
      - rewrite length_app. cbn. lia.
      - apply Forall_app. split; [done|]. apply Forall_singleton. lia.
      - rewrite fmap_app. apply NoDup_app. split_and!; [done| |].
        + intros v Hold ->%list_elem_of_singleton. rewrite Hu in Hold.
          apply list_elem_of_fmap in Hold as (p & -> & Hp).
          now apply Hnew, Hvisited.
        + apply NoDup_singleton.
      - intros p [Hp| ->%list_elem_of_singleton]%elem_of_app.
        + specialize (Hvisited p Hp). set_solver.
        + rewrite Hu. set_solver.
      - intros p [Hp| ->%list_elem_of_singleton]%elem_of_app.
        + eapply called_mono; [|now apply Htree]. now apply prefix_app_r.
        + rewrite Hu, Hd. eapply called_mono; [|exact Hcall].
          now apply prefix_app_r. }
    destruct (follow_links_ok
                (fun link_url st => crawl_page fuel link_url (d + 1) st)
                page (links page) st2) as (st' & Hfollow & Hok' & Hgrow').
    + intros v st3 _ Hok3 Hcall3. rewrite Hd in Hcall3.
      apply IH; [lia|done|done].
    + done.
    + cbn. apply elem_of_app. right. left.
    + done.
    + exists st'. split_and!; [done|done|].
      apply (grows_trans st st2 st'); [|done].
      split; cbn; [set_solver|]. now apply prefix_app_r.
Qed.

Lemma initial_web_ok : web_ok initial.
Proof.
  clear. split; cbn; [lia|constructor|constructor| |];
    intros p Hp; now apply elem_of_nil in Hp.
Qed.

End WebCrawlFacts.

(** [crawl_page(base_url)] on a new crawler returns, with no call nested
    deeper than [max_depth + 1]; it records at most [max_pages] pages, no
    URL twice and none deeper than [max_depth]; and the pages form a tree:
    each one is the base URL at depth 0, or has a URL that passed
    [is_valid_url] and is among the links of a recorded page one level
    above it. *)
Theorem web_crawl_tree (urlparse : string -> option UrlParse.ParseResult)
    (urljoin : string -> string -> option string)
    (parse_html : string -> Soup.node)
    (render : string -> option WebCrawl.rendered) (domain : string)
    (max_depth max_pages : nat) (base_url : string) :
  exists st,
    WebCrawl.crawl_from urlparse urljoin parse_html render domain max_depth
      max_pages base_url = Some st /\
    length (WebCrawl.crawled_data st) <= max_pages /\
    NoDup (WebCrawl.url <$> WebCrawl.crawled_data st) /\
    (forall p, p ∈ WebCrawl.crawled_data st ->
       WebCrawl.depth p <= max_depth /\
       WebCrawl.url p ∈ WebCrawl.visited_urls st /\
       ((WebCrawl.url p = base_url /\ WebCrawl.depth p = 0) \/
        (linked_from (WebCrawl.crawled_data st) (WebCrawl.url p) (WebCrawl.depth p) /\
         WebCrawler.is_valid_url urlparse domain (WebCrawl.url p) = true))).
Proof.
  destruct (crawl_page_ok urlparse urljoin parse_html render domain max_depth
              max_pages base_url (S max_depth) base_url 0 WebCrawl.initial)
    as (st & Hrun & [Hpages Hdepth Hdistinct Hvisited Htree] & _).
  - lia.
  - apply initial_web_ok.
  - now left.
  - exists st. split_and!; [exact Hrun|exact Hpages|exact Hdistinct|].
    intros p Hp. split_and!; [|now apply Hvisited|now apply Htree].
    rewrite Forall_forall in Hdepth. now apply Hdepth.
Qed.

(** ** The overview of an analysis run: what [static_urls] counts *)

Section OverviewFacts.

Lemma size_split (U D : gset string) :
  size U = size (U ∩ D) + size (U ∖ D).
Proof.
  rewrite <- size_union by set_solver. f_equal.
  apply set_eq. intros x. destruct (decide (x ∈ D)); set_solver.
Qed.

Lemma plain_tasks_size urls dynamic_urls :
  NoDup urls ->
  length (List.filter (fun task : string * bool => negb task.2)
            (AnalysisSummary.submitted urls dynamic_urls))
  = size (list_to_set (C := gset string) urls
          ∖ AnalysisSummary.dynamic_url_set dynamic_urls).
Proof.
  unfold AnalysisSummary.submitted.
  induction 1 as [|u urls Hu Hnd IH]; cbn [fmap list_fmap List.filter].
  - cbn. now rewrite difference_disjoint_L, size_empty by set_solver.
  - cbn [snd list_to_set]. destruct (bool_decide_reflect
      (u ∈ AnalysisSummary.dynamic_url_set dynamic_urls)) as [Hin|Hout];
      cbn [negb length].
    + rewrite IH. f_equal. apply set_eq. intros x. set_solver.
    + rewrite IH.
      replace (({[u]} ∪ list_to_set urls)
               ∖ AnalysisSummary.dynamic_url_set dynamic_urls)
        with ({[u]} ∪ (list_to_set (C := gset string) urls
                       ∖ AnalysisSummary.dynamic_url_set dynamic_urls)).
      * rewrite (size_union {[u]}
                   (list_to_set urls ∖ AnalysisSummary.dynamic_url_set dynamic_urls));
          [now rewrite size_singleton|].
        apply disjoint_singleton_l. intros [Hin _]%elem_of_difference.
        now apply elem_of_list_to_set in Hin.
      * apply set_eq. intros x. set_solver.
Qed.

End OverviewFacts.

(** For a list [urls] without repetitions, as [load_urls] gives it for a
    file the crawler saved: [static_urls] is the number of URLs analysed
    as not dynamic, less the number of dynamic URLs that are not in
    [urls].  So it is that number only when every dynamic URL is in
    [urls], and it is negative when there are more dynamic URLs than
    URLs. *)
Theorem static_urls_counts (urls dynamic_urls : list string)
    (success_count failed_count : nat) :
  NoDup urls ->
  let o := AnalysisSummary.analysis_overview urls dynamic_urls success_count
             failed_count in
  let plain := length (List.filter (fun task : string * bool => negb task.2)
                         (AnalysisSummary.submitted urls dynamic_urls)) in
  let absent := size (AnalysisSummary.dynamic_url_set dynamic_urls
                      ∖ list_to_set urls) in
  AnalysisSummary.static_urls o = (Z.of_nat plain - Z.of_nat absent)%Z /\
  ((forall u, u ∈ dynamic_urls -> u ∈ urls) ->
   AnalysisSummary.static_urls o = Z.of_nat plain) /\
  ((AnalysisSummary.static_urls o < 0)%Z <->
   length urls < size (AnalysisSummary.dynamic_url_set dynamic_urls)).
Proof.
  intros Hnd o plain absent.
  assert (AnalysisSummary.static_urls o
          = (Z.of_nat (length urls)
             - Z.of_nat (size (AnalysisSummary.dynamic_url_set dynamic_urls)))%Z)
    as Hstatic by reflexivity.
  assert (plain = size (list_to_set (C := gset string) urls
                        ∖ AnalysisSummary.dynamic_url_set dynamic_urls))
    as Hplain by now apply plain_tasks_size.
  assert (length urls = size (list_to_set (C := gset string) urls)) as Hlen
    by now rewrite size_list_to_set.
  pose proof (size_split (list_to_set urls)
                (AnalysisSummary.dynamic_url_set dynamic_urls)) as HU.
  pose proof (size_split (AnalysisSummary.dynamic_url_set dynamic_urls)
                (list_to_set urls)) as HD.
  replace (AnalysisSummary.dynamic_url_set dynamic_urls ∩ list_to_set urls)
    with (list_to_set (C := gset string) urls
          ∩ AnalysisSummary.dynamic_url_set dynamic_urls) in HD
    by (apply set_eq; intros x; set_solver).
  fold absent in HD. rewrite <- Hplain in HU.
  split_and!.
  - rewrite Hstatic. lia.
  - intros Hsub. assert (absent = 0) as Habsent.
    { unfold absent. apply size_empty_iff. intros x.
      unfold AnalysisSummary.dynamic_url_set. specialize (Hsub x). set_solver. }
    rewrite Hstatic. lia.
  - rewrite Hstatic. lia.
Qed.

Lemma static_urls_counts_witness :
  AnalysisSummary.static_urls
    (AnalysisSummary.analysis_overview ["http://example.com/a"]
       ["http://example.com/b"; "http://example.com/c"] 1 0)
  = (1 - 2)%Z.
Proof.
  refine (proj1 (static_urls_counts ["http://example.com/a"]
                   ["http://example.com/b"; "http://example.com/c"] 1 0 _)).
  apply NoDup_singleton.
Defined.
